(** * cyp.models.rnn : a shallow embedding of [RNNModel] and [RNNet]

    The Python module [src/cyp/models/rnn.py] builds an LSTM regressor on
    top of PyTorch.  The embedding below keeps the structure of the source:

    - Python objects that are mutated through references (the
      [dense_features] list, tensor storages) live in an explicit store;
    - every function that can raise returns in an error/state monad;
    - tensors are views ([storage], [offset], [shape], [strides], [device])
      over flat storages of real numbers, as in PyTorch;
    - calls into the sub-modules ([self.rnn], [self.dropout], the dense
      layers) are recorded in a trace, so that the order and the data flow
      of the calls can be stated.

    A tensor element is read as the real number it denotes.  The numbers
    the module computes on the Python side (the bounds it hands to the
    initialisers) are IEEE 754 doubles, and the initialisers convert them to
    single precision; the arithmetic inside the kernels of [nn.LSTM],
    [nn.Linear] and [nn.Dropout] is written over the reals. *)

From Stdlib Require Import ZArith QArith Reals Lra Lia String DecimalString.
From Stdlib Require SpecFloat.
From stdpp Require Import base list.

Set Default Proof Using "Type".
Open Scope Z_scope.

(* ===================================================================== *)
(** * Python and PyTorch run-time model *)
(* ===================================================================== *)

(** Exceptions that the modelled code can raise. *)
Inductive error :=
| RuntimeError        (* shape / device mismatch reported by torch *)
| ValueError
| IndexError
| TypeError
| AttributeError
| UnboundLocalError
| ZeroDivisionError.

(** [torch.device]: the CPU or one of the CUDA devices. *)
Inductive device :=
| CPU
| CUDA (index : nat).

#[global] Instance device_eq_dec : EqDecision device.
Proof. solve_decision. Defined.

(** A tensor is a strided view over a storage. *)
Record tensor := Tensor {
  t_loc    : nat;        (* the storage it looks into *)
  t_off    : nat;        (* storage offset *)
  t_shape  : list nat;
  t_stride : list nat;
  t_dev    : device
}.

#[global] Instance tensor_eq_dec : EqDecision tensor.
Proof. solve_decision. Defined.

(** Calls into sub-modules, in the order they happen. *)
Inductive event :=
| CallLSTM (input h c output h' c' : tensor)
| CallDropout (input output : tensor)
| CallLinear (weight input output : tensor).

(** The random number generator: the outcome of its n-th draw, read as a
    number of the unit interval or as a Bernoulli "keep" decision, and the
    number of draws made so far. *)
Record generator := Generator {
  g_unif : nat -> R;
  g_keep : nat -> bool;
  g_pos  : nat
}.

Record state := State {
  lists        : list (list Z);   (* Python list objects, by reference *)
  storages     : list (list R);   (* tensor storages, by reference *)
  gen          : generator;
  current_cuda : nat;             (* torch.cuda.current_device() *)
  trace        : list event
}.

(** ** The monad of Python computations: state and exceptions.
    An exception keeps the state reached when it was raised. *)
Definition M (A : Type) : Type := state -> (error + A) * state.

#[global] Instance M_ret : MRet M := fun A a st => (inr a, st).

#[global] Instance M_bind : MBind M := fun A B f m st =>
  match m st with
  | (inr a, st') => f a st'
  | (inl e, st') => (inl e, st')
  end.

Definition raise {A} (e : error) : M A := fun st => (inl e, st).

Definition get_state : M state := fun st => (inr st, st).

(** State updates: one component changes, the others stay. *)
Definition with_lists (st : state) (ls : list (list Z)) : state :=
  State ls (storages st) (gen st) (current_cuda st) (trace st).

Definition with_storages (st : state) (ss : list (list R)) : state :=
  State (lists st) ss (gen st) (current_cuda st) (trace st).

Definition with_drawn (st : state) (n : nat) : state :=
  State (lists st) (storages st)
        (Generator (g_unif (gen st)) (g_keep (gen st)) (g_pos (gen st) + n))
        (current_cuda st) (trace st).

Definition with_event (st : state) (e : event) : state :=
  State (lists st) (storages st) (gen st) (current_cuda st) (trace st ++ [e]).

Definition log (e : event) : M unit := fun st => (inr tt, with_event st e).

(** [for i in range(n): s = body(i, s)] *)
Fixpoint for_each {I S} (items : list I) (body : I -> S -> M S) (s : S)
  : M S :=
  match items with
  | [] => mret s
  | i :: rest => s' ← body i s; for_each rest body s'
  end.

Definition range (n : nat) : list nat := seq 0 n.

(** ** Python lists in the store *)

Definition new_list (l : list Z) : M nat := fun st =>
  (inr (length (lists st)), with_lists st (lists st ++ [l])).

Definition read_list (r : nat) : M (list Z) := fun st =>
  match lists st !! r with
  | Some l => (inr l, st)
  | None => (inl RuntimeError, st)
  end.

Definition write_list (r : nat) (l : list Z) : M unit := fun st =>
  (inr tt, with_lists st (<[r := l]> (lists st))).

(** [l.insert(0, v)] *)
Definition list_insert0 (r : nat) (v : Z) : M unit :=
  l ← read_list r; write_list r (v :: l).

(** [l[i] += v]; Python raises IndexError out of range. *)
Definition list_iadd (r : nat) (i : nat) (v : Z) : M unit :=
  l ← read_list r;
  match l !! i with
  | Some a => write_list r (<[i := a + v]> l)
  | None => raise IndexError
  end.

(** [len(l)] *)
Definition list_len (r : nat) : M Z :=
  l ← read_list r; mret (Z.of_nat (length l)).

(** [f'{n}'] for an int. *)
Definition str_of_int (n : Z) : string :=
  NilZero.string_of_int (Z.to_int n).

(** ** Tensor storages and views *)

Definition numel (shape : list nat) : nat := foldr Nat.mul 1%nat shape.

Fixpoint contiguous_strides (shape : list nat) : list nat :=
  match shape with
  | [] => []
  | _ :: rest => numel rest :: contiguous_strides rest
  end.

(** All indices of a shape, in row-major order. *)
Fixpoint indices (shape : list nat) : list (list nat) :=
  match shape with
  | [] => [[]]
  | n :: rest => i ← seq 0 n; (cons i) <$> indices rest
  end.

Definition offset_of (t : tensor) (idx : list nat) : nat :=
  (t_off t + foldr Nat.add 0 (zip_with Nat.mul idx (t_stride t)))%nat.

Definition read (st : state) (loc off : nat) : R :=
  default 0%R (storages st !! loc ≫= (.!! off)).

(** The element of [t] at index [idx]. *)
Definition tget (st : state) (t : tensor) (idx : list nat) : R :=
  read st (t_loc t) (offset_of t idx).

(** The elements of [t], in row-major order. *)
Definition elements (st : state) (t : tensor) : list R :=
  tget st t <$> indices (t_shape t).

(** [torch.Tensor.is_contiguous]: dimensions of size 1 are skipped. *)
Fixpoint contiguous_from (dims : list (nat * nat)) (z : nat) : bool :=
  match dims with
  | [] => true
  | (n, s) :: rest =>
      if (n =? 1)%nat then contiguous_from rest z
      else (s =? z)%nat && contiguous_from rest (z * n)
  end.

Definition is_contiguous (t : tensor) : bool :=
  (numel (t_shape t) =? 0)%nat
  || contiguous_from (reverse (zip (t_shape t) (t_stride t))) 1.

Definition is_cuda (t : tensor) : bool :=
  match t_dev t with CUDA _ => true | CPU => false end.

(** A new storage holding [data], seen as a contiguous tensor. *)
Definition alloc (dev : device) (shape : list nat) (data : list R) : M tensor :=
  fun st =>
    (inr (Tensor (length (storages st)) 0 shape (contiguous_strides shape) dev),
     with_storages st (storages st ++ [data])).

(** Python ints used as sizes: torch rejects negative dimensions.  Memory
    is not bounded here: the limit of torch on the sizes of a tensor is not
    modelled. *)
Definition sizes (dims : list Z) : M (list nat) :=
  if forallb (fun d => 0 <=? d) dims then mret (Z.to_nat <$> dims)
  else raise RuntimeError.

(** [torch.zeros(d0, d1, ...)]: a fresh zero-filled CPU tensor. *)
Definition zeros (dims : list Z) : M tensor :=
  shape ← sizes dims;
  alloc CPU shape (replicate (numel shape) 0%R).

(** [torch.empty(d0, d1, ...)]; the content is irrelevant, it is taken as 0. *)
Definition empty (dims : list Z) : M tensor := zeros dims.

(** [t.shape[i]] *)
Definition shape_at (t : tensor) (i : nat) : M nat :=
  match t_shape t !! i with
  | Some n => mret n
  | None => raise IndexError
  end.

(** [t.permute(d0, d1, ...)]: a view. *)
Definition permute (t : tensor) (dims : list nat) : M tensor :=
  if bool_decide (length dims = length (t_shape t) /\ NoDup dims
                  /\ Forall (fun d => d < length (t_shape t))%nat dims)
  then mret (Tensor (t_loc t) (t_off t)
                    ((fun d => t_shape t !!! d) <$> dims)
                    ((fun d => t_stride t !!! d) <$> dims)
                    (t_dev t))
  else raise RuntimeError.

(** [t.contiguous()]: [t] itself when it is already contiguous, a copy
    otherwise. *)
Definition contiguous (t : tensor) : M tensor :=
  if is_contiguous t then mret t
  else st ← get_state; alloc (t_dev t) (t_shape t) (elements st t).

(** [t.view(n0, n1, ...)]: a view; only contiguous tensors are handled, which
    is the only way the module uses it. *)
Definition view (t : tensor) (shape : list nat) : M tensor :=
  if is_contiguous t && (numel shape =? numel (t_shape t))%nat
  then mret (Tensor (t_loc t) (t_off t) shape (contiguous_strides shape)
                    (t_dev t))
  else raise RuntimeError.

(** [t[:, i, :]] on a tensor of rank 3: a view. *)
Definition select1 (t : tensor) (i : nat) : M tensor :=
  match t_shape t, t_stride t with
  | [n0; n1; n2], [s0; s1; s2] =>
      if (i <? n1)%nat
      then mret (Tensor (t_loc t) (t_off t + i * s1) [n0; n2] [s0; s2]
                        (t_dev t))
      else raise IndexError
  | _, _ => raise IndexError
  end.

(** [t.unsqueeze(d)]: a view with a dimension of size 1 inserted at [d]. *)
Definition unsqueeze (t : tensor) (d : nat) : M tensor :=
  if (d <=? length (t_shape t))%nat
  then
    let s := match t_shape t !! d, t_stride t !! d with
             | Some n, Some s => (n * s)%nat
             | _, _ => 1%nat
             end in
    mret (Tensor (t_loc t) (t_off t)
                 (take d (t_shape t) ++ 1%nat :: drop d (t_shape t))
                 (take d (t_stride t) ++ s :: drop d (t_stride t))
                 (t_dev t))
  else raise IndexError.

(** [t.squeeze(0)]: a view without the leading dimension when it has
    size 1, [t] otherwise. *)
Definition squeeze0 (t : tensor) : M tensor :=
  match t_shape t with
  | 1%nat :: rest =>
      mret (Tensor (t_loc t) (t_off t) rest (tail (t_stride t)) (t_dev t))
  | [] => raise IndexError
  | _ => mret t
  end.

(** [t.cuda()]: [t] itself when it is on the current CUDA device, a copy
    on the current CUDA device otherwise. *)
Definition cuda (t : tensor) : M tensor :=
  st ← get_state;
  if bool_decide (t_dev t = CUDA (current_cuda st)) then mret t
  else alloc (CUDA (current_cuda st)) (t_shape t) (elements st t).

(** [torch.cat((a, b), dim=1)]: same rank (at least 2), same device, same
    sizes except in dimension 1. *)
Definition cat1 (a b : tensor) : M tensor :=
  match t_shape a, t_shape b with
  | n :: wa :: ra, m :: wb :: rb =>
      if bool_decide (n = m /\ ra = rb /\ t_dev a = t_dev b)
      then
        st ← get_state;
        alloc (t_dev a) (n :: (wa + wb)%nat :: ra)
          (i ← seq 0 n;
           ((fun idx => tget st a (i :: idx)) <$> indices (wa :: ra))
           ++ ((fun idx => tget st b (i :: idx)) <$> indices (wb :: rb)))
      else raise RuntimeError
  | _, _ => raise RuntimeError
  end.

(** ** Floating-point numbers

    A Python [float] is an IEEE 754 double and the tensors of this module
    hold single-precision numbers.  The operations are those of the
    specification of the Standard Library, which round to nearest, ties to
    even: precision 53 and largest exponent 1024 for doubles, 24 and 128 for
    single precision. *)

Definition float : Type := SpecFloat.spec_float.

(** A Python int as a number with mantissa and exponent, not rounded. *)
Definition int_exact (n : Z) : float :=
  match n with
  | Z0 => SpecFloat.S754_zero false
  | Zpos m => SpecFloat.S754_finite false m 0
  | Zneg m => SpecFloat.S754_finite true m 0
  end.

(** [float(n)] of a Python int. *)
Definition float_of_int (n : Z) : float :=
  SpecFloat.binary_normalize 53 1024 n 0 false.

(** [a / b] on Python ints, [b] not 0: the quotient of the two integers,
    rounded once. *)
Definition int_true_div (a b : Z) : float :=
  SpecFloat.SFdiv 53 1024 (int_exact a) (int_exact b).

Definition float_add : float -> float -> float := SpecFloat.SFadd 53 1024.
Definition float_mul : float -> float -> float := SpecFloat.SFmul 53 1024.
Definition float_div : float -> float -> float := SpecFloat.SFdiv 53 1024.
Definition float_opp : float -> float := SpecFloat.SFopp.

(** [x < y] on Python floats. *)
Definition float_ltb : float -> float -> bool := SpecFloat.SFltb.

(** [math.sqrt(x)], where it returns: it raises ValueError for [x < 0]. *)
Definition math_sqrt : float -> float := SpecFloat.SFsqrt 53 1024.

(** The conversion of a double to single precision. *)
Definition to_single (x : float) : float :=
  match x with
  | SpecFloat.S754_finite s m e => SpecFloat.binary_round 24 128 s m e
  | _ => x
  end.

(** The real number a finite floating-point number denotes; 0 is given to
    the infinities and to NaN, which torch refuses as bounds. *)
Definition float_R (x : float) : R :=
  match x with
  | SpecFloat.S754_finite s m e =>
      (IZR (SpecFloat.cond_Zopp s (Zpos m)) * powerRZ 2 e)%R
  | _ => 0%R
  end.

(** A double as the single-precision number a tensor receives. *)
Definition single_R (x : float) : R := float_R (to_single x).

(** ** In-place initialisers of [torch.nn.init] *)

#[global] Instance R_inhabited : Inhabited R := populate 0%R.

(** Overwrite the elements of [t], the k-th one in row-major order with
    [f k], in the storage of [t]. *)
Definition overwrite (t : tensor) (f : nat -> R) (s : list R) : list R :=
  foldr (fun '(k, o) s => <[o := f k]> s) s
        (zip (seq 0 (numel (t_shape t))) (offset_of t <$> indices (t_shape t))).

Definition fill_ (t : tensor) (f : nat -> R) : M unit := fun st =>
  (inr tt, with_storages st (alter (overwrite t f) (t_loc t) (storages st))).

(** The generator hands out its next [n] draws. *)
Definition draw (n : nat) : M nat := fun st =>
  (inr (g_pos (gen st)), with_drawn st n).

(** [nn.init.uniform_(t, lo, hi)] on a single-precision tensor.  The
    bounds are Python floats; they are converted to single precision, and
    every element is drawn between the converted bounds, both of which can
    come out.  The n-th outcome of the generator, a number of the unit
    interval, is read as the place of the element between them, so that
    every number between the bounds is the outcome of some draw.  The check
    torch makes of the bounds ([lo <= hi], finite) is not modelled. *)
Definition uniform_ (t : tensor) (lo hi : float) : M unit :=
  st ← get_state;
  pos ← draw (numel (t_shape t));
  fill_ t (fun k => single_R lo
                    + (single_R hi - single_R lo) * g_unif (gen st) (pos + k))%R.

(** [nn.init.constant_(t, v)] *)
Definition constant_ (t : tensor) (v : R) : M unit :=
  fill_ t (fun _ => v).

(** [nn.init.kaiming_uniform_(t, a)] with the default fan mode ([fan_in])
    and nonlinearity ([leaky_relu]): [gain = math.sqrt(2.0 / (1 + a ** 2))],
    [std = gain / math.sqrt(fan)], [bound = math.sqrt(3.0) * std], all in
    double precision ([a ** 2] is taken as the rounded product). *)
Definition kaiming_uniform_ (t : tensor) (a : float) : M unit :=
  if (numel (t_shape t) =? 0)%nat then mret tt
  else
    match t_shape t with
    | _ :: fan :: receptive =>
        let fan_in := Z.of_nat (fan * numel receptive) in
        let gain :=
          math_sqrt (float_div (float_of_int 2)
                               (float_add (float_of_int 1) (float_mul a a))) in
        let std := float_div gain (math_sqrt (float_of_int fan_in)) in
        let bound := float_mul (math_sqrt (float_of_int 3)) std in
        uniform_ t (float_opp bound) bound
    | _ => raise ValueError
    end.

(** ** [nn.Linear] *)

Record Linear := mkLinear {
  in_features  : Z;
  out_features : Z;
  weight       : tensor;    (* [out_features, in_features] *)
  bias         : tensor     (* [out_features] *)
}.

(** [nn.Linear(in_features, out_features)], with its [reset_parameters]. *)
Definition Linear_init (in_features out_features : Z) : M Linear :=
  weight ← empty [out_features; in_features];
  bias ← empty [out_features];
  kaiming_uniform_ weight (math_sqrt (float_of_int 5));;
  (let bound := if 0 <? in_features
                then float_div (float_of_int 1)
                               (math_sqrt (float_of_int in_features))
                else float_of_int 0 in
   uniform_ bias (float_opp bound) bound);;
  mret (mkLinear in_features out_features weight bias).

Definition dot (u v : list R) : R := foldr Rplus 0%R (zip_with Rmult u v).

(** The elements of [x @ weight.T + bias], [lead] being the shape of [x]
    without its last dimension. *)
Definition Linear_data (st : state) (layer : Linear) (x : tensor)
    (lead : list nat) (n_in n_out : nat) : list R :=
  idx ← indices lead;
  (fun o =>
     dot ((fun m => tget st x (idx ++ [m])) <$> seq 0 n_in)
         ((fun m => tget st (weight layer) [o; m]) <$> seq 0 n_in)
     + tget st (bias layer) [o])%R <$> seq 0 n_out.

(** [layer(x)]: [x @ weight.T + bias] over the last dimension of [x]. *)
Definition Linear_call (layer : Linear) (x : tensor) : M tensor :=
  match t_shape (weight layer), reverse (t_shape x) with
  | [n_out; n_in], last :: rev_lead =>
      if bool_decide (last = n_in /\ t_dev x = t_dev (weight layer)
                      /\ t_dev x = t_dev (bias layer))
      then
        st ← get_state;
        y ← alloc (t_dev x) (reverse rev_lead ++ [n_out])
                  (Linear_data st layer x (reverse rev_lead) n_in n_out);
        log (CallLinear (weight layer) x y);;
        mret y
      else raise RuntimeError
  | _, _ => raise RuntimeError
  end.

(** ** [nn.LSTM], one layer, unidirectional, [batch_first=True] *)

Record LSTM := mkLSTM {
  input_size       : Z;
  lstm_hidden_size : Z;
  weight_ih_l0     : tensor;   (* [4*hidden, input] , gates i, f, g, o *)
  weight_hh_l0     : tensor;   (* [4*hidden, hidden] *)
  bias_ih_l0       : tensor;   (* [4*hidden] *)
  bias_hh_l0       : tensor    (* [4*hidden] *)
}.

(** [rnn.all_weights]: one list of parameters per layer. *)
Definition all_weights (rnn : LSTM) : list (list tensor) :=
  [[weight_ih_l0 rnn; weight_hh_l0 rnn; bias_ih_l0 rnn; bias_hh_l0 rnn]].

(** [nn.LSTM(input_size, hidden_size, num_layers=1, batch_first=True)],
    with its [reset_parameters].  The four tensors are made as
    [torch.empty] makes them, which refuses negative sizes; the checks of
    the arguments that later versions of torch make before (they refuse a
    hidden size of 0 at once) are not modelled. *)
Definition LSTM_init (input_size hidden_size : Z) : M LSTM :=
  w_ih ← empty [4 * hidden_size; input_size];
  w_hh ← empty [4 * hidden_size; hidden_size];
  b_ih ← empty [4 * hidden_size];
  b_hh ← empty [4 * hidden_size];
  let rnn := mkLSTM input_size hidden_size w_ih w_hh b_ih b_hh in
  let stdv := if 0 <? hidden_size
              then float_div (float_of_int 1)
                             (math_sqrt (float_of_int hidden_size))
              else float_of_int 0 in
  for_each (concat (all_weights rnn))
           (fun w _ => uniform_ w (float_opp stdv) stdv) tt;;
  mret rnn.

Definition sigmoid (x : R) : R := (1 / (1 + exp (- x)))%R.

(** One step of the cell on one example: new hidden and cell rows. *)
Definition lstm_cell (gate : nat -> list R -> list R -> R) (H : nat)
    (x h c : list R) : list R * list R :=
  let c' := (fun j => sigmoid (gate (H + j)%nat x h) * (c !!! j)
                      + sigmoid (gate j x h) * tanh (gate (2 * H + j)%nat x h))%R
            <$> seq 0 H in
  let h' := (fun j => sigmoid (gate (3 * H + j)%nat x h) * tanh (c' !!! j))%R
            <$> seq 0 H in
  (h', c').

(** The cell run over the timesteps of one example: the hidden rows of all
    steps and the last (hidden, cell). *)
Fixpoint lstm_seq (cell : list R -> list R -> list R -> list R * list R)
    (xs : list (list R)) (h c : list R)
  : list (list R) * (list R * list R) :=
  match xs with
  | [] => ([], (h, c))
  | x :: rest =>
      let '(h', c') := cell x h c in
      let '(outs, last) := lstm_seq cell rest h' c' in
      (h' :: outs, last)
  end.

(** The LSTM run on example [b] of the batch, read in state [st]. *)
Definition LSTM_run (st : state) (rnn : LSTM) (input h c : tensor)
    (L F H : nat) (b : nat) : list (list R) * (list R * list R) :=
  let gate k x hrow :=
    (dot ((fun m => tget st (weight_ih_l0 rnn) [k; m]) <$> seq 0 F) x
     + tget st (bias_ih_l0 rnn) [k]
     + dot ((fun m => tget st (weight_hh_l0 rnn) [k; m]) <$> seq 0 H) hrow
     + tget st (bias_hh_l0 rnn) [k])%R in
  lstm_seq (lstm_cell gate H)
    ((fun t => (fun m => tget st input [b; t; m]) <$> seq 0 F) <$> seq 0 L)
    ((fun j => tget st h [0%nat; b; j]) <$> seq 0 H)
    ((fun j => tget st c [0%nat; b; j]) <$> seq 0 H).

(** [rnn(input, (h, c))] returns [(output, (h', c'))]. *)
Definition LSTM_call (rnn : LSTM) (input h c : tensor)
  : M (tensor * (tensor * tensor)) :=
  match t_shape input, t_shape (weight_ih_l0 rnn), t_shape (weight_hh_l0 rnn) with
  | [B; L; F], [_; n_in], [_; H] =>
      if bool_decide (F = n_in /\ t_shape h = [1%nat; B; H]
                      /\ t_shape c = [1%nat; B; H]
                      /\ Forall (fun t => t_dev t = t_dev input)
                           (h :: c :: concat (all_weights rnn)))
      then
        st ← get_state;
        let run := LSTM_run st rnn input h c L F H in
        output ← alloc (t_dev input) [B; L; H] (b ← seq 0 B; concat (run b).1);
        h' ← alloc (t_dev input) [1%nat; B; H] (b ← seq 0 B; (run b).2.1);
        c' ← alloc (t_dev input) [1%nat; B; H] (b ← seq 0 B; (run b).2.2);
        log (CallLSTM input h c output h' c');;
        mret (output, (h', c'))
      else raise RuntimeError
  | _, _, _ => raise RuntimeError
  end.

(** ** [nn.Dropout] *)

Record Dropout := mkDropout { p : Q }.

(** [nn.Dropout(p)] *)
Definition Dropout_init (p : Q) : M Dropout :=
  if Qle_bool 0 p && Qle_bool p 1 then mret (mkDropout p)
  else raise ValueError.

(** [dropout(x)]: the input itself in evaluation mode, for [p = 0] and for
    empty tensors; otherwise a new tensor, of zeros for [p = 1], for which
    the generator is not asked, and else one in which each element is zeroed
    or scaled by [1/(1-p)], by the generator's next draws. *)
Definition Dropout_data (st : state) (d : Dropout) (x : tensor) : list R :=
  imap (fun k v => if Qeq_bool (p d) 1 then 0%R
                   else if g_keep (gen st) (g_pos (gen st) + k)
                        then (v / (1 - Q2R (p d)))%R else 0%R)
       (elements st x).

Definition Dropout_call (d : Dropout) (training : bool) (x : tensor) : M tensor :=
  y ← (if negb training || Qeq_bool (p d) 0 || (numel (t_shape x) =? 0)%nat
       then mret x
       else
         st ← get_state;
         draw (if Qeq_bool (p d) 1 then 0%nat else numel (t_shape x));;
         alloc (t_dev x) (t_shape x) (Dropout_data st d x));
  log (CallDropout x y);;
  mret y.

(* ===================================================================== *)
(** * The module [cyp.models.rnn] *)
(* ===================================================================== *)

(** ** class RNNet(nn.Module) *)

Record RNNet := mkRNNet {
  add_year_loc : bool;
  dropout      : Dropout;
  rnn          : LSTM;
  hidden_size  : Z;
  dense_layers : list Linear;
  training     : bool         (* nn.Module.training *)
}.

(** What [forward] returns: [x], or the pair [(x, output)]. *)
Inductive forward_result :=
| Output (x : tensor)
| OutputAndFeatures (x output : tensor).

(** [l[i]] *)
Definition list_get (r : nat) (i : nat) : M Z :=
  l ← read_list r;
  match l !! i with
  | Some a => mret a
  | None => raise IndexError
  end.

(** [RNNet.initialize_weights].  [1 / self.hidden_size] divides two Python
    ints: ZeroDivisionError for 0, and otherwise the quotient as a double.
    [math.sqrt] refuses a negative quotient with ValueError; the quotient of
    a negative hidden size is negative unless it underflows to [-0.0], the
    square root of which is [-0.0]. *)
Definition initialize_weights (self : RNNet) : M unit :=
  sqrt_k ← (if hidden_size self =? 0 then raise ZeroDivisionError
            else
              let quotient := int_true_div 1 (hidden_size self) in
              if float_ltb quotient (float_of_int 0) then raise ValueError
              else mret (math_sqrt quotient));
  for_each (all_weights (rnn self))
    (fun parameters _ =>
       for_each parameters
         (fun pam _ => uniform_ pam (float_opp sqrt_k) sqrt_k) tt) tt;;
  for_each (dense_layers self)
    (fun dense_layer _ =>
       kaiming_uniform_ (weight dense_layer) (float_of_int 0);;
       constant_ (bias dense_layer) 0) tt.

(** Lines 73-79 of [RNNet.__init__]: the list of dense feature sizes, the
    caller's own list or a new default one, gets the hidden size prepended
    in place, widened by 3 for the year and the location.  Returns the
    reference the local variable [dense_features] holds. *)
Definition RNNet_init_dense_features (hidden_size : Z)
    (dense_features : option nat) (add_year_loc : bool) : M nat :=
  dense_features ← match dense_features with
                   | None => new_list [256; 1]
                   | Some r => mret r
                   end;
  list_insert0 dense_features hidden_size;;
  (if add_year_loc then list_iadd dense_features 0 3 else mret tt);;
  mret dense_features.

(** [RNNet.__init__]; [num_rnn_layers] is 1, its default and the value
    [RNNModel] passes.  [dense_features] is [None] or a reference to the
    caller's list. *)
Definition RNNet_init (in_channels num_bins hidden_size : Z) (rnn_dropout : Q)
    (dense_features : option nat) (add_year_loc : bool) : M RNNet :=
  dense_features ← RNNet_init_dense_features hidden_size dense_features
                                             add_year_loc;
  dropout ← Dropout_init rnn_dropout;
  rnn ← LSTM_init (in_channels * num_bins) hidden_size;
  n ← list_len dense_features;
  dense_layers ←
    for_each (seq 1 (Z.to_nat n - 1))
      (fun i layers =>
         n_in ← list_get dense_features (i - 1);
         n_out ← list_get dense_features i;
         layer ← Linear_init n_in n_out;
         mret (layers ++ [layer])) [];
  let self := mkRNNet add_year_loc dropout rnn hidden_size dense_layers true in
  initialize_weights self;;
  mret self.

(** The body of the timestep loop of [forward]. *)
Definition forward_step (self : RNNet) (x : tensor) (i : nat)
    (hc : tensor * tensor) : M (tensor * tensor) :=
  let '(hidden_state, cell_state) := hc in
  input_x ← select1 x i;
  input_x ← unsqueeze input_x 1;
  '(_, (hidden_state, cell_state)) ←
     LSTM_call (rnn self) input_x hidden_state cell_state;
  hidden_state ← Dropout_call (dropout self) (training self) hidden_state;
  mret (hidden_state, cell_state).

(** The body of the loop over the dense layers of [forward]; the loop
    carries [x] and [output], which is unassigned until the layer before
    the last one has run. *)
Definition forward_dense (self : RNNet) (return_last_dense : bool)
    (item : nat * Linear) (xo : tensor * option tensor)
  : M (tensor * option tensor) :=
  let '(layer_number, dense_layer) := item in
  let '(x, output) := xo in
  x ← Linear_call dense_layer x;
  if return_last_dense
     && (Z.of_nat layer_number =? Z.of_nat (length (dense_layers self)) - 2)
  then mret (x, Some x)
  else mret (x, output).

(** Lines 115-116 of [forward]: [batch, bands, times, bins] to
    [batch, times, bands * bins]. *)
Definition forward_reshape (x : tensor) : M tensor :=
  x ← permute x [0; 2; 1; 3]%nat;
  x ← contiguous x;
  n0 ← shape_at x 0;
  n1 ← shape_at x 1;
  n2 ← shape_at x 2;
  n3 ← shape_at x 3;
  view x [n0; n1; (n2 * n3)%nat].

(** Lines 120-125 of [forward]: the initial hidden and cell states. *)
Definition forward_states (self : RNNet) (x : tensor) : M (tensor * tensor) :=
  batch ← shape_at x 0;
  hidden_state ← zeros [1; Z.of_nat batch; hidden_size self];
  batch ← shape_at x 0;
  cell_state ← zeros [1; Z.of_nat batch; hidden_size self];
  if is_cuda x
  then hidden_state ← cuda hidden_state;
       cell_state ← cuda cell_state;
       mret (hidden_state, cell_state)
  else mret (hidden_state, cell_state).

(** Lines 139-141 of [forward]: the year and the location appended to the
    features. *)
Definition forward_year_loc (self : RNNet) (x : tensor)
    (years locations : option tensor) : M tensor :=
  if add_year_loc self
  then
    years ← match years with
            | Some years => unsqueeze years 1
            | None => raise AttributeError
            end;
    locations ← match locations with
                | Some locations => mret locations
                | None => raise TypeError
                end;
    year_loc ← cat1 years locations;
    cat1 x year_loc
  else mret x.

(** Lines 143-149 of [forward]: the dense layers and the result. *)
Definition forward_output (self : RNNet) (x : tensor)
    (return_last_dense : bool) : M forward_result :=
  '(x, output) ←
     for_each (imap pair (dense_layers self))
              (forward_dense self return_last_dense) (x, None);
  if return_last_dense
  then match output with
       | Some output => mret (OutputAndFeatures x output)
       | None => raise UnboundLocalError
       end
  else mret (Output x).

(** [RNNet.forward] *)
Definition forward (self : RNNet) (x : tensor)
    (years locations : option tensor) (return_last_dense : bool)
  : M forward_result :=
  x ← forward_reshape x;
  sequence_length ← shape_at x 1;
  '(hidden_state, cell_state) ← forward_states self x;
  '(hidden_state, cell_state) ←
     for_each (range sequence_length) (forward_step self x)
              (hidden_state, cell_state);
  x ← squeeze0 hidden_state;
  x ← forward_year_loc self x years locations;
  forward_output self x return_last_dense.

(** ** class RNNModel(ModelBase) *)

(** The base class [ModelBase] lives in another file of the package; an
    [RNNModel] is represented by what its constructor hands to
    [ModelBase.__init__]: the network, the names of the final dense layer's
    parameters and the model type. *)
Record RNNModel := mkRNNModel {
  model        : RNNet;
  model_weight : string;
  model_bias   : string;
  model_type   : string
}.

(** [RNNModel.__init__] *)
Definition RNNModel_init (in_channels num_bins hidden_size : Z)
    (rnn_dropout : Q) (dense_features : option nat) (add_year_loc : bool)
  : M RNNModel :=
  model ← RNNet_init in_channels num_bins hidden_size rnn_dropout
                     dense_features add_year_loc;
  num_dense_layers ← match dense_features with
                     | None => mret 2
                     | Some r => list_len r
                     end;
  let model_weight :=
    ("dense_layers." ++ str_of_int (num_dense_layers - 1) ++ ".weight")%string in
  let model_bias :=
    ("dense_layers." ++ str_of_int (num_dense_layers - 1) ++ ".bias")%string in
  let model_type := "rnn"%string in
  let model_type := if add_year_loc then (model_type ++ "_year_loc")%string
                    else model_type in
  mret (mkRNNModel model model_weight model_bias model_type).

(** [RNNModel.reinitialize_model(time=None)]: [time] is not used. *)
Definition reinitialize_model (self : RNNModel) (time : option Z) : M unit :=
  initialize_weights (model self).

(** The parameter names under which [nn.Module] registers the tensors of
    [dense_layers], in order. *)
Definition dense_parameter_names (net : RNNet) : list string :=
  i ← seq 0 (length (dense_layers net));
  [("dense_layers." ++ str_of_int (Z.of_nat i) ++ ".weight")%string;
   ("dense_layers." ++ str_of_int (Z.of_nat i) ++ ".bias")%string].

(** An interpreter state with nothing allocated yet. *)
Definition initial_state (g : generator) (cur : nat) : state :=
  State [] [] g cur [].

(* ===================================================================== *)
(** * Specification vocabulary *)
(* ===================================================================== *)

(** [wp m st Q]: run from [st], [m] returns normally, with a value and a
    final state that satisfy [Q]. *)
Definition wp {A} (m : M A) (st : state) (Q : A -> state -> Prop) : Prop :=
  exists a st', m st = (inr a, st') /\ Q a st'.

(** [keeps R m]: whatever [m] does, also when it raises, the state it
    leaves is related by [R] to the state it started from. *)
Definition keeps {A} (R : state -> state -> Prop) (m : M A) : Prop :=
  forall st, R st (m st).2.

(** No storage that exists is removed or modified. *)
Definition storages_kept (st st' : state) : Prop :=
  storages st `prefix_of` storages st'.

(** The tensor looks into a storage that exists. *)
Definition allocated (st : state) (t : tensor) : Prop :=
  (t_loc t < length (storages st))%nat.

(** All parameter tensors of a network, recurrent ones first. *)
Definition parameters (self : RNNet) : list tensor :=
  concat (all_weights (rnn self))
  ++ (l ← dense_layers self; [weight l; bias l]).

(** The scenario of the specification: channels=1, bins=1, hidden_size=2,
    dense_features=[1], a batch of one series of three timesteps, no
    year/location augmentation. *)
Definition scenario (vals : list R) (return_last_dense : bool)
  : M forward_result :=
  dense_features ← new_list [1];
  net ← RNNet_init 1 1 2 (3 # 4) (Some dense_features) false;
  x ← alloc CPU [1; 1; 3; 1]%nat vals;
  forward net x None None return_last_dense.

Definition result_shapes (r : forward_result) : list (list nat) :=
  match r with
  | Output x => [t_shape x]
  | OutputAndFeatures x output => [t_shape x; t_shape output]
  end.

Definition shapes_of (r : (error + forward_result) * state)
  : error + list (list nat) :=
  match r.1 with
  | inl e => inl e
  | inr v => inr (result_shapes v)
  end.

(** Only calls of dense layers. *)
Definition dense_call (e : event) : Prop :=
  match e with CallLinear _ _ _ => True | _ => False end.

(** From [st] to [st'] the trace grew by calls of dense layers only. *)
Definition only_dense_calls (st st' : state) : Prop :=
  exists evs, trace st' = trace st ++ evs /\ Forall dense_call evs.

(** ** Small concrete networks and inputs, used to exercise the theorems *)

(** A contiguous CPU parameter tensor in storage [loc]. *)
Definition cpu_tensor (loc : nat) (shape : list nat) : tensor :=
  Tensor loc 0 shape (contiguous_strides shape) CPU.

(** hidden_size=2 on one input feature, dense layers 2->3->1 (or 5->3->1
    with the year and location appended); storages 0-7. *)
Definition demo_net (add_year_loc : bool) : RNNet :=
  mkRNNet add_year_loc (mkDropout (3 # 4))
    (mkLSTM 1 2 (cpu_tensor 0 [8; 1]%nat) (cpu_tensor 1 [8; 2]%nat)
            (cpu_tensor 2 [8]%nat) (cpu_tensor 3 [8]%nat))
    2
    [mkLinear (if add_year_loc then 5 else 2) 3
       (cpu_tensor 4 [3; if add_year_loc then 5 else 2]%nat)
       (cpu_tensor 5 [3]%nat);
     mkLinear 3 1 (cpu_tensor 6 [1; 3]%nat) (cpu_tensor 7 [1]%nat)]
    true.

(** A batch of one series of three timesteps, one channel, one bin
    (storage 8), the year of the example (storage 9) and its location
    (storage 10). *)
Definition demo_x : tensor := cpu_tensor 8 [1; 1; 3; 1]%nat.
Definition demo_years : tensor := cpu_tensor 9 [1]%nat.
Definition demo_locations : tensor := cpu_tensor 10 [1; 2]%nat.

Definition demo_generator : generator :=
  Generator (fun _ => (1 / 2)%R) (fun n => Nat.even n) 0.

Definition demo_state : state :=
  State []
        (((fun t => replicate (numel (t_shape t)) 0%R)
            <$> parameters (demo_net false))
         ++ [[1; 2; 3]; [2015]; [41; -93]]%R)
        demo_generator 0 [].

(** From [st] to [st'] only new storages were added. *)
Definition only_allocates (st st' : state) : Prop :=
  lists st' = lists st /\ gen st' = gen st
  /\ current_cuda st' = current_cuda st /\ trace st' = trace st
  /\ storages st `prefix_of` storages st'.

(** Where [forward] puts the initial hidden and cell state for input [x]. *)
Definition state_device (st : state) (x : tensor) : device :=
  if is_cuda x then CUDA (current_cuda st) else CPU.

(** The demo input on the second GPU. *)
Definition demo_x_cuda1 : tensor :=
  Tensor 8 0 [1; 1; 3; 1]%nat (contiguous_strides [1; 1; 3; 1]%nat) (CUDA 1).

(** The demo network without augmentation, moved to the second GPU
    ([model.to('cuda:1')]). *)
Definition cuda1_tensor (loc : nat) (shape : list nat) : tensor :=
  Tensor loc 0 shape (contiguous_strides shape) (CUDA 1).

Definition demo_net_cuda1 : RNNet :=
  mkRNNet false (mkDropout (3 # 4))
    (mkLSTM 1 2 (cuda1_tensor 0 [8; 1]%nat) (cuda1_tensor 1 [8; 2]%nat)
            (cuda1_tensor 2 [8]%nat) (cuda1_tensor 3 [8]%nat))
    2
    [mkLinear 2 3 (cuda1_tensor 4 [3; 2]%nat) (cuda1_tensor 5 [3]%nat);
     mkLinear 3 1 (cuda1_tensor 6 [1; 3]%nat) (cuda1_tensor 7 [1]%nat)]
    true.

(** ** Well-formed networks and inputs *)

(** The recurrent cell takes [F] input features, has [H] hidden units and
    lives on device [d]. *)
Definition rnn_ok (self : RNNet) (d : device) (F H : nat) : Prop :=
  hidden_size self = Z.of_nat H
  /\ (exists n, t_shape (weight_ih_l0 (rnn self)) = [n; F])
  /\ (exists n, t_shape (weight_hh_l0 (rnn self)) = [n; H])
  /\ Forall (fun t => t_dev t = d) (concat (all_weights (rnn self))).

(** The dense layers, on device [d], take [n_in] features and have the
    output widths [widths], each layer feeding the next. *)
Fixpoint dense_ok (d : device) (n_in : nat) (layers : list Linear)
    (widths : list nat) : Prop :=
  match layers, widths with
  | [], [] => True
  | l :: layers, w :: widths =>
      in_features l = Z.of_nat n_in /\ out_features l = Z.of_nat w
      /\ t_shape (weight l) = [w; n_in]
      /\ t_dev (weight l) = d /\ t_dev (bias l) = d
      /\ dense_ok d w layers widths
  | _, _ => False
  end.

(** The width of what [forward] feeds to the dense layers. *)
Definition dense_input_width (self : RNNet) (H : nat) : nat :=
  if add_year_loc self then (H + 3)%nat else H.

Definition net_ok (self : RNNet) (d : device) (F H : nat) (widths : list nat)
  : Prop :=
  rnn_ok self d F H
  /\ dense_ok d (dense_input_width self H) (dense_layers self) widths.

(** The input is a batch [batch, channels, time, bins] on device [d], which
    is the CPU or the current CUDA device, with [channels * bins = F]. *)
Definition input_ok (st : state) (x : tensor) (d : device) (B T F : nat)
  : Prop :=
  (exists C W, t_shape x = [B; C; T; W] /\ (C * W)%nat = F)
  /\ t_dev x = d /\ (d = CPU \/ d = CUDA (current_cuda st)).

(** When the network appends the year and the location, both are given,
    as tensors of shape [batch] and [batch, 2] on device [d]. *)
Definition year_loc_ok (st : state) (self : RNNet) (d : device) (B : nat)
    (years locations : option tensor) : Prop :=
  add_year_loc self = true ->
  exists y l, years = Some y /\ locations = Some l
              /\ t_shape y = [B] /\ t_shape l = [B; 2%nat]
              /\ length (t_stride y) = 1%nat
              /\ t_dev y = d /\ t_dev l = d
              /\ allocated st y /\ allocated st l.

(** ** The traces [forward] is expected to leave *)

(** [slice] is timestep [i] of [x], as a sequence of length one. *)
Definition timestep (x : tensor) (i : nat) (slice : tensor) : Prop :=
  t_loc slice = t_loc x /\ t_dev slice = t_dev x
  /\ exists B T F,
       t_shape x = [B; T; F] /\ (i < T)%nat /\ t_shape slice = [B; 1%nat; F]
       /\ forall b m, offset_of slice [b; 0%nat; m] = offset_of x [b; i; m].

(** [unrolled x i n h c evs h' c']: [evs] is the trace of [n] steps of the
    recurrence over [x] starting at timestep [i] from the states [(h, c)]
    and ending in [(h', c')].  In each step the cell is called on the slice
    of the timestep with the current states, dropout is called on the hidden
    state the cell returned, which is another tensor than the cell state it
    returned, and the next step continues with the result of dropout and the
    cell state the cell returned. *)
Inductive unrolled (x : tensor)
  : nat -> nat -> tensor -> tensor -> list event -> tensor -> tensor -> Prop :=
| unrolled_done i h c : unrolled x i 0 h c [] h c
| unrolled_step i n h c slice out h1 c1 h2 evs h' c' :
    timestep x i slice ->
    t_loc h1 <> t_loc c1 ->
    unrolled x (S i) n h2 c1 evs h' c' ->
    unrolled x i (S n) h c
             (CallLSTM slice h c out h1 c1 :: CallDropout h1 h2 :: evs) h' c'.

(** [dense_run layers x evs ys]: [evs] is the trace of the dense layers
    called in order, the first on [x] and each next one on the output of
    the one before; [ys] are their outputs. *)
Inductive dense_run : list Linear -> tensor -> list event -> list tensor -> Prop :=
| dense_run_nil x : dense_run [] x [] []
| dense_run_cons l layers x y evs ys :
    dense_run layers y evs ys ->
    dense_run (l :: layers) x (CallLinear (weight l) x y :: evs) (y :: ys).

(** Row [b] of a matrix [t] with [w] columns. *)
Definition row (st : state) (t : tensor) (w b : nat) : list R :=
  (fun j => tget st t [b; j]) <$> seq 0 w.

(** What the local variable [output] of [forward] holds after [k] of the
    [n] dense layers have run, [ys] being their outputs: the output of layer
    [n - 2] once it has run, and nothing (the variable is unassigned)
    before, without [return_last_dense], or when there is no such layer. *)
Definition captured (return_last_dense : bool) (n k : nat) (ys : list tensor)
  : option tensor :=
  if return_last_dense && (2 <=? n)%nat && (n - 2 <? k)%nat
  then ys !! (n - 2)%nat else None.

(** What [forward] returns or raises at its end, [x] being the output of
    the last dense layer and [output] the captured features, if any. *)
Definition forward_outcome (return_last_dense : bool) (x : tensor)
    (output : option tensor) : error + forward_result :=
  if return_last_dense
  then match output with
       | Some output => inr (OutputAndFeatures x output)
       | None => inl UnboundLocalError
       end
  else inr (Output x).

(** The complete account of one call of [forward] on a well-formed network
    and input, from state [st] with result [r]: the reshaped input [x'], the
    initial states [h0], [c0], the trace [evs_r] of the recurrence and its
    final states [hT], [cT], the features [feat], the input [a] of the dense
    layers, their trace [evs_d] and outputs [ys]. *)
Record forward_account (self : RNNet) (x : tensor)
    (years locations : option tensor) (return_last_dense : bool)
    (st : state) (d : device) (B T F H : nat) (widths : list nat)
    (r : (error + forward_result) * state)
    (x' h0 c0 hT cT feat a : tensor) (evs_r evs_d : list event)
    (ys : list tensor) : Prop := {
  acc_reshape : exists st1, forward_reshape x st = (inr x', st1)
                            /\ exists st2, forward_states self x' st1
                                           = (inr (h0, c0), st2);
  acc_shape : t_shape x' = [B; T; F];
  acc_states : t_shape h0 = [1%nat; B; H] /\ t_shape c0 = [1%nat; B; H]
               /\ t_dev h0 = d /\ t_dev c0 = d;
  acc_unrolled : unrolled x' 0 T h0 c0 evs_r hT cT;
  acc_feat : squeeze0 hT r.2 = (inr feat, r.2) /\ t_shape feat = [B; H];
  acc_input : t_shape a = [B; dense_input_width self H];
  acc_plain : add_year_loc self = false -> a = feat;
  acc_rows : forall y l b,
      add_year_loc self = true ->
      years = Some y -> locations = Some l -> (b < B)%nat ->
      row r.2 a (H + 3) b = row r.2 feat H b ++ [tget r.2 y [b]] ++ row r.2 l 2 b;
  acc_dense : dense_run (dense_layers self) a evs_d ys;
  acc_widths : Forall2 (fun y w => t_shape y = [B; w] /\ t_dev y = d) ys widths;
  acc_trace : trace r.2 = trace st ++ evs_r ++ evs_d;
  acc_kept : storages_kept st r.2 /\ lists r.2 = lists st;
  acc_result : r.1 = forward_outcome return_last_dense (default a (last ys))
                       (captured return_last_dense
                                 (length (dense_layers self))
                                 (length (dense_layers self)) ys)
}.

(** ** Initialisation *)

(** Every draw of the generator, read as a real, is in the unit interval. *)
Definition unit_draws (st : state) : Prop :=
  forall n, (0 <= g_unif (gen st) n <= 1)%R.

(** Every element of [t] satisfies [P]. *)
Definition filled (P : R -> Prop) (st : state) (t : tensor) : Prop :=
  Forall P (elements st t).

(** From [st] to [st'] only the storages [locs] were written; the lists and
    the outcomes of the generator are the same. *)
Definition same_except (locs : list nat) (st st' : state) : Prop :=
  g_unif (gen st') = g_unif (gen st) /\ lists st' = lists st
  /\ forall loc, loc ∉ locs -> storages st' !! loc = storages st !! loc.

(** The parameters are separate tensors and the dense weights are
    matrices. *)
Definition wf_parameters (self : RNNet) : Prop :=
  NoDup (t_loc <$> parameters self)
  /\ Forall (fun l => exists o i, t_shape (weight l) = [o; i])
            (dense_layers self).

(** [v] lies in [[-k, k]]. *)
Definition within (k v : R) : Prop := (- k <= v <= k)%R.

(** A floating-point number that is not below zero. *)
Definition not_negative (x : float) : Prop :=
  match x with
  | SpecFloat.S754_finite true _ _ => False
  | _ => True
  end.

(** The bound [sqrt_k] of [initialize_weights], as the tensors receive it:
    the double [math.sqrt(1 / hidden_size)] converted to single
    precision. *)
Definition recurrent_bound (hidden_size : Z) : R :=
  single_R (math_sqrt (int_true_div 1 hidden_size)).

(** From [st] to [st'] the Python lists and the outcomes of the generator
    are the same, and no storage was dropped (tensors may have been
    allocated and written). *)
Definition quiet (st st' : state) : Prop :=
  g_unif (gen st') = g_unif (gen st) /\ lists st' = lists st
  /\ (length (storages st) <= length (storages st'))%nat.

(** The storages [locs] exist and are different from each other. *)
Definition owned (st : state) (locs : list nat) : Prop :=
  NoDup locs /\ Forall (fun loc => (loc < length (storages st))%nat) locs.

(** The hyperparameters [RNNet.__init__] accepts: positive hidden size,
    non-negative sizes, a dropout probability in [[0, 1]]. *)
Definition hyperparameters_ok (in_channels num_bins hidden_size : Z)
    (rnn_dropout : Q) (dense : list Z) : Prop :=
  0 < hidden_size /\ 0 <= in_channels * num_bins
  /\ Qle_bool 0 rnn_dropout = true /\ Qle_bool rnn_dropout 1 = true
  /\ Forall (fun w => 0 <= w) dense.

(** The list [dense_features] refers to: the caller's list, or the default
    [[256, 1]] the constructor creates. *)
Definition dense_features_are (st : state) (dense_features : option nat)
    (dense : list Z) : Prop :=
  match dense_features with
  | Some r => lists st !! r = Some dense
  | None => dense = [256; 1]
  end.

(** The demo network as an [RNNModel]. *)
Definition demo_model : RNNModel :=
  mkRNNModel (demo_net false) "dense_layers.1.weight" "dense_layers.1.bias"
             "rnn".

(** The demo model with parameters that hold other numbers than zeros, and
    a generator that draws the two ends of its range in turn. *)
Definition demo_trained_state : state :=
  State []
        (((fun t => replicate (numel (t_shape t)) 7%R)
            <$> parameters (demo_net false))
         ++ [[1; 2; 3]; [2015]; [41; -93]]%R)
        (Generator (fun n => if Nat.even n then 1%R else 0%R)
                   (fun n => Nat.even n) 0)
        0 [].



(** A caller-provided list [[256, 1]] and small hyperparameters:
    [dense_features = [256, 1]; RNNModel(1, 1, 2, 0.75, dense_features)]. *)
Definition caller_list_model : M RNNModel :=
  dense_features ← new_list [256; 1];
  RNNModel_init 1 1 2 (3 # 4) (Some dense_features) false.

(** The same hyperparameters with [dense_features=None]. *)
Definition default_list_model : M RNNModel :=
  RNNModel_init 1 1 2 (3 # 4) None false.

(** What [ModelBase] finds when it looks the final layer up by name: the
    names handed to it, and the names the network really has. *)
Definition names_of (r : (error + RNNModel) * state)
  : error + (string * string * list string) :=
  match r.1 with
  | inl e => inl e
  | inr m => inr (model_weight m, model_bias m, dense_parameter_names (model m))
  end.

(** The state in which the demo networks are built from a caller's list
    [[3, 1]]. *)
Definition demo_start : state := State [[3; 1]] [] demo_generator 0 [].

(** The same with a generator that draws the two ends of its range in
    turn. *)
Definition demo_drawing_start : state :=
  State [[3; 1]] []
        (Generator (fun n => if Nat.even n then 1%R else 0%R)
                   (fun n => Nat.even n) 0)
        0 [].

(** ** Construction, edge cases and values *)

(** What lines 75 and 79 of [RNNet.__init__] leave in the list of dense
    feature sizes [dense]. *)
Definition prepended (hidden_size : Z) (add_year_loc : bool) (dense : list Z)
  : list Z :=
  (if add_year_loc then hidden_size + 3 else hidden_size) :: dense.

(** The Python lists after the list [dense_features] refers to (the
    caller's own, or a new one) has become [l]. *)
Definition lists_after (st : state) (dense_features : option nat) (l : list Z)
  : list (list Z) :=
  match dense_features with
  | Some r => <[r := l]> (lists st)
  | None => lists st ++ [l]
  end.

(** From [st] to [st'] no Python list changed, no sub-module was called and
    the generator has the same outcomes: only tensors were allocated or
    written, and draws made. *)
Definition silent (st st' : state) : Prop :=
  lists st' = lists st /\ g_unif (gen st') = g_unif (gen st)
  /\ current_cuda st' = current_cuda st /\ trace st' = trace st.

(** [torch.nn.init._calculate_fan_in_and_fan_out], the fan-in. *)
Definition fan_in (t : tensor) : nat :=
  match t_shape t with
  | _ :: fan :: receptive => (fan * numel receptive)%nat
  | _ => 0%nat
  end.

(** The bound of [kaiming_uniform_] with its default arguments, as the
    tensor receives it: the double
    [math.sqrt(3.0) * (math.sqrt(2.0) / math.sqrt(fan_in))] converted to
    single precision. *)
Definition kaiming_bound (t : tensor) : R :=
  single_R
    (float_mul (math_sqrt (float_of_int 3))
       (float_div (math_sqrt (float_of_int 2))
                  (math_sqrt (float_of_int (Z.of_nat (fan_in t)))))).

(** From [st] to [st'] only the storages [locs] were rewritten, in place:
    no storage was added, no list changed, no sub-module called. *)
Definition rewrites (locs : list nat) (st st' : state) : Prop :=
  same_except locs st st'
  /\ length (storages st') = length (storages st)
  /\ current_cuda st' = current_cuda st /\ trace st' = trace st.

(** What [RNNet.__init__] has done when it returns [self] in state [st']
    from state [st], [dense] being the entries of the list of dense feature
    sizes before the call. *)
Record built (in_channels num_bins hidden : Z) (rnn_dropout : Q)
    (dense_features : option nat) (add : bool) (dense : list Z)
    (st : state) (self : RNNet) (st' : state) : Prop := {
  built_lists :
    lists st' = lists_after st dense_features (prepended hidden add dense);
  built_silent :
    current_cuda st' = current_cuda st /\ trace st' = trace st
    /\ g_unif (gen st') = g_unif (gen st);
  built_fields :
    add_year_loc self = add /\ dropout self = mkDropout rnn_dropout
    /\ hidden_size self = hidden /\ training self = true
    /\ input_size (rnn self) = in_channels * num_bins
    /\ lstm_hidden_size (rnn self) = hidden;
  built_net :
    net_ok self CPU (Z.to_nat (in_channels * num_bins)) (Z.to_nat hidden)
           (Z.to_nat <$> dense);
  built_layers : length (dense_layers self) = length dense;
  built_wf : wf_parameters self;
  built_ranges :
    unit_draws st ->
    Forall (filled (within (recurrent_bound hidden)) st')
           (concat (all_weights (rnn self)))
    /\ Forall (fun l =>
                 filled (within (kaiming_bound (weight l))) st' (weight l)
                 /\ filled (fun v => v = 0%R) st' (bias l))
              (dense_layers self)
}.

(** The account of a call of [forward] up to the end of the timestep loop:
    the reshaped input [x'] (in state [st1]), the initial states [h0], [c0]
    (in state [st2]), the final states [hT], [cT] and the trace [evs] of the
    recurrence (in state [st3]), and the features [feat] left for the rest
    of [forward]. *)
Record recurrence_account (self : RNNet) (x : tensor) (st : state)
    (d : device) (B T F H : nat)
    (x' : tensor) (st1 : state) (h0 c0 : tensor) (st2 : state)
    (hT cT : tensor) (evs : list event) (st3 : state) (feat : tensor)
  : Prop := {
  rec_reshape : forward_reshape x st = (inr x', st1);
  rec_states : forward_states self x' st1 = (inr (h0, c0), st2);
  rec_loop : for_each (range T) (forward_step self x') (h0, c0) st2
             = (inr (hT, cT), st3);
  rec_squeeze : squeeze0 hT st3 = (inr feat, st3);
  rec_x' : t_shape x' = [B; T; F]
           /\ t_stride x' = contiguous_strides [B; T; F] /\ t_dev x' = d;
  rec_h0 : t_shape h0 = [1%nat; B; H] /\ t_shape c0 = [1%nat; B; H]
           /\ t_dev h0 = d /\ t_dev c0 = d
           /\ allocated st2 h0 /\ allocated st2 c0
           /\ elements st2 h0 = replicate (numel [1%nat; B; H]) 0%R
           /\ elements st2 c0 = replicate (numel [1%nat; B; H]) 0%R;
  rec_hT : t_shape hT = [1%nat; B; H] /\ t_dev hT = d /\ allocated st3 hT;
  rec_feat : t_shape feat = [B; H] /\ t_dev feat = d /\ allocated st3 feat;
  rec_unrolled : unrolled x' 0 T h0 c0 evs hT cT;
  rec_trace : trace st3 = trace st ++ evs;
  rec_silent : lists st3 = lists st /\ current_cuda st3 = current_cuda st;
  rec_kept : only_allocates st st1 /\ only_allocates st1 st2
             /\ storages_kept st2 st3
}.

(** The demo network without its dense layers. *)
Definition demo_bare_net : RNNet :=
  mkRNNet false (mkDropout (3 # 4)) (rnn (demo_net false)) 2 [] true.

(** The demo network in evaluation mode ([net.eval()]). *)
Definition demo_eval_net : RNNet :=
  mkRNNet false (mkDropout (3 # 4)) (rnn (demo_net false)) 2
          (dense_layers (demo_net false)) false.

(** A batch of one series without timesteps, one channel, one bin, over
    storage 8. *)
Definition demo_x_empty : tensor := cpu_tensor 8 [1; 1; 0; 1]%nat.

(** Dropout was idle from [st] to [st']: the generator was not used, and
    every call of dropout returned its argument. *)
Definition dropout_idle (st st' : state) : Prop :=
  gen st' = gen st
  /\ exists evs,
       trace st' = trace st ++ evs
       /\ Forall (fun e => match e with
                           | CallDropout input output => output = input
                           | _ => True
                           end) evs.

(** What requesting the features changes in a call of [forward]: [r1] is
    the outcome with [return_last_dense=True], [r0] the outcome without. *)
Definition only_adds_features (r1 r0 : (error + forward_result) * state)
  : Prop :=
  r1.2 = r0.2
  /\ match r0.1 with
     | inl e => r1.1 = inl e
     | inr (Output y) =>
         r1.1 = inl UnboundLocalError
         \/ exists output, r1.1 = inr (OutputAndFeatures y output)
     | inr (OutputAndFeatures _ _) => False
     end.

(** The position of index [idx] in the row-major enumeration of a shape. *)
Definition flat_index (shape idx : list nat) : nat :=
  foldr Nat.add 0%nat (zip_with Nat.mul idx (contiguous_strides shape)).

(** Row [b] of a hidden or cell state [h], a tensor [1, batch, H]. *)
Definition state_row (st : state) (h : tensor) (H b : nat) : list R :=
  (fun j => tget st h [0%nat; b; j]) <$> seq 0 H.

(** Row [k] of the four gates of the cell before the nonlinearity, for the
    input row [x] and the hidden row [h], with the parameters as they are in
    state [st]. *)
Definition lstm_gate (st : state) (rnn : LSTM) (F H : nat) (k : nat)
    (x hrow : list R) : R :=
  (dot ((fun m => tget st (weight_ih_l0 rnn) [k; m]) <$> seq 0 F) x
   + tget st (bias_ih_l0 rnn) [k]
   + dot ((fun m => tget st (weight_hh_l0 rnn) [k; m]) <$> seq 0 H) hrow
   + tget st (bias_hh_l0 rnn) [k])%R.

(** What a dense layer computes on one row: [xrow @ weight.T + bias], with
    the parameters as they are in state [st]. *)
Definition Linear_row (st : state) (layer : Linear) (xrow : list R) : list R :=
  match t_shape (weight layer) with
  | [n_out; n_in] =>
      (fun o => dot xrow (row st (weight layer) n_in o)
                + tget st (bias layer) [o])%R <$> seq 0 n_out
  | _ => []
  end.

(** The dense layers applied one after the other to one row. *)
Definition dense_rows (st : state) (layers : list Linear) (xrow : list R)
  : list R :=
  foldl (fun r layer => Linear_row st layer r) xrow layers.

(** Timestep [t] of example [b] of an input [batch, channels, time, bins]
    as the recurrent cell gets it: the bins of the first channel, then those
    of the second, and so on. *)
Definition input_row (st : state) (x : tensor) (C W b t : nat) : list R :=
  c ← seq 0 C; (fun w => tget st x [b; c; t; w]) <$> seq 0 W.

(** The last hidden row of the LSTM run from zero states over the [T]
    timesteps of example [b] of the input [x], with the parameters as they
    are in state [st]. *)
Definition hidden_row (st : state) (self : RNNet) (x : tensor)
    (C T W H b : nat) : list R :=
  (lstm_seq (lstm_cell (lstm_gate st (rnn self) (C * W) H) H)
            (input_row st x C W b <$> seq 0 T)
            (replicate H 0%R) (replicate H 0%R)).2.1.

(** What the network computes for example [b] of the input [x], with
    dropout idle and without augmentation: the dense layers on the last
    hidden row. *)
Definition prediction (st : state) (self : RNNet) (x : tensor)
    (C T W H b : nat) : list R :=
  dense_rows st (dense_layers self) (hidden_row st self x C T W H b).

(** The current CUDA device is the same in [st] and [st']. *)
Definition device_kept (st st' : state) : Prop :=
  current_cuda st' = current_cuda st.

(** The demo input on the first GPU. *)
Definition demo_x_cuda0 : tensor :=
  Tensor 8 0 [1; 1; 3; 1]%nat (contiguous_strides [1; 1; 3; 1]%nat) (CUDA 0).

(** The outcome is an exception. *)
Definition raises {A} (r : (error + A) * state) : Prop :=
  exists e, r.1 = inl e.

(* ===================================================================== *)
(** * Reasoning rules for the monad *)
(* ===================================================================== *)

Section rules.
Context {A B : Type}.
Implicit Types (st : state).

Lemma wp_ret (a : A) st (Q : A -> state -> Prop) :
  Q a st -> wp (mret a) st Q.
Proof. intros HQ. exists a, st. split; [reflexivity|exact HQ]. Qed.

Lemma wp_bind (m : M A) (f : A -> M B) st (Q : B -> state -> Prop) :
  wp m st (fun a st' => wp (f a) st' Q) -> wp (m ≫= f) st Q.
Proof.
  intros (a & st' & Hm & b & st'' & Hf & HQ).
  exists b, st''. split; [|exact HQ].
  unfold mbind, M_bind. rewrite Hm. exact Hf.
Qed.

Lemma wp_mono (m : M A) st (Q Q' : A -> state -> Prop) :
  wp m st Q -> (forall a st', Q a st' -> Q' a st') -> wp m st Q'.
Proof. intros (a & st' & Hm & HQ) HQQ. exists a, st'. auto. Qed.

Lemma wp_run (m : M A) st (Q : A -> state -> Prop) a st' :
  m st = (inr a, st') -> Q a st' -> wp m st Q.
Proof. intros Hm HQ. exists a, st'. auto. Qed.

Lemma keeps_bind R `{!Transitive R} (m : M A) (f : A -> M B) :
  keeps R m -> (forall a, keeps R (f a)) -> keeps R (m ≫= f).
Proof.
  intros Hm Hf st. unfold mbind, M_bind.
  specialize (Hm st). destruct (m st) as [[e|a] st1]; simpl in *.
  - exact Hm.
  - etrans; [exact Hm|apply Hf].
Qed.

Lemma keeps_ret R `{!Reflexive R} (a : A) : keeps R (mret a : M A).
Proof. intros st. simpl. reflexivity. Qed.

Lemma keeps_raise R `{!Reflexive R} (e : error) : keeps R (raise e : M A).
Proof. intros st. simpl. reflexivity. Qed.
End rules.

Lemma wp_for_each {I S} (Inv : list I -> S -> state -> Prop)
    (items : list I) (body : I -> S -> M S) (s : S) (st : state)
    (Q : S -> state -> Prop) :
  Inv [] s st ->
  (forall done i rest s st,
      items = done ++ i :: rest -> Inv done s st ->
      wp (body i s) st (fun s' st' => Inv (done ++ [i]) s' st')) ->
  (forall s st, Inv items s st -> Q s st) ->
  wp (for_each items body s) st Q.
Proof.
  intros Hinit Hstep Hend.
  enough (forall rest done s st,
             items = done ++ rest -> Inv done s st ->
             wp (for_each rest body s) st Q) as H
    by (apply (H items [] s st); [reflexivity|exact Hinit]).
  induction rest as [|i rest IH]; intros done s0 st0 Heq HI; simpl.
  - apply wp_ret, Hend. rewrite Heq, app_nil_r. exact HI.
  - apply wp_bind. eapply wp_mono; [eapply Hstep; eauto|].
    intros s' st' HI'. simpl in HI'. apply (IH (done ++ [i])); [|exact HI'].
    rewrite Heq, <- app_assoc. reflexivity.
Qed.

Lemma keeps_for_each {I S} R `{!PreOrder R} (items : list I)
    (body : I -> S -> M S) (s : S) :
  (forall i s, keeps R (body i s)) -> keeps R (for_each items body s).
Proof.
  intros Hbody. revert s.
  induction items as [|i rest IH]; intros s; simpl.
  - apply keeps_ret; apply _.
  - apply keeps_bind; [apply _|apply Hbody|intros s'; apply IH].
Qed.

#[global] Instance storages_kept_preorder : PreOrder storages_kept.
Proof.
  split.
  - intros st. unfold storages_kept. reflexivity.
  - intros a b c Hab Hbc. unfold storages_kept in *. etrans; eauto.
Qed.

(* ===================================================================== *)
(** * Rules for the run-time primitives *)
(* ===================================================================== *)

Section primitives.
Implicit Types (st : state) (t x : tensor).

Lemma wp_get_state st (Q : state -> state -> Prop) :
  Q st st -> wp get_state st Q.
Proof. apply wp_run. reflexivity. Qed.

Lemma wp_log e st (Q : unit -> state -> Prop) :
  Q tt (with_event st e) -> wp (log e) st Q.
Proof. apply wp_run. reflexivity. Qed.

Lemma wp_alloc dev shape data st (Q : tensor -> state -> Prop) :
  Q (Tensor (length (storages st)) 0 shape (contiguous_strides shape) dev)
    (with_storages st (storages st ++ [data])) ->
  wp (alloc dev shape data) st Q.
Proof. apply wp_run. reflexivity. Qed.

Lemma forallb_nonneg (dims : list Z) :
  Forall (fun d => 0 <= d) dims -> forallb (fun d => 0 <=? d) dims = true.
Proof.
  induction 1 as [|d dims Hd _ IH]; simpl; [reflexivity|].
  rewrite IH, andb_true_r. apply Z.leb_le, Hd.
Qed.

Lemma wp_sizes dims st (Q : list nat -> state -> Prop) :
  Forall (fun d => 0 <= d) dims ->
  Q (Z.to_nat <$> dims) st -> wp (sizes dims) st Q.
Proof.
  intros Hd. apply wp_run. unfold sizes.
  rewrite (forallb_nonneg _ Hd). reflexivity.
Qed.

Lemma wp_zeros dims st (Q : tensor -> state -> Prop) :
  Forall (fun d => 0 <= d) dims ->
  (let shape := Z.to_nat <$> dims in
   Q (Tensor (length (storages st)) 0 shape (contiguous_strides shape) CPU)
     (with_storages st (storages st ++ [replicate (numel shape) 0%R]))) ->
  wp (zeros dims) st Q.
Proof.
  intros Hd HQ. unfold zeros. apply wp_bind, wp_sizes; [exact Hd|].
  apply wp_alloc, HQ.
Qed.

Lemma wp_shape_at t i n st (Q : nat -> state -> Prop) :
  t_shape t !! i = Some n -> Q n st -> wp (shape_at t i) st Q.
Proof. intros Hi. apply wp_run. unfold shape_at. rewrite Hi. reflexivity. Qed.

Lemma wp_permute_0213 t a b c d st (Q : tensor -> state -> Prop) :
  t_shape t = [a; b; c; d] ->
  Q (Tensor (t_loc t) (t_off t) [a; c; b; d]
            ((fun d => t_stride t !!! d) <$> [0; 2; 1; 3]%nat) (t_dev t)) st ->
  wp (permute t [0; 2; 1; 3]%nat) st Q.
Proof.
  intros Hs. apply wp_run. unfold permute. rewrite Hs.
  rewrite bool_decide_eq_true_2; [reflexivity|].
  split; [reflexivity|]. split.
  - apply (bool_decide_unpack _). vm_compute. exact I.
  - simpl. repeat constructor.
Qed.

Lemma wp_contiguous t st (Q : tensor -> state -> Prop) :
  (is_contiguous t = true -> Q t st) ->
  (is_contiguous t = false ->
   Q (Tensor (length (storages st)) 0 (t_shape t)
             (contiguous_strides (t_shape t)) (t_dev t))
     (with_storages st (storages st ++ [elements st t]))) ->
  wp (contiguous t) st Q.
Proof.
  intros Hyes Hno. unfold contiguous.
  destruct (is_contiguous t) eqn:Hc.
  - apply wp_ret, Hyes. reflexivity.
  - apply wp_bind, wp_get_state, wp_alloc, Hno. reflexivity.
Qed.

Lemma wp_view t shape st (Q : tensor -> state -> Prop) :
  is_contiguous t = true -> numel shape = numel (t_shape t) ->
  Q (Tensor (t_loc t) (t_off t) shape (contiguous_strides shape) (t_dev t)) st ->
  wp (view t shape) st Q.
Proof.
  intros Hc Hn. apply wp_run. unfold view.
  rewrite Hc, Hn, Nat.eqb_refl. reflexivity.
Qed.

Lemma wp_select1 t i n0 n1 n2 s0 s1 s2 st (Q : tensor -> state -> Prop) :
  t_shape t = [n0; n1; n2] -> t_stride t = [s0; s1; s2] -> (i < n1)%nat ->
  Q (Tensor (t_loc t) (t_off t + i * s1) [n0; n2] [s0; s2] (t_dev t)) st ->
  wp (select1 t i) st Q.
Proof.
  intros Hs Hst Hi. apply wp_run. unfold select1. rewrite Hs, Hst.
  apply Nat.ltb_lt in Hi. rewrite Hi. reflexivity.
Qed.

Lemma wp_unsqueeze t d st (Q : tensor -> state -> Prop) :
  (d <= length (t_shape t))%nat ->
  Q (Tensor (t_loc t) (t_off t)
       (take d (t_shape t) ++ 1%nat :: drop d (t_shape t))
       (take d (t_stride t)
          ++ match t_shape t !! d, t_stride t !! d with
             | Some n, Some s => (n * s)%nat
             | _, _ => 1%nat
             end :: drop d (t_stride t))
       (t_dev t)) st ->
  wp (unsqueeze t d) st Q.
Proof.
  intros Hd. apply wp_run. unfold unsqueeze.
  apply Nat.leb_le in Hd. rewrite Hd. reflexivity.
Qed.

Lemma wp_squeeze0 t rest st (Q : tensor -> state -> Prop) :
  t_shape t = 1%nat :: rest ->
  Q (Tensor (t_loc t) (t_off t) rest (tail (t_stride t)) (t_dev t)) st ->
  wp (squeeze0 t) st Q.
Proof. intros Hs. apply wp_run. unfold squeeze0. rewrite Hs. reflexivity. Qed.

Lemma wp_cuda t st (Q : tensor -> state -> Prop) :
  (t_dev t = CUDA (current_cuda st) -> Q t st) ->
  (t_dev t <> CUDA (current_cuda st) ->
   Q (Tensor (length (storages st)) 0 (t_shape t)
             (contiguous_strides (t_shape t)) (CUDA (current_cuda st)))
     (with_storages st (storages st ++ [elements st t]))) ->
  wp (cuda t) st Q.
Proof.
  intros Hyes Hno. unfold cuda. apply wp_bind, wp_get_state.
  destruct (decide (t_dev t = CUDA (current_cuda st))) as [Hd|Hd].
  - rewrite bool_decide_eq_true_2 by exact Hd. apply wp_ret, Hyes, Hd.
  - rewrite bool_decide_eq_false_2 by exact Hd. apply wp_alloc, Hno, Hd.
Qed.

(** The elements of [torch.cat((a, b), dim=1)]. *)
Lemma wp_cat1 a b n wa wb ra st (Q : tensor -> state -> Prop) :
  t_shape a = n :: wa :: ra -> t_shape b = n :: wb :: ra ->
  t_dev a = t_dev b ->
  Q (Tensor (length (storages st)) 0 (n :: (wa + wb)%nat :: ra)
            (contiguous_strides (n :: (wa + wb)%nat :: ra)) (t_dev a))
    (with_storages st
       (storages st
        ++ [i ← seq 0 n;
            ((fun idx => tget st a (i :: idx)) <$> indices (wa :: ra))
            ++ ((fun idx => tget st b (i :: idx)) <$> indices (wb :: ra))])) ->
  wp (cat1 a b) st Q.
Proof.
  intros Ha Hb Hd HQ. unfold cat1. rewrite Ha, Hb.
  rewrite bool_decide_eq_true_2 by auto.
  apply wp_bind, wp_get_state, wp_alloc, HQ.
Qed.

Lemma wp_Linear_call layer x n_out n_in lead st (Q : tensor -> state -> Prop) :
  t_shape (weight layer) = [n_out; n_in] ->
  t_shape x = lead ++ [n_in] ->
  t_dev x = t_dev (weight layer) -> t_dev x = t_dev (bias layer) ->
  (let y := Tensor (length (storages st)) 0 (lead ++ [n_out])
                   (contiguous_strides (lead ++ [n_out])) (t_dev x) in
   Q y (with_event
          (with_storages st
             (storages st ++ [Linear_data st layer x lead n_in n_out]))
          (CallLinear (weight layer) x y))) ->
  wp (Linear_call layer x) st Q.
Proof.
  intros Hw Hx Hd1 Hd2 HQ. unfold Linear_call.
  rewrite Hw, Hx, reverse_app. simpl.
  rewrite bool_decide_eq_true_2 by auto. rewrite reverse_involutive.
  apply wp_bind, wp_get_state, wp_bind, wp_alloc, wp_bind, wp_log, wp_ret.
  exact HQ.
Qed.

Lemma wp_LSTM_call rnn x h c B L F H n4 n4' st
    (Q : tensor * (tensor * tensor) -> state -> Prop) :
  t_shape x = [B; L; F] ->
  t_shape (weight_ih_l0 rnn) = [n4; F] ->
  t_shape (weight_hh_l0 rnn) = [n4'; H] ->
  t_shape h = [1%nat; B; H] -> t_shape c = [1%nat; B; H] ->
  Forall (fun t => t_dev t = t_dev x) (h :: c :: concat (all_weights rnn)) ->
  (let run := LSTM_run st rnn x h c L F H in
   let n := length (storages st) in
   let output := Tensor n 0 [B; L; H] (contiguous_strides [B; L; H]) (t_dev x) in
   let h' := Tensor (n + 1) 0 [1%nat; B; H]
                    (contiguous_strides [1%nat; B; H]) (t_dev x) in
   let c' := Tensor (n + 2) 0 [1%nat; B; H]
                    (contiguous_strides [1%nat; B; H]) (t_dev x) in
   Q (output, (h', c'))
     (with_event
        (with_storages st
           (storages st ++ [b ← seq 0 B; concat (run b).1;
                            b ← seq 0 B; (run b).2.1;
                            b ← seq 0 B; (run b).2.2]))
        (CallLSTM x h c output h' c'))) ->
  wp (LSTM_call rnn x h c) st Q.
Proof.
  intros Hx Hih Hhh Hh Hc Hd HQ. unfold LSTM_call.
  rewrite Hx, Hih, Hhh. rewrite bool_decide_eq_true_2 by auto.
  apply wp_bind, wp_get_state.
  apply wp_bind, wp_alloc, wp_bind, wp_alloc, wp_bind, wp_alloc.
  apply wp_bind, wp_log, wp_ret. simpl in *.
  unfold with_event, with_storages in *. simpl in *.
  rewrite !length_app in *. simpl in *.
  rewrite <- !app_assoc. simpl.
  replace (length (storages st) + 1 + 1)%nat
    with (length (storages st) + 2)%nat by lia.
  exact HQ.
Qed.

Lemma wp_Dropout_call d training x st (Q : tensor -> state -> Prop) :
  Q x (with_event st (CallDropout x x)) ->
  (forall n,
     let y := Tensor (length (storages st)) 0 (t_shape x)
                     (contiguous_strides (t_shape x)) (t_dev x) in
     Q y (with_event
            (with_storages (with_drawn st n)
               (storages st ++ [Dropout_data st d x]))
            (CallDropout x y))) ->
  wp (Dropout_call d training x) st Q.
Proof.
  intros Hsame Hnew. unfold Dropout_call. apply wp_bind.
  destruct (negb training || Qeq_bool (p d) 0 || (numel (t_shape x) =? 0)%nat).
  - apply wp_ret, wp_bind, wp_log, wp_ret, Hsame.
  - apply wp_bind, wp_get_state, wp_bind.
    eapply wp_run; [reflexivity|].
    apply wp_alloc, wp_bind, wp_log, wp_ret, Hnew.
Qed.
End primitives.

(* ===================================================================== *)
(** * Frame: [forward] only allocates *)
(* ===================================================================== *)

Lemma keeps_get_state R `{!Reflexive R} : keeps R get_state.
Proof. intros st. simpl. reflexivity. Qed.

Lemma storages_kept_alloc dev shape data : keeps storages_kept (alloc dev shape data).
Proof. intros st. simpl. unfold storages_kept. simpl. by apply prefix_app_r. Qed.

Lemma storages_kept_log e : keeps storages_kept (log e).
Proof. intros st. unfold storages_kept. simpl. reflexivity. Qed.

Lemma storages_kept_draw n : keeps storages_kept (draw n).
Proof. intros st. unfold storages_kept. simpl. reflexivity. Qed.

Create HintDb torch.
#[global] Hint Unfold sizes zeros empty shape_at permute contiguous view
  select1 unsqueeze squeeze0 cuda cat1 Linear_call LSTM_call Dropout_call
  forward_reshape forward_states forward_step forward_year_loc forward_dense
  forward_output forward : torch.

(** Decompose a computation built from binds, loops, matches and
    conditionals into its primitive steps. *)
Ltac keeps_split :=
  repeat first
    [ apply keeps_ret; apply _
    | apply keeps_raise; apply _
    | apply keeps_get_state; apply _
    | apply keeps_bind; [apply _| |intros]
    | apply keeps_for_each; [apply _|intros]
    | match goal with
      | |- keeps _ (match ?x with _ => _ end) => destruct x
      | |- keeps _ (let '(_, _) := ?x in _) => destruct x
      end
    | progress autounfold with torch ].

Lemma storages_kept_forward self x years locations rld :
  keeps storages_kept (forward self x years locations rld).
Proof.
  keeps_split;
    first [apply storages_kept_alloc | apply storages_kept_log
          | apply storages_kept_draw].
Qed.

(** Reading a tensor whose storage is kept gives the same elements. *)
Lemma storages_kept_tget st st' t idx :
  storages_kept st st' -> allocated st t -> tget st' t idx = tget st t idx.
Proof.
  unfold storages_kept, allocated, tget, read. intros Hpre Hlt.
  destruct (lookup_lt_is_Some_2 _ _ Hlt) as [s Hs].
  rewrite Hs, (prefix_lookup_Some _ _ _ _ Hs Hpre). reflexivity.
Qed.

Lemma storages_kept_elements st st' t :
  storages_kept st st' -> allocated st t -> elements st' t = elements st t.
Proof.
  intros Hpre Hlt. unfold elements. apply list_fmap_ext.
  intros _ idx _. by apply storages_kept_tget.
Qed.

(** Running a bind that returned normally. *)
Lemma bind_inr_inv {A B} (m : M A) (f : A -> M B) st b st' :
  (m ≫= f) st = (inr b, st') ->
  exists a st1, m st = (inr a, st1) /\ f a st1 = (inr b, st').
Proof.
  unfold mbind, M_bind. destruct (m st) as [[e|a] st1]; [discriminate|].
  intros Hf. eauto.
Qed.

Lemma shape_at_inv t i st n st' :
  shape_at t i st = (inr n, st') -> st' = st.
Proof.
  unfold shape_at. destruct (_ !! _); [|discriminate].
  intros [= <- <-]. reflexivity.
Qed.

Lemma view_inv t shape st t' st' :
  view t shape st = (inr t', st') -> st' = st /\ t_loc t' = t_loc t.
Proof.
  unfold view. destruct (_ && _); [|discriminate].
  intros [= <- <-]. auto.
Qed.

Lemma permute_inv t dims st t' st' :
  permute t dims st = (inr t', st') -> st' = st /\ t_loc t' = t_loc t.
Proof.
  unfold permute. destruct (bool_decide _); [|discriminate].
  intros [= <- <-]. auto.
Qed.

(** C10 (amended).  [forward] only allocates: whatever it does, also when
    it raises, every storage that existed before the call is unchanged after
    it, so the input tensor and all recurrent and dense parameters have the
    same elements.  The reshape works on the tensor [contiguous()] returns:
    the input's own storage when the permuted view is already contiguous,
    and a fresh storage otherwise. *)
Theorem forward_frame (self : RNNet) (x : tensor)
    (years locations : option tensor) (return_last_dense : bool) (st : state) :
  Forall (allocated st) (x :: parameters self) ->
  let st' := (forward self x years locations return_last_dense st).2 in
  storages st `prefix_of` storages st'
  /\ Forall (fun t => elements st' t = elements st t) (x :: parameters self)
  /\ (forall p x' st1,
        permute x [0; 2; 1; 3]%nat st = (inr p, st) ->
        forward_reshape x st = (inr x', st1) ->
        t_loc x' = if is_contiguous p then t_loc x else length (storages st)).
Proof.
  intros Halloc st'.
  pose proof (storages_kept_forward self x years locations return_last_dense st)
    as Hkept. fold st' in Hkept.
  split; [exact Hkept|]. split.
  - eapply Forall_impl; [exact Halloc|]. intros t Ht.
    by apply storages_kept_elements.
  - intros p x' st1 Hp Hre. unfold forward_reshape in Hre.
    apply bind_inr_inv in Hre as (p' & s1 & Hp' & Hre).
    rewrite Hp in Hp'. injection Hp' as <- <-.
    apply permute_inv in Hp as [_ Hloc].
    apply bind_inr_inv in Hre as (c & s2 & Hc & Hre).
    repeat (apply bind_inr_inv in Hre as (? & ? & Hs & Hre);
            apply shape_at_inv in Hs; subst).
    apply view_inv in Hre as [_ ->].
    unfold contiguous in Hc. destruct (is_contiguous p).
    + injection Hc as <- <-. exact Hloc.
    + injection Hc as <- <-. reflexivity.
Qed.

Lemma forward_frame_witness :
  let st' := (forward (demo_net false) demo_x None None false demo_state).2 in
  storages demo_state `prefix_of` storages st'
  /\ Forall (fun t => elements st' t = elements demo_state t)
            (demo_x :: parameters (demo_net false))
  /\ (forall p x' st1,
        permute demo_x [0; 2; 1; 3]%nat demo_state = (inr p, demo_state) ->
        forward_reshape demo_x demo_state = (inr x', st1) ->
        t_loc x' = if is_contiguous p then t_loc demo_x
                   else length (storages demo_state)).
Proof.
  apply (forward_frame (demo_net false) demo_x None None false demo_state).
  repeat constructor; unfold allocated; simpl; lia.
Defined.

(** C10 as stated fails for a single channel: the permuted view of a
    [1,1,3,1] input is already contiguous, [contiguous()] returns it as it
    is, and the reshaped tensor is a view of the input's own storage; no
    storage is allocated. *)
Lemma reshape_shares_input_storage :
  exists x',
    forward_reshape demo_x demo_state = (inr x', demo_state)
    /\ t_loc x' = t_loc demo_x.
Proof. eexists. split; reflexivity. Qed.

(* ===================================================================== *)
(** * Shapes, strides and contiguity *)
(* ===================================================================== *)

#[global] Instance only_allocates_preorder : PreOrder only_allocates.
Proof.
  split.
  - intros st. unfold only_allocates. auto.
  - intros a b c (?&?&?&?&?) (?&?&?&?&?). unfold only_allocates.
    repeat split; try congruence. etrans; eauto.
Qed.

Lemma only_allocates_push st data :
  only_allocates st (with_storages st (storages st ++ [data])).
Proof. unfold only_allocates. simpl. repeat split. by apply prefix_app_r. Qed.

Lemma only_allocates_kept st st' :
  only_allocates st st' -> storages_kept st st'.
Proof. intros (_&_&_&_&H). exact H. Qed.

Lemma contiguous_from_app l l' z :
  contiguous_from (l ++ l') z
  = contiguous_from l z && contiguous_from l' (z * numel (l.*1)).
Proof.
  revert z. induction l as [|[n s] l IH]; intros z; simpl.
  - rewrite Nat.mul_1_r. reflexivity.
  - rewrite !IH. destruct (n =? 1)%nat eqn:Hn.
    + apply Nat.eqb_eq in Hn. subst n. rewrite Nat.mul_1_l. reflexivity.
    + change (numel ((n, s) :: l).*1) with (n * numel l.*1)%nat.
      rewrite Nat.mul_assoc, andb_assoc. reflexivity.
Qed.

Lemma numel_app l l' : numel (l ++ l') = (numel l * numel l')%nat.
Proof.
  unfold numel. induction l as [|n l IH]; simpl; [lia|].
  rewrite IH. lia.
Qed.

Lemma numel_reverse l : numel (reverse l) = numel l.
Proof.
  induction l as [|n l IH]; [reflexivity|].
  rewrite reverse_cons, numel_app, IH. simpl. lia.
Qed.

Lemma length_contiguous_strides shape :
  length (contiguous_strides shape) = length shape.
Proof. induction shape; simpl; congruence. Qed.

Lemma contiguous_from_scaled shape z :
  contiguous_from
    (reverse (zip shape ((fun k => k * z)%nat <$> contiguous_strides shape))) z
  = true.
Proof.
  induction shape as [|n rest IH]; [reflexivity|].
  cbn [contiguous_strides]. rewrite fmap_cons. cbn [zip_with].
  rewrite reverse_cons, contiguous_from_app, IH.
  rewrite fmap_reverse, numel_reverse, fst_zip
    by (rewrite length_fmap, length_contiguous_strides; lia).
  cbn [contiguous_from andb].
  destruct (n =? 1)%nat; [reflexivity|].
  rewrite andb_true_r. apply Nat.eqb_eq. lia.
Qed.

(** A tensor laid out with [contiguous_strides] is contiguous. *)
Lemma is_contiguous_strides loc off shape dev :
  is_contiguous (Tensor loc off shape (contiguous_strides shape) dev) = true.
Proof.
  unfold is_contiguous. simpl. apply orb_true_iff. right.
  rewrite <- (contiguous_from_scaled shape 1). do 3 f_equal.
  rewrite <- (list_fmap_id (contiguous_strides shape)) at 1.
  apply list_fmap_ext. intros _ k _. simpl. lia.
Qed.

Lemma length_indices shape : length (indices shape) = numel shape.
Proof.
  induction shape as [|n rest IH]; [reflexivity|]. simpl.
  generalize 0%nat at 1. induction n as [|n IHn]; intros start; simpl.
  - reflexivity.
  - rewrite length_app, length_fmap, IH, IHn. reflexivity.
Qed.

(** ** The first lines of [forward] *)

Lemma wp_forward_reshape x B C T W st (Q : tensor -> state -> Prop) :
  t_shape x = [B; C; T; W] ->
  (forall x' st',
      t_shape x' = [B; T; (C * W)%nat] ->
      t_stride x' = contiguous_strides [B; T; (C * W)%nat] ->
      t_dev x' = t_dev x ->
      only_allocates st st' ->
      Q x' st') ->
  wp (forward_reshape x) st Q.
Proof.
  intros Hx HQ. unfold forward_reshape.
  apply wp_bind. eapply wp_permute_0213; [exact Hx|].
  apply wp_bind, wp_contiguous; intros Hc;
    (apply wp_bind; eapply wp_shape_at; [reflexivity|]);
    (apply wp_bind; eapply wp_shape_at; [reflexivity|]);
    (apply wp_bind; eapply wp_shape_at; [reflexivity|]);
    (apply wp_bind; eapply wp_shape_at; [reflexivity|]);
    (apply wp_view;
     [first [exact Hc | apply is_contiguous_strides]
     | simpl; lia
     | apply HQ; try reflexivity]).
  apply only_allocates_push.
Qed.

(** ** Projections of updated states *)

Lemma storages_with_storages st ss : storages (with_storages st ss) = ss.
Proof. reflexivity. Qed.
Lemma lists_with_storages st ss : lists (with_storages st ss) = lists st.
Proof. reflexivity. Qed.
Lemma gen_with_storages st ss : gen (with_storages st ss) = gen st.
Proof. reflexivity. Qed.
Lemma cuda_with_storages st ss :
  current_cuda (with_storages st ss) = current_cuda st.
Proof. reflexivity. Qed.
Lemma trace_with_storages st ss : trace (with_storages st ss) = trace st.
Proof. reflexivity. Qed.
Lemma storages_with_event st e : storages (with_event st e) = storages st.
Proof. reflexivity. Qed.
Lemma lists_with_event st e : lists (with_event st e) = lists st.
Proof. reflexivity. Qed.
Lemma gen_with_event st e : gen (with_event st e) = gen st.
Proof. reflexivity. Qed.
Lemma cuda_with_event st e : current_cuda (with_event st e) = current_cuda st.
Proof. reflexivity. Qed.
Lemma trace_with_event st e : trace (with_event st e) = trace st ++ [e].
Proof. reflexivity. Qed.
Lemma storages_with_drawn st n : storages (with_drawn st n) = storages st.
Proof. reflexivity. Qed.
Lemma lists_with_drawn st n : lists (with_drawn st n) = lists st.
Proof. reflexivity. Qed.
Lemma cuda_with_drawn st n : current_cuda (with_drawn st n) = current_cuda st.
Proof. reflexivity. Qed.
Lemma trace_with_drawn st n : trace (with_drawn st n) = trace st.
Proof. reflexivity. Qed.
Lemma storages_with_lists st ls : storages (with_lists st ls) = storages st.
Proof. reflexivity. Qed.
Lemma lists_with_lists st ls : lists (with_lists st ls) = ls.
Proof. reflexivity. Qed.
Lemma gen_with_lists st ls : gen (with_lists st ls) = gen st.
Proof. reflexivity. Qed.
Lemma cuda_with_lists st ls : current_cuda (with_lists st ls) = current_cuda st.
Proof. reflexivity. Qed.
Lemma trace_with_lists st ls : trace (with_lists st ls) = trace st.
Proof. reflexivity. Qed.

Create Rewrite HintDb state.
#[global] Hint Rewrite storages_with_storages lists_with_storages
  gen_with_storages cuda_with_storages trace_with_storages
  storages_with_event lists_with_event gen_with_event cuda_with_event
  trace_with_event storages_with_drawn lists_with_drawn cuda_with_drawn
  trace_with_drawn storages_with_lists lists_with_lists gen_with_lists
  cuda_with_lists trace_with_lists : state.

(** The storage just pushed is allocated, and so is everything before. *)
Lemma allocated_push st data t :
  (t_loc t <= length (storages st))%nat ->
  allocated (with_storages st (storages st ++ [data])) t.
Proof.
  unfold allocated. rewrite storages_with_storages, length_app. simpl. lia.
Qed.

Lemma allocated_kept st st' t :
  storages_kept st st' -> allocated st t -> allocated st' t.
Proof.
  unfold storages_kept, allocated. intros Hpre Hlt.
  apply prefix_length in Hpre. lia.
Qed.

(** ** Reading storages *)

Lemma read_push_new st data o :
  read (with_storages st (storages st ++ [data])) (length (storages st)) o
  = default 0%R (data !! o).
Proof. unfold read. simpl. rewrite list_lookup_middle by reflexivity. done. Qed.

Lemma read_zeros st loc n :
  storages st !! loc = Some (replicate n 0%R) -> forall o, read st loc o = 0%R.
Proof.
  intros Hs o. unfold read. rewrite Hs. simpl.
  destruct (replicate n 0%R !! o) as [v|] eqn:Hv; [|reflexivity].
  apply lookup_replicate_1 in Hv as [-> _]. reflexivity.
Qed.

(** A tensor over a storage of zeros is zero-filled. *)
Lemma elements_zero st t :
  (forall o, read st (t_loc t) o = 0%R) ->
  elements st t = replicate (numel (t_shape t)) 0%R.
Proof.
  intros Hz. unfold elements. rewrite <- length_indices.
  apply const_fmap. intros _ idx _. apply Hz.
Qed.

Lemma read_kept st st' loc o :
  storages_kept st st' -> (loc < length (storages st))%nat ->
  read st' loc o = read st loc o.
Proof.
  unfold storages_kept, read. intros Hpre Hlt.
  destruct (lookup_lt_is_Some_2 _ _ Hlt) as [s Hs].
  rewrite Hs, (prefix_lookup_Some _ _ _ _ Hs Hpre). reflexivity.
Qed.

Lemma wp_forward_states self x B rest H st
    (Q : tensor * tensor -> state -> Prop) :
  t_shape x = B :: rest -> hidden_size self = Z.of_nat H ->
  (forall h c st',
      t_shape h = [1%nat; B; H] -> t_shape c = [1%nat; B; H] ->
      t_dev h = state_device st x -> t_dev c = state_device st x ->
      elements st' h = replicate (numel [1%nat; B; H]) 0%R ->
      elements st' c = replicate (numel [1%nat; B; H]) 0%R ->
      allocated st' h -> allocated st' c ->
      only_allocates st st' ->
      Q (h, c) st') ->
  wp (forward_states self x) st Q.
Proof.
  intros Hx Hh HQ. unfold forward_states.
  assert (Hdims : Forall (fun d => 0 <= d) [1; Z.of_nat B; hidden_size self])
    by (rewrite Hh; repeat constructor; lia).
  assert (Hshape : Z.to_nat <$> [1; Z.of_nat B; hidden_size self]
                   = [1%nat; B; H])
    by (rewrite Hh; simpl; rewrite !Nat2Z.id; reflexivity).
  apply wp_bind. eapply wp_shape_at; [rewrite Hx; reflexivity|].
  apply wp_bind, wp_zeros; [exact Hdims|]. rewrite Hshape. cbv zeta.
  set (st1 := with_storages st _).
  set (h := Tensor (length (storages st)) _ _ _ _).
  apply wp_bind. eapply wp_shape_at; [rewrite Hx; reflexivity|].
  apply wp_bind, wp_zeros; [exact Hdims|]. rewrite Hshape. cbv zeta.
  set (st2 := with_storages st1 _).
  set (c := Tensor (length (storages st1)) _ _ _ _).
  assert (Hst1 : only_allocates st st1) by apply only_allocates_push.
  assert (Hst2 : only_allocates st1 st2) by apply only_allocates_push.
  assert (Hah1 : allocated st1 h) by (apply allocated_push; reflexivity).
  assert (Hac : allocated st2 c) by (apply allocated_push; reflexivity).
  assert (Hah : allocated st2 h)
    by (eapply allocated_kept; [apply only_allocates_kept, Hst2|exact Hah1]).
  assert (Hzh : forall o, read st2 (t_loc h) o = 0%R).
  { intros o. rewrite (read_kept st1 st2)
      by (first [apply only_allocates_kept, Hst2 | exact Hah1]).
    eapply read_zeros. unfold st1. rewrite storages_with_storages.
    apply list_lookup_middle. reflexivity. }
  assert (Hzc : forall o, read st2 (t_loc c) o = 0%R).
  { intros o. eapply read_zeros. unfold st2. rewrite storages_with_storages.
    apply list_lookup_middle. reflexivity. }
  unfold state_device in HQ. destruct (is_cuda x) eqn:Hcu.
  - apply wp_bind, wp_cuda; [intros [=]|intros _].
    set (st3 := with_storages st2 _).
    set (h' := Tensor (length (storages st2)) _ _ _ _).
    apply wp_bind, wp_cuda; [intros [=]|intros _].
    set (st4 := with_storages st3 _).
    set (c' := Tensor (length (storages st3)) _ _ _ _).
    apply wp_ret.
    assert (Hst3 : only_allocates st2 st3) by apply only_allocates_push.
    assert (Hst4 : only_allocates st3 st4) by apply only_allocates_push.
    assert (Hah3 : allocated st3 h') by (apply allocated_push; reflexivity).
    assert (Hac4 : allocated st4 c') by (apply allocated_push; reflexivity).
    assert (Hc3 : elements st3 c = replicate (numel [1%nat; B; H]) 0%R).
    { rewrite (storages_kept_elements st2 st3)
        by (first [apply only_allocates_kept, Hst3 | exact Hac]).
      apply (elements_zero st2 c Hzc). }
    apply HQ; try reflexivity; try assumption.
    + apply (elements_zero st4). intros o.
      rewrite (read_kept st3 st4)
        by (first [apply only_allocates_kept, Hst4 | exact Hah3]).
      unfold st3, h'. cbn [t_loc]. rewrite read_push_new.
      rewrite (elements_zero st2 h Hzh).
      destruct (replicate _ 0%R !! o) as [v|] eqn:Hv; [|reflexivity].
      apply lookup_replicate_1 in Hv as [-> _]. reflexivity.
    + apply (elements_zero st4). intros o.
      unfold st4, c'. cbn [t_loc]. rewrite read_push_new. rewrite Hc3.
      destruct (replicate _ 0%R !! o) as [v|] eqn:Hv; [|reflexivity].
      apply lookup_replicate_1 in Hv as [-> _]. reflexivity.
    + eapply allocated_kept; [apply only_allocates_kept, Hst4|exact Hah3].
    + do 4 (etrans; [eassumption|]). reflexivity.
  - apply wp_ret, HQ; try reflexivity; try assumption.
    + apply (elements_zero st2 h Hzh).
    + apply (elements_zero st2 c Hzc).
    + etrans; eassumption.
Qed.

(** Where the states are.  At the start of every forward call (the reshape
    of a [batch, channels, time, bins] input followed by the allocation of
    the states) the hidden and cell state have shape
    [1, batch, hidden_size] and are zero-filled.  They are allocated on the
    CPU and, when the input is a CUDA tensor, moved to the current CUDA
    device; this is the device of the input whenever the input is on the CPU
    or on the current CUDA device. *)
Theorem forward_states_placement (self : RNNet) (x : tensor) (st : state)
    (B C T W H : nat) :
  t_shape x = [B; C; T; W] ->
  hidden_size self = Z.of_nat H ->
  wp (forward_reshape x) st (fun x' st1 =>
    wp (forward_states self x') st1 (fun '(h, c) st2 =>
      t_shape h = [1%nat; B; H] /\ t_shape c = [1%nat; B; H]
      /\ elements st2 h = replicate (numel [1%nat; B; H]) 0%R
      /\ elements st2 c = replicate (numel [1%nat; B; H]) 0%R
      /\ t_dev h = state_device st x /\ t_dev c = state_device st x
      /\ (t_dev x = CPU \/ t_dev x = CUDA (current_cuda st) ->
          t_dev h = t_dev x /\ t_dev c = t_dev x))).
Proof.
  intros Hx Hh.
  eapply wp_forward_reshape; [exact Hx|].
  intros x' st1 Hx' _ Hdev (_ & _ & Hcur & _ & _).
  eapply wp_forward_states; [exact Hx'|exact Hh|].
  intros h c st2 Hsh Hsc Hdh Hdc Heh Hec _ _ _.
  assert (Hsd : state_device st1 x' = state_device st x).
  { unfold state_device, is_cuda. rewrite Hdev, Hcur. reflexivity. }
  rewrite Hsd in Hdh, Hdc.
  repeat split; try assumption.
  - rewrite Hdh. unfold state_device, is_cuda.
    destruct H0 as [->| ->]; reflexivity.
  - rewrite Hdc. unfold state_device, is_cuda.
    destruct H0 as [->| ->]; reflexivity.
Qed.

Lemma forward_states_placement_witness :
  wp (forward_reshape demo_x) demo_state (fun x' st1 =>
    wp (forward_states (demo_net false) x') st1 (fun '(h, c) st2 =>
      t_shape h = [1; 1; 2]%nat /\ t_shape c = [1; 1; 2]%nat
      /\ elements st2 h = replicate (numel [1; 1; 2]%nat) 0%R
      /\ elements st2 c = replicate (numel [1; 1; 2]%nat) 0%R
      /\ t_dev h = state_device demo_state demo_x
      /\ t_dev c = state_device demo_state demo_x
      /\ (t_dev demo_x = CPU \/ t_dev demo_x = CUDA (current_cuda demo_state) ->
          t_dev h = t_dev demo_x /\ t_dev c = t_dev demo_x))).
Proof.
  apply (forward_states_placement (demo_net false) demo_x demo_state 1 1 3 1 2);
    reflexivity.
Defined.

(** On a machine with two GPUs the states miss the device of the input:
    for an input on [cuda:1] while the current CUDA device is [cuda:0],
    [.cuda()] puts both states on [cuda:0]. *)
Lemma states_on_current_cuda_device :
  exists x' st1 h c st2,
    forward_reshape demo_x_cuda1 demo_state = (inr x', st1)
    /\ forward_states (demo_net false) x' st1 = (inr (h, c), st2)
    /\ t_dev demo_x_cuda1 = CUDA 1
    /\ t_dev h = CUDA 0 /\ t_dev c = CUDA 0.
Proof. do 5 eexists. repeat split; reflexivity. Qed.

(** C8.  The code follows the device of its input with [x.is_cuda] and
    [.cuda()], and misses the index of the device.  With the network and
    the input both on [cuda:1] and [cuda:0] the current CUDA device, the two
    states are put on [cuda:0], not on the device of the input, and the
    call fails with RuntimeError at the first call of the recurrent cell,
    whose input and parameters are on [cuda:1]. *)
Lemma forward_misses_device_index :
  t_dev demo_x_cuda1 = CUDA 1
  /\ Forall (fun t => t_dev t = CUDA 1) (parameters demo_net_cuda1)
  /\ current_cuda demo_state = 0%nat
  /\ (exists x' st1 h c st2,
        forward_reshape demo_x_cuda1 demo_state = (inr x', st1)
        /\ forward_states demo_net_cuda1 x' st1 = (inr (h, c), st2)
        /\ t_dev h = CUDA 0 /\ t_dev c = CUDA 0)
  /\ (forward demo_net_cuda1 demo_x_cuda1 None None false demo_state).1
     = inl RuntimeError.
Proof.
  split; [reflexivity|]. split; [repeat constructor|]. split; [reflexivity|].
  split; [do 5 eexists; repeat split; reflexivity|].
  reflexivity.
Qed.

(* ===================================================================== *)
(** * The timestep loop *)
(* ===================================================================== *)

Lemma seq_middle s n done i (rest : list nat) :
  seq s n = done ++ i :: rest -> i = (s + length done)%nat /\ (length done < n)%nat.
Proof.
  intros Heq.
  assert (Hi : seq s n !! length done = Some i)
    by (rewrite Heq; apply list_lookup_middle; reflexivity).
  apply lookup_seq in Hi. exact Hi.
Qed.

Lemma unrolled_snoc x i n h c evs h' c' slice out h1 c1 h2 :
  unrolled x i n h c evs h' c' ->
  timestep x (i + n) slice ->
  t_loc h1 <> t_loc c1 ->
  unrolled x i (S n) h c
           (evs ++ [CallLSTM slice h' c' out h1 c1; CallDropout h1 h2]) h2 c1.
Proof.
  induction 1 as [i h c|i n h c sl o ha ca hb evs h' c' Hts Hne _ IH];
    intros Hslice Hloc.
  - rewrite Nat.add_0_r in Hslice. simpl.
    eapply unrolled_step; [exact Hslice|exact Hloc|apply unrolled_done].
  - simpl. eapply unrolled_step; [exact Hts|exact Hne|]. apply IH; [|exact Hloc].
    replace (S i + n)%nat with (i + S n)%nat by lia. exact Hslice.
Qed.

(** The trace of [n] steps holds [n] calls of the cell and [n] of dropout. *)
Lemma unrolled_length x i n h c evs h' c' :
  unrolled x i n h c evs h' c' -> length evs = (2 * n)%nat.
Proof. induction 1; simpl; lia. Qed.

Lemma wp_forward_loop self x h0 c0 B T F H d st
    (Q : tensor * tensor -> state -> Prop) :
  rnn_ok self d F H ->
  t_shape x = [B; T; F] -> t_stride x = contiguous_strides [B; T; F] ->
  t_dev x = d ->
  t_shape h0 = [1%nat; B; H] -> t_shape c0 = [1%nat; B; H] ->
  t_dev h0 = d -> t_dev c0 = d -> allocated st h0 ->
  (forall hT cT evs st',
      t_shape hT = [1%nat; B; H] -> t_dev hT = d -> allocated st' hT ->
      unrolled x 0 T h0 c0 evs hT cT ->
      trace st' = trace st ++ evs ->
      lists st' = lists st -> current_cuda st' = current_cuda st ->
      storages_kept st st' ->
      Q (hT, cT) st') ->
  wp (for_each (range T) (forward_step self x) (h0, c0)) st Q.
Proof.
  intros (Hhid & [n4 Hih] & [n4' Hhh] & Hdevs) Hx Hstr Hdx Hh0 Hc0 Hdh Hdc Hal HQ.
  apply (wp_for_each
    (fun done hc st' =>
       t_shape hc.1 = [1%nat; B; H] /\ t_shape hc.2 = [1%nat; B; H]
       /\ t_dev hc.1 = d /\ t_dev hc.2 = d /\ allocated st' hc.1
       /\ lists st' = lists st /\ current_cuda st' = current_cuda st
       /\ storages_kept st st'
       /\ exists evs, trace st' = trace st ++ evs
                      /\ unrolled x 0 (length done) h0 c0 evs hc.1 hc.2)).
  - simpl. repeat split; try assumption; try reflexivity.
    exists []. rewrite app_nil_r. split; [reflexivity|apply unrolled_done].
  - intros done i rest [h c] s Hsplit
      (Hsh & Hsc & Hhd & Hcd & Hha & Hl & Hcur & Hkept & evs & Htr & Hun).
    simpl in Hsh, Hsc, Hhd, Hcd, Hha, Hun.
    apply seq_middle in Hsplit as [Hi Hlt]. simpl in Hi. subst i.
    unfold forward_step.
    apply wp_bind.
    eapply wp_select1; [exact Hx|rewrite Hstr; reflexivity|exact Hlt|].
    apply wp_bind, wp_unsqueeze; [simpl; lia|].
    cbn [t_shape t_stride t_loc t_off t_dev take drop app lookup list_lookup].
    set (slice := Tensor (t_loc x) _ [B; 1%nat; F] _ (t_dev x)).
    assert (Hslice : timestep x (0 + length done) slice).
    { split; [reflexivity|]. split; [reflexivity|].
      exists B, T, F. repeat split; try assumption; try reflexivity.
      intros b m. unfold offset_of, slice. rewrite Hstr. simpl. lia. }
    apply wp_bind.
    eapply (wp_LSTM_call _ slice h c B 1 F H);
      [reflexivity|exact Hih|exact Hhh|exact Hsh|exact Hsc| |].
    { unfold slice. cbn [t_dev]. rewrite Hdx.
      constructor; [exact Hhd|]. constructor; [exact Hcd|]. exact Hdevs. }
    cbv zeta. cbn [t_dev].
    set (out := Tensor (length (storages s)) _ _ _ _).
    set (h1 := Tensor (length (storages s) + 1) _ _ _ _).
    set (c1 := Tensor (length (storages s) + 2) _ _ _ _).
    set (s1 := with_event _ _).
    assert (Hk1 : storages_kept s s1).
    { unfold storages_kept, s1.
      rewrite storages_with_event, storages_with_storages.
      by apply prefix_app_r. }
    assert (Hah1 : allocated s1 h1).
    { unfold allocated, s1, h1.
      rewrite storages_with_event, storages_with_storages, length_app.
      simpl. lia. }
    apply wp_bind, wp_Dropout_call.
    + apply wp_ret. cbn [fst snd].
      split_and!; try assumption; try reflexivity; try exact Hdx.
      * etrans; [exact Hkept|]. exact Hk1.
      * exists (evs ++ [CallLSTM slice h c out h1 c1; CallDropout h1 h1]).
        split.
        -- unfold s1. rewrite !trace_with_event, trace_with_storages, Htr,
             <- !app_assoc. reflexivity.
        -- rewrite length_app. simpl.
           replace (length done + 1)%nat with (S (length done)) by lia.
           eapply unrolled_snoc; [eassumption|eassumption|].
           unfold h1, c1. cbn [t_loc]. lia.
    + intros drawn. cbv zeta. cbn [t_shape t_dev].
      set (h2 := Tensor (length (storages s1)) _ _ _ _).
      apply wp_ret. cbn [fst snd].
      split_and!; try assumption; try reflexivity; try exact Hdx.
      * unfold allocated, h2. cbn [t_loc].
        autorewrite with state. rewrite length_app. simpl. lia.
      * etrans; [exact Hkept|]. etrans; [exact Hk1|].
        unfold storages_kept.
        autorewrite with state. by apply prefix_app_r.
      * exists (evs ++ [CallLSTM slice h c out h1 c1; CallDropout h1 h2]).
        split.
        -- unfold s1. autorewrite with state.
           rewrite Htr, <- !app_assoc. reflexivity.
        -- rewrite length_app. simpl.
           replace (length done + 1)%nat with (S (length done)) by lia.
           eapply unrolled_snoc; [eassumption|eassumption|].
           unfold h1, c1. cbn [t_loc]. lia.
  - intros [hT cT] s (Hsh & _ & Hhd & _ & Hha & Hl & Hcur & Hkept & evs & Htr & Hun).
    unfold range in Hun. rewrite length_seq in Hun.
    eapply HQ; eassumption.
Qed.

(* ===================================================================== *)
(** * The dense layers *)
(* ===================================================================== *)

Lemma dense_run_snoc layers x evs ys l y :
  dense_run layers x evs ys ->
  dense_run (layers ++ [l]) x
            (evs ++ [CallLinear (weight l) (default x (last ys)) y])
            (ys ++ [y]).
Proof.
  induction 1 as [x|l0 layers x y0 evs ys Hrun IH]; simpl.
  - apply dense_run_cons, dense_run_nil.
  - apply dense_run_cons.
    replace (default x (last (y0 :: ys))) with (default y0 (last ys)); [exact IH|].
    destruct ys as [|y1 ys]; [reflexivity|]. rewrite last_cons_cons.
    destruct (last (y1 :: ys)) eqn:Hl; [reflexivity|].
    apply last_None in Hl. discriminate.
Qed.

(** Layer [k] of a well-formed stack takes what layer [k-1] produces. *)
Lemma dense_ok_lookup d n_in layers widths k l :
  dense_ok d n_in layers widths -> layers !! k = Some l ->
  exists w, widths !! k = Some w
            /\ t_shape (weight l) = [w; default n_in (last (take k widths))]
            /\ out_features l = Z.of_nat w
            /\ t_dev (weight l) = d /\ t_dev (bias l) = d.
Proof.
  revert n_in widths k.
  induction layers as [|l0 layers IH]; intros n_in widths k Hok Hl;
    [discriminate|].
  destruct widths as [|w widths]; [destruct Hok|].
  destruct Hok as (_ & Hout & Hw & Hd1 & Hd2 & Hok).
  destruct k as [|k]; simpl in Hl.
  - injection Hl as <-. exists w. auto.
  - destruct (IH _ _ _ Hok Hl) as (w' & Hw' & Hs & Ho & Hd).
    exists w'. split; [exact Hw'|]. split; [|auto].
    rewrite Hs. do 2 f_equal. simpl.
    destruct (take k widths) as [|w1 ws] eqn:Ht; [reflexivity|].
    rewrite last_cons_cons.
    destruct (last (w1 :: ws)) eqn:Hla; [reflexivity|].
    apply last_None in Hla. discriminate.
Qed.

Lemma dense_ok_length d n_in layers widths :
  dense_ok d n_in layers widths -> length widths = length layers.
Proof.
  revert n_in widths. induction layers as [|l layers IH]; intros n_in [|w ws];
    simpl; try tauto.
  intros (_ & _ & _ & _ & _ & Hok). f_equal. eauto.
Qed.

Lemma captured_step rld n k ys y :
  length ys = k ->
  (if rld && (Z.of_nat k =? Z.of_nat n - 2) then Some y else captured rld n k ys)
  = captured rld n (S k) (ys ++ [y]).
Proof.
  intros Hlen. unfold captured. destruct rld; cbn [andb]; [|reflexivity].
  destruct (Z.of_nat k =? Z.of_nat n - 2) eqn:Hk.
  - apply Z.eqb_eq in Hk.
    assert (Hn : (2 <= n)%nat) by lia. assert (Hk' : (n - 2 = k)%nat) by lia.
    apply Nat.leb_le in Hn. rewrite Hn. cbn [andb].
    assert (Hlt : (n - 2 <? S k)%nat = true) by (apply Nat.ltb_lt; lia).
    rewrite Hlt, Hk'. symmetry. apply list_lookup_middle. symmetry. exact Hlen.
  - apply Z.eqb_neq in Hk.
    destruct (2 <=? n)%nat eqn:Hn; cbn [andb]; [|reflexivity].
    apply Nat.leb_le in Hn.
    destruct (n - 2 <? S k)%nat eqn:Hlt.
    + apply Nat.ltb_lt in Hlt.
      assert (Hlt' : (n - 2 <? k)%nat = true) by (apply Nat.ltb_lt; lia).
      rewrite Hlt'. symmetry. apply lookup_app_l. apply Nat.ltb_lt in Hlt'. lia.
    + apply Nat.ltb_ge in Hlt.
      assert (Hlt' : (n - 2 <? k)%nat = false) by (apply Nat.ltb_ge; lia).
      rewrite Hlt'. reflexivity.
Qed.

Lemma Forall2_last_l {A B} (P : A -> B -> Prop) (l : list A) (k : list B) a :
  Forall2 P l k -> last l = Some a -> exists b, last k = Some b /\ P a b.
Proof.
  induction 1 as [|x y l k Hxy Hlk IH]; [discriminate|].
  destruct Hlk as [|x' y' l k Hxy' Hlk].
  - simpl. intros [= <-]. eauto.
  - rewrite !last_cons_cons. exact IH.
Qed.

(** The loop over the dense layers. *)
Lemma wp_dense_loop self x0 rld B n_in widths d st
    (Q : tensor * option tensor -> state -> Prop) :
  dense_ok d n_in (dense_layers self) widths ->
  t_shape x0 = [B; n_in] -> t_dev x0 = d ->
  (forall ys evs st',
      dense_run (dense_layers self) x0 evs ys ->
      Forall2 (fun y w => t_shape y = [B; w] /\ t_dev y = d) ys widths ->
      trace st' = trace st ++ evs ->
      lists st' = lists st -> storages_kept st st' ->
      Q (default x0 (last ys),
         captured rld (length (dense_layers self))
                  (length (dense_layers self)) ys) st') ->
  wp (for_each (imap pair (dense_layers self)) (forward_dense self rld)
               (x0, None)) st Q.
Proof.
  intros Hok Hx Hd HQ.
  set (layers := dense_layers self) in *. set (n := length layers) in *.
  apply (wp_for_each
    (fun done xo st' =>
       exists ys evs,
         dense_run (take (length done) layers) x0 evs ys
         /\ Forall2 (fun y w => t_shape y = [B; w] /\ t_dev y = d) ys
                    (take (length done) widths)
         /\ trace st' = trace st ++ evs /\ lists st' = lists st
         /\ storages_kept st st'
         /\ xo = (default x0 (last ys), captured rld n (length done) ys))).
  - exists [], []. simpl. rewrite app_nil_r.
    split_and!; try reflexivity; try constructor.
    unfold captured. rewrite andb_false_r. reflexivity.
  - intros done [k l] rest xo s Hsplit (ys & evs & Hrun & Hsh & Htr & Hl & Hk & ->).
    assert (Hkl : imap pair layers !! length done = Some (k, l))
      by (rewrite Hsplit; apply list_lookup_middle; reflexivity).
    rewrite list_lookup_imap in Hkl.
    destruct (layers !! length done) as [l'|] eqn:Hl'; [|discriminate].
    injection Hkl as <- <-.
    destruct (dense_ok_lookup _ _ _ _ _ _ Hok Hl') as (w & Hw & Hws & _ & Hd1 & Hd2).
    assert (Hlen : length ys = length done).
    { apply Forall2_length in Hsh. rewrite Hsh, length_take.
      apply lookup_lt_Some in Hw. lia. }
    assert (Hcur : t_shape (default x0 (last ys))
                   = [B] ++ [default n_in (last (take (length done) widths))]
                   /\ t_dev (default x0 (last ys)) = d).
    { destruct (last ys) as [y|] eqn:Hy.
      - destruct (Forall2_last_l _ _ _ _ Hsh Hy) as (w' & Hw' & Hyw & Hyd).
        rewrite Hw'. simpl. auto.
      - apply last_None in Hy. subst ys.
        apply Forall2_nil_inv_l in Hsh. rewrite Hsh. simpl. auto. }
    destruct Hcur as [Hcs Hcd].
    unfold forward_dense. apply wp_bind.
    eapply wp_Linear_call; [exact Hws|exact Hcs|congruence|congruence|].
    cbv zeta. set (y := Tensor (length (storages s)) _ _ _ _).
    set (s1 := with_event _ _).
    assert (Hpost :
      exists ys' evs',
        dense_run (take (length (done ++ [(length done, l')])) layers) x0 evs' ys'
        /\ Forall2 (fun y w => t_shape y = [B; w] /\ t_dev y = d) ys'
                   (take (length (done ++ [(length done, l')])) widths)
        /\ trace s1 = trace st ++ evs' /\ lists s1 = lists st
        /\ storages_kept st s1
        /\ (y, if rld && (Z.of_nat (length done) =? Z.of_nat n - 2)
               then Some y else captured rld n (length done) ys)
           = (default x0 (last ys'),
              captured rld n (length (done ++ [(length done, l')])) ys')).
    { exists (ys ++ [y]),
        (evs ++ [CallLinear (weight l') (default x0 (last ys)) y]).
      rewrite length_app. simpl.
      replace (length done + 1)%nat with (S (length done)) by lia.
      rewrite (take_S_r _ _ _ Hl'), (take_S_r _ _ _ Hw).
      split_and!.
      - by apply dense_run_snoc.
      - apply Forall2_app; [exact Hsh|]. repeat constructor. exact Hcd.
      - unfold s1. autorewrite with state. rewrite Htr, <- app_assoc.
        reflexivity.
      - unfold s1. autorewrite with state. exact Hl.
      - etrans; [exact Hk|]. unfold storages_kept, s1.
        autorewrite with state. by apply prefix_app_r.
      - rewrite last_snoc. simpl. f_equal. by apply captured_step. }
    change (length (dense_layers self)) with n.
    destruct (rld && (Z.of_nat (length done) =? Z.of_nat n - 2));
      apply wp_ret; exact Hpost.
  - intros xo s (ys & evs & Hrun & Hsh & Htr & Hl & Hk & ->).
    subst n layers. rewrite length_imap in *.
    rewrite firstn_all in Hrun.
    rewrite <- (dense_ok_length _ _ _ _ Hok), firstn_all in Hsh.
    by eapply HQ.
Qed.

(* ===================================================================== *)
(** * Year and location *)
(* ===================================================================== *)

Lemma lookup_bind_rows {A} (f : nat -> list A) (w s n b j : nat) :
  (forall i, length (f i) = w) -> (b < n)%nat -> (j < w)%nat ->
  (seq s n ≫= f) !! (b * w + j)%nat = f (s + b)%nat !! j.
Proof.
  intros Hlen. revert s b. induction n as [|n IH]; intros s b Hb Hj; [lia|].
  simpl. destruct b as [|b].
  - rewrite Nat.add_0_r. simpl. apply lookup_app_l. rewrite Hlen. exact Hj.
  - rewrite lookup_app_r by (rewrite Hlen; simpl; lia).
    rewrite Hlen. replace (S b * w + j - w)%nat with (b * w + j)%nat by (simpl; lia).
    rewrite IH by lia. f_equal. f_equal. lia.
Qed.

Lemma indices_vector w : indices [w] = (fun j => [j]) <$> seq 0 w.
Proof.
  simpl. generalize 0%nat. induction w as [|w IH]; intros s; simpl.
  - reflexivity.
  - f_equal; apply IH.
Qed.

Lemma fmap_lookup_seq {A} (d : A) (l : list A) :
  (fun j => default d (l !! j)) <$> seq 0 (length l) = l.
Proof.
  apply list_eq. intros i. rewrite list_lookup_fmap.
  destruct (l !! i) as [a|] eqn:Hi.
  - rewrite (lookup_seq_lt _ _ _ (lookup_lt_Some _ _ _ Hi)). simpl.
    rewrite Hi. reflexivity.
  - rewrite lookup_seq_ge; [reflexivity|]. by apply lookup_ge_None.
Qed.

Lemma length_row st t w b : length (row st t w b) = w.
Proof. unfold row. rewrite length_fmap, length_seq. reflexivity. Qed.

Lemma row_kept st st' t w b :
  storages_kept st st' -> allocated st t -> row st' t w b = row st t w b.
Proof.
  intros Hk Ha. unfold row. apply list_fmap_ext. intros _ j _.
  by apply storages_kept_tget.
Qed.

(** Row [i] of [cat((a, b), dim=1)] is row [i] of [a] followed by row [i]
    of [b]. *)
Lemma cat1_row st a b n wa wb i :
  (i < n)%nat ->
  let data := (i ← seq 0 n;
               ((fun idx => tget st a (i :: idx)) <$> indices [wa])
               ++ ((fun idx => tget st b (i :: idx)) <$> indices [wb])) in
  row (with_storages st (storages st ++ [data]))
      (Tensor (length (storages st)) 0 [n; (wa + wb)%nat]
              (contiguous_strides [n; (wa + wb)%nat]) (t_dev a))
      (wa + wb) i
  = row st a wa i ++ row st b wb i.
Proof.
  intros Hi data.
  assert (Hdata : data = (seq 0 n ≫= fun i => row st a wa i ++ row st b wb i)).
  { unfold data, row. apply list_bind_ext; [|reflexivity]. intros k.
    rewrite !indices_vector, <- !list_fmap_compose. reflexivity. }
  etrans; [|apply (fmap_lookup_seq 0%R)].
  rewrite length_app, !length_row.
  unfold row at 1. apply list_fmap_ext. intros j ? Hj.
  apply lookup_seq in Hj as [-> Hj].
  unfold tget. cbn [t_loc]. rewrite read_push_new.
  unfold offset_of. cbn [t_off t_stride contiguous_strides zip_with foldr numel].
  rewrite Hdata.
  replace (0 + (i * ((wa + wb) * 1) + ((0 + j) * 1 + 0)))%nat
    with (i * (wa + wb) + j)%nat by lia.
  rewrite (lookup_bind_rows _ (wa + wb)); try assumption.
  - reflexivity.
  - intros k. rewrite length_app, !length_row. reflexivity.
Qed.

Lemma wp_forward_year_loc self x years locations B H d st
    (Q : tensor -> state -> Prop) :
  t_shape x = [B; H] -> t_dev x = d -> allocated st x ->
  year_loc_ok st self d B years locations ->
  (forall a st',
      t_shape a = [B; dense_input_width self H] -> t_dev a = d ->
      allocated st' a -> only_allocates st st' ->
      (add_year_loc self = false -> a = x) ->
      (forall y l b,
          add_year_loc self = true ->
          years = Some y -> locations = Some l -> (b < B)%nat ->
          row st' a (H + 3) b
          = row st' x H b ++ [tget st' y [b]] ++ row st' l 2 b) ->
      Q a st') ->
  wp (forward_year_loc self x years locations) st Q.
Proof.
  intros Hx Hd Hax Hyl HQ. unfold forward_year_loc, dense_input_width in *.
  destruct (add_year_loc self) eqn:Hadd.
  - destruct (Hyl Hadd)
      as (y & l & -> & -> & Hys & Hls & Hystr & Hyd & Hld & Hay & Hal).
    destruct (t_stride y) as [|sy [|]] eqn:Hsy; try discriminate.
    apply wp_bind, wp_unsqueeze; [rewrite Hys; simpl; lia|].
    rewrite Hys, Hsy.
    cbn [take drop app lookup list_lookup].
    set (yu := Tensor (t_loc y) _ _ _ _).
    apply wp_bind, wp_ret, wp_bind.
    eapply (wp_cat1 yu l B 1 2 []); [reflexivity|exact Hls| |].
    { unfold yu. cbn [t_dev]. congruence. }
    set (st1 := with_storages st _).
    set (yl := Tensor (length (storages st)) _ _ _ _).
    eapply (wp_cat1 x yl B H 3 []); [exact Hx|reflexivity| |].
    { unfold yl, yu. cbn [t_dev]. congruence. }
    set (st2 := with_storages st1 _).
    set (a := Tensor (length (storages st1)) _ _ _ _).
    assert (H1 : only_allocates st st1) by apply only_allocates_push.
    assert (H2 : only_allocates st1 st2) by apply only_allocates_push.
    pose proof (only_allocates_kept _ _ H1) as K1.
    pose proof (only_allocates_kept _ _ H2) as K2.
    assert (Hayl : allocated st1 yl) by (apply allocated_push; reflexivity).
    apply HQ.
    + reflexivity.
    + unfold a. cbn [t_dev]. exact Hd.
    + apply allocated_push. reflexivity.
    + etrans; eassumption.
    + discriminate.
    + intros y' l' b _ [= <-] [= <-] Hb.
      etrans; [exact (cat1_row st1 x yl B H 3 b Hb)|].
      rewrite (row_kept st1 st2 x) by (first [exact K2 | by eapply allocated_kept]).
      f_equal.
      etrans; [exact (cat1_row st yu l B 1 2 b Hb)|].
      rewrite (row_kept st st2 l) by (first [by etrans | assumption]).
      f_equal.
      rewrite (storages_kept_tget st st2 y) by (first [by etrans | assumption]).
      unfold row, tget, offset_of, yu. simpl. rewrite Hsy. reflexivity.
  - apply wp_ret, HQ; try assumption; try reflexivity. discriminate.
Qed.

(* ===================================================================== *)
(** * One call of [forward], accounted for *)
(* ===================================================================== *)

Lemma bind_run {A B} (m : M A) (f : A -> M B) st a st' :
  m st = (inr a, st') -> (m ≫= f) st = f a st'.
Proof. intros Hm. unfold mbind, M_bind. rewrite Hm. reflexivity. Qed.

(** To establish [P] of the run of [m ≫= f], run [m] first. *)
Lemma wp_run_bind {A B} (m : M A) (f : A -> M B) st
    (P : (error + B) * state -> Prop) :
  wp m st (fun a st' => P (f a st')) -> P ((m ≫= f) st).
Proof.
  intros (a & st' & Hm & HP). unfold mbind, M_bind. rewrite Hm. exact HP.
Qed.

Lemma year_loc_ok_kept st st' self d B years locations :
  storages_kept st st' ->
  year_loc_ok st self d B years locations ->
  year_loc_ok st' self d B years locations.
Proof.
  intros Hk Hok Hadd.
  destruct (Hok Hadd) as (y & l & ? & ? & ? & ? & ? & ? & ? & Hy & Hl).
  exists y, l. split_and!; try assumption; by eapply allocated_kept.
Qed.

Lemma forward_run self x years locations rld st d B T F H widths :
  input_ok st x d B T F ->
  net_ok self d F H widths ->
  year_loc_ok st self d B years locations ->
  exists x' h0 c0 hT cT feat a evs_r evs_d ys,
    forward_account self x years locations rld st d B T F H widths
      (forward self x years locations rld st)
      x' h0 c0 hT cT feat a evs_r evs_d ys.
Proof.
  intros ((C & W & Hx & HF) & Hdx & Hdev) [Hrnn Hdense] Hyl.
  unfold forward.
  destruct (wp_forward_reshape x B C T W st
              (fun x' st' =>
                 t_shape x' = [B; T; F] /\
                 t_stride x' = contiguous_strides [B; T; F] /\
                 t_dev x' = t_dev x /\ only_allocates st st') Hx)
    as (x' & st1 & Hre & Hx' & Hstr' & Hdx' & Hst1).
  { intros ? ? ? ? ? ?. rewrite <- HF. auto. }
  rewrite (bind_run _ _ _ _ _ Hre).
  apply wp_run_bind. eapply wp_shape_at; [rewrite Hx'; reflexivity|].
  destruct (wp_forward_states self x' B [T; F] H st1
              (fun hc st' =>
                 t_shape hc.1 = [1%nat; B; H] /\ t_shape hc.2 = [1%nat; B; H]
                 /\ t_dev hc.1 = state_device st1 x'
                 /\ t_dev hc.2 = state_device st1 x'
                 /\ allocated st' hc.1 /\ only_allocates st1 st')
              Hx' (proj1 Hrnn))
    as ([h0 c0] & st2 & Hstates & Hh0 & Hc0 & Hdh & Hdc & Hah0 & Hst2).
  { intros. cbn [fst snd]. auto 10. }
  cbn [fst snd] in *.
  rewrite (bind_run _ _ _ _ _ Hstates).
  assert (Hsd : state_device st1 x' = d).
  { unfold state_device, is_cuda. rewrite Hdx', Hdx.
    destruct Hst1 as (_ & _ & Hcur & _). rewrite Hcur.
    destruct Hdev as [->| ->]; reflexivity. }
  rewrite Hsd in Hdh, Hdc. cbv beta iota.
  apply wp_run_bind.
  eapply (wp_forward_loop self x' h0 c0 B T F H d);
    try eassumption; [congruence|].
  intros hT cT evs_r st3 HhT HdT HaT Hun Htr3 Hl3 Hcur3 Hk3. cbv beta iota.
  apply wp_run_bind. eapply wp_squeeze0; [exact HhT|].
  set (feat := Tensor (t_loc hT) _ _ _ _).
  assert (Hk03 : storages_kept st st3).
  { etrans; [apply only_allocates_kept, Hst1|].
    etrans; [apply only_allocates_kept, Hst2|exact Hk3]. }
  apply wp_run_bind.
  eapply (wp_forward_year_loc self feat years locations B H d);
    [reflexivity|exact HdT|exact HaT|by eapply year_loc_ok_kept|].
  intros a st4 Ha Hda Haa Hst4 Hplain Hrows.
  unfold forward_output. apply wp_run_bind.
  eapply (wp_dense_loop self a rld B _ widths d); [exact Hdense|exact Ha|exact Hda|].
  intros ys evs_d st5 Hrun Hws Htr5 Hl5 Hk5.
  exists x', h0, c0, hT, cT, feat, a, evs_r, evs_d, ys.
  assert (Hfinal :
    (if rld
     then match captured rld (length (dense_layers self))
                         (length (dense_layers self)) ys with
          | Some output =>
              mret (OutputAndFeatures (default a (last ys)) output)
          | None => raise UnboundLocalError
          end
     else mret (Output (default a (last ys)))) st5
    = (forward_outcome rld (default a (last ys))
         (captured rld (length (dense_layers self))
                   (length (dense_layers self)) ys), st5)).
  { unfold forward_outcome. destruct rld; [|reflexivity].
    destruct (captured _ _ _ _); reflexivity. }
  rewrite Hfinal. cbn [fst snd].
  assert (Hk45 : storages_kept st4 st5) by exact Hk5.
  assert (Hk34 : storages_kept st3 st4) by apply only_allocates_kept, Hst4.
  assert (Hafeat : allocated st4 feat)
    by (eapply allocated_kept; [exact Hk34|exact HaT]).
  split; cbn [fst snd].
  - exists st1. split; [exact Hre|]. exists st2. exact Hstates.
  - exact Hx'.
  - auto.
  - exact Hun.
  - split; [|reflexivity]. unfold squeeze0. rewrite HhT. reflexivity.
  - exact Ha.
  - exact Hplain.
  - intros y l b Hadd Hy Hl Hb.
    destruct (Hyl Hadd) as (y' & l' & Hy' & Hl' & _ & _ & _ & _ & _ & Hay & Hal).
    rewrite Hy in Hy'. rewrite Hl in Hl'.
    injection Hy' as <-. injection Hl' as <-.
    rewrite (row_kept st4 st5 a), (row_kept st4 st5 feat), (row_kept st4 st5 l),
      (storages_kept_tget st4 st5 y); try assumption;
      try (eapply allocated_kept; [|eassumption]; by etrans).
    by eapply Hrows.
  - exact Hrun.
  - exact Hws.
  - rewrite Htr5. destruct Hst4 as (_ & _ & _ & -> & _). rewrite Htr3.
    destruct Hst2 as (_ & _ & _ & -> & _).
    destruct Hst1 as (_ & _ & _ & -> & _). rewrite app_assoc. reflexivity.
  - split.
    + etrans; [exact Hk03|]. etrans; [exact Hk34|exact Hk45].
    + rewrite Hl5. destruct Hst4 as (-> & _). rewrite Hl3.
      destruct Hst2 as (-> & _). destruct Hst1 as (-> & _). reflexivity.
  - reflexivity.
Qed.

(* ===================================================================== *)
(** * The recurrence, step by step *)
(* ===================================================================== *)

#[global] Instance only_dense_calls_preorder : PreOrder only_dense_calls.
Proof.
  split.
  - intros st. exists []. rewrite app_nil_r. split; [reflexivity|constructor].
  - intros a b c (e1 & H1 & F1) (e2 & H2 & F2). exists (e1 ++ e2).
    split; [rewrite H2, H1, app_assoc; reflexivity|by apply Forall_app].
Qed.

Lemma only_dense_calls_alloc dev shape data :
  keeps only_dense_calls (alloc dev shape data).
Proof.
  intros st. exists []. simpl. rewrite app_nil_r. split; [reflexivity|constructor].
Qed.

Lemma only_dense_calls_log w x y :
  keeps only_dense_calls (log (CallLinear w x y)).
Proof.
  intros st. exists [CallLinear w x y]. simpl.
  split; [reflexivity|repeat constructor].
Qed.

(** After the timestep loop, [forward] calls dense layers only. *)
Lemma only_dense_calls_after_loop self years locations rld hidden_state :
  keeps only_dense_calls
    (x ← squeeze0 hidden_state;
     x ← forward_year_loc self x years locations;
     forward_output self x rld).
Proof.
  keeps_split;
    first [apply only_dense_calls_alloc | apply only_dense_calls_log].
Qed.

(** The last step of a recurrence of at least one step: the cell is called
    on the last timestep, then dropout on the hidden state it returned. *)
Lemma unrolled_last x i n h c evs h' c' :
  unrolled x i (S n) h c evs h' c' ->
  exists pre slice hp cp out h1,
    evs = pre ++ [CallLSTM slice hp cp out h1 c'; CallDropout h1 h']
    /\ timestep x (i + n) slice.
Proof.
  revert i h c evs. induction n as [|n IH]; intros i h c evs Hun.
  - inversion Hun as [|? ? ? ? slice out h1 c1 h2 evs' ? ? Hts Hne Hrest]; subst.
    inversion Hrest; subst.
    exists [], slice, h, c, out, h1. rewrite Nat.add_0_r. auto.
  - inversion Hun as [|? ? ? ? slice out h1 c1 h2 evs' ? ? Hts Hne Hrest]; subst.
    destruct (IH _ _ _ _ Hrest) as (pre & sl & hp & cp & o & ha & -> & Hsl).
    exists (CallLSTM slice h c out h1 c1 :: CallDropout h1 h2 :: pre),
      sl, hp, cp, o, ha.
    split; [reflexivity|].
    replace (i + S n)%nat with (S i + n)%nat by lia. exact Hsl.
Qed.

(** C3.  For every forward call on a batch whose series have [T]
    timesteps, the recurrence is unrolled into exactly [T] steps, in the
    order of the timesteps: in step [i] the cell is called on the slice of
    timestep [i] with the current hidden and cell state, then dropout is
    called on the hidden state the cell returned, and the next step takes
    the result of dropout and the cell state as the cell returned it.  This
    holds for the last step too, and nothing but dense layers is called
    afterwards, also when the call raises later on. *)
Theorem forward_unrolls_recurrence (self : RNNet) (x : tensor)
    (years locations : option tensor) (return_last_dense : bool) (st : state)
    (d : device) (B T F H : nat) :
  input_ok st x d B T F ->
  rnn_ok self d F H ->
  exists x' st1 h0 c0 st2 hT cT evs rest,
    forward_reshape x st = (inr x', st1)
    /\ forward_states self x' st1 = (inr (h0, c0), st2)
    /\ t_shape x' = [B; T; F]
    /\ unrolled x' 0 T h0 c0 evs hT cT
    /\ length evs = (2 * T)%nat
    /\ Forall dense_call rest
    /\ trace (forward self x years locations return_last_dense st).2
       = trace st ++ evs ++ rest
    /\ ((1 <= T)%nat ->
        exists pre slice h c out h1,
          evs = pre ++ [CallLSTM slice h c out h1 cT; CallDropout h1 hT]
          /\ timestep x' (T - 1) slice).
Proof.
  intros ((C & W & Hx & HF) & Hdx & Hdev) Hrnn.
  destruct (wp_forward_reshape x B C T W st
              (fun x' st' =>
                 t_shape x' = [B; T; F] /\
                 t_stride x' = contiguous_strides [B; T; F] /\
                 t_dev x' = t_dev x /\ only_allocates st st') Hx)
    as (x' & st1 & Hre & Hx' & Hstr' & Hdx' & Hst1).
  { intros ? ? ? ? ? ?. rewrite <- HF. auto. }
  destruct (wp_forward_states self x' B [T; F] H st1
              (fun hc st' =>
                 t_shape hc.1 = [1%nat; B; H] /\ t_shape hc.2 = [1%nat; B; H]
                 /\ t_dev hc.1 = state_device st1 x'
                 /\ t_dev hc.2 = state_device st1 x'
                 /\ allocated st' hc.1 /\ only_allocates st1 st')
              Hx' (proj1 Hrnn))
    as ([h0 c0] & st2 & Hstates & Hh0 & Hc0 & Hdh & Hdc & Hah0 & Hst2).
  { intros. cbn [fst snd]. auto 10. }
  cbn [fst snd] in *.
  assert (Hsd : state_device st1 x' = d).
  { unfold state_device, is_cuda. rewrite Hdx', Hdx.
    destruct Hst1 as (_ & _ & Hcur & _). rewrite Hcur.
    destruct Hdev as [->| ->]; reflexivity. }
  rewrite Hsd in Hdh, Hdc.
  destruct (wp_forward_loop self x' h0 c0 B T F H d st2
              (fun hc st' =>
                 exists evs, unrolled x' 0 T h0 c0 evs hc.1 hc.2
                             /\ trace st' = trace st2 ++ evs))
    as ([hT cT] & st3 & Hloop & evs & Hun & Htr3);
    try assumption; [congruence| |].
  { intros hT cT evs st3 _ _ _ Hun Htr _ _ _. exists evs. auto. }
  cbn [fst snd] in *.
  pose proof (only_dense_calls_after_loop self years locations
                return_last_dense hT st3) as (rest & Hrest & Hdense).
  exists x', st1, h0, c0, st2, hT, cT, evs, rest.
  split_and!; try assumption.
  - by eapply unrolled_length.
  - unfold forward. rewrite (bind_run _ _ _ _ _ Hre).
    erewrite (bind_run (shape_at x' 1)); [|unfold shape_at; rewrite Hx'; reflexivity].
    rewrite (bind_run _ _ _ _ _ Hstates). cbv beta iota.
    rewrite (bind_run _ _ _ _ _ Hloop). cbv beta iota.
    rewrite Hrest, Htr3.
    destruct Hst2 as (_ & _ & _ & -> & _).
    destruct Hst1 as (_ & _ & _ & -> & _). rewrite app_assoc. reflexivity.
  - intros HT. destruct T as [|T]; [lia|].
    destruct (unrolled_last _ _ _ _ _ _ _ _ Hun)
      as (pre & slice & hp & cp & out & h1 & -> & Hsl).
    exists pre, slice, hp, cp, out, h1. split; [reflexivity|].
    replace (S T - 1)%nat with (0 + T)%nat by lia. exact Hsl.
Qed.

(* ===================================================================== *)
(** * What [forward] returns *)
(* ===================================================================== *)

Lemma year_loc_ok_plain st self d B years locations :
  add_year_loc self = false -> year_loc_ok st self d B years locations.
Proof. intros Hadd Htrue. congruence. Qed.

Lemma last_output_shape (a : tensor) ys widths B H d :
  t_shape a = [B; H] ->
  Forall2 (fun y w => t_shape y = [B; w] /\ t_dev y = d) ys widths ->
  t_shape (default a (last ys)) = [B; default H (last widths)].
Proof.
  intros Ha Hws. destruct (last ys) as [y|] eqn:Hy.
  - destruct (Forall2_last_l _ _ _ _ Hws Hy) as (w & -> & Hyw & _). exact Hyw.
  - apply last_None in Hy. subst ys. apply Forall2_nil_inv_l in Hws.
    subst widths. exact Ha.
Qed.

(** C6.  For every valid batch [batch, channels, time, bins], a network
    without year/location augmentation called without [return_last_dense]
    returns a single tensor of shape [batch, final_dense_width], the width
    being the output width of the last dense layer, that is the last entry
    of the dense-feature-size list [hidden_size :: widths]. *)
Theorem forward_output_shape (self : RNNet) (x : tensor)
    (years locations : option tensor) (st : state)
    (d : device) (B T F H : nat) (widths : list nat) :
  input_ok st x d B T F ->
  net_ok self d F H widths ->
  add_year_loc self = false ->
  exists y st',
    forward self x years locations false st = (inr (Output y), st')
    /\ t_shape y = [B; default H (last widths)].
Proof.
  intros Hin Hnet Hadd.
  destruct (forward_run self x years locations false st d B T F H widths
              Hin Hnet (year_loc_ok_plain _ _ _ _ _ _ Hadd))
    as (x' & h0 & c0 & hT & cT & feat & a & evs_r & evs_d & ys & Hacc).
  destruct (forward self x years locations false st) as [r st'] eqn:Hrun.
  destruct Hacc. cbn [fst snd] in *. subst r.
  exists (default a (last ys)), st'. split; [reflexivity|].
  eapply last_output_shape; [|eassumption].
  unfold dense_input_width in acc_input0. rewrite Hadd in acc_input0.
  exact acc_input0.
Qed.

Lemma demo_input_ok : input_ok demo_state demo_x CPU 1 3 1.
Proof.
  split; [exists 1%nat, 1%nat; split; reflexivity|].
  split; [reflexivity|]. left. reflexivity.
Defined.

Lemma demo_rnn_ok b : rnn_ok (demo_net b) CPU 1 2.
Proof.
  split; [reflexivity|]. split; [eexists; reflexivity|].
  split; [eexists; reflexivity|]. repeat constructor.
Defined.

Lemma demo_net_ok b : net_ok (demo_net b) CPU 1 2 [3; 1]%nat.
Proof.
  split; [apply demo_rnn_ok|]. destruct b; simpl; repeat split.
Defined.

Lemma forward_output_shape_witness :
  exists y st',
    forward (demo_net false) demo_x None None false demo_state
    = (inr (Output y), st')
    /\ t_shape y = [1; 1]%nat.
Proof.
  apply (forward_output_shape (demo_net false) demo_x None None demo_state
           CPU 1 3 1 2 [3; 1]%nat).
  - exact demo_input_ok.
  - exact (demo_net_ok false).
  - reflexivity.
Defined.

Lemma dense_run_last_two layers a b x evs ys :
  dense_run (layers ++ [a; b]) x evs ys ->
  exists pre inp feat out ys0,
    evs = pre ++ [CallLinear (weight a) inp feat; CallLinear (weight b) feat out]
    /\ ys = ys0 ++ [feat; out] /\ length ys0 = length layers.
Proof.
  revert x evs ys. induction layers as [|l layers IH]; intros x evs ys Hrun.
  - inversion Hrun as [|? ? ? feat evs1 ys1 Hrun1]; subst.
    inversion Hrun1 as [|? ? ? out evs2 ys2 Hrun2]; subst.
    inversion Hrun2; subst.
    exists [], x, feat, out, []. auto.
  - inversion Hrun as [|? ? ? y evs1 ys1 Hrun1]; subst.
    destruct (IH _ _ _ Hrun1) as (pre & inp & feat & out & ys0 & -> & -> & Hlen).
    exists (CallLinear (weight l) x y :: pre), inp, feat, out, (y :: ys0).
    simpl. auto.
Qed.

(** C5.  For every network with at least two dense layers, [a] being the
    second-to-last and [b] the last, forward with [return_last_dense=True]
    returns a pair whose second element is the output of [a], the very tensor
    [b] is then called on; its last dimension is the output width of [a]. *)
Theorem forward_returns_last_dense (self : RNNet) (x : tensor)
    (years locations : option tensor) (st : state)
    (d : device) (B T F H : nat) (widths : list nat)
    (layers : list Linear) (a b : Linear) :
  input_ok st x d B T F ->
  net_ok self d F H widths ->
  year_loc_ok st self d B years locations ->
  dense_layers self = layers ++ [a; b] ->
  exists out feat inp pre st',
    forward self x years locations true st
    = (inr (OutputAndFeatures out feat), st')
    /\ trace st'
       = pre ++ [CallLinear (weight a) inp feat; CallLinear (weight b) feat out]
    /\ last (t_shape feat) = Some (Z.to_nat (out_features a)).
Proof.
  intros Hin Hnet Hyl Hlayers.
  destruct (forward_run self x years locations true st d B T F H widths
              Hin Hnet Hyl)
    as (x' & h0 & c0 & hT & cT & ft & inp0 & evs_r & evs_d & ys & Hacc).
  destruct (forward self x years locations true st) as [r st'] eqn:Hrun.
  destruct Hacc. cbn [fst snd] in *. subst r.
  rewrite Hlayers in acc_dense0.
  destruct (dense_run_last_two _ _ _ _ _ _ acc_dense0)
    as (pre & inp & feat & out & ys0 & -> & -> & Hlen).
  exists out, feat, inp, (trace st ++ evs_r ++ pre), st'.
  assert (Hn : length (dense_layers self) = (length layers + 2)%nat)
    by (rewrite Hlayers, length_app; reflexivity).
  assert (Hfeat : (ys0 ++ [feat; out]) !! length layers = Some feat)
    by (apply list_lookup_middle; symmetry; exact Hlen).
  assert (Ha : dense_layers self !! length layers = Some a)
    by (rewrite Hlayers; apply list_lookup_middle; reflexivity).
  split_and!.
  - f_equal. unfold forward_outcome, captured. rewrite Hn.
    replace (2 <=? length layers + 2)%nat with true
      by (symmetry; apply Nat.leb_le; lia).
    replace (length layers + 2 - 2 <? length layers + 2)%nat with true
      by (symmetry; apply Nat.ltb_lt; lia).
    replace (length layers + 2 - 2)%nat with (length layers) by lia.
    cbn [andb]. rewrite Hfeat.
    replace (ys0 ++ [feat; out]) with ((ys0 ++ [feat]) ++ [out])
      by (rewrite <- app_assoc; reflexivity).
    rewrite last_snoc. reflexivity.
  - rewrite acc_trace0, <- !app_assoc. reflexivity.
  - destruct Hnet as [_ Hdense].
    destruct (dense_ok_lookup _ _ _ _ _ _ Hdense Ha) as (w & Hw & _ & Hout & _).
    destruct (Forall2_lookup_l _ _ _ _ _ acc_widths0 Hfeat) as (w' & Hw' & Hs & _).
    rewrite Hw in Hw'. injection Hw' as <-.
    rewrite Hs, Hout, Nat2Z.id. reflexivity.
Qed.

Lemma forward_returns_last_dense_witness :
  exists out feat inp pre st',
    forward (demo_net false) demo_x None None true demo_state
    = (inr (OutputAndFeatures out feat), st')
    /\ trace st'
       = pre ++ [CallLinear (cpu_tensor 4 [3; 2]%nat) inp feat;
                 CallLinear (cpu_tensor 6 [1; 3]%nat) feat out]
    /\ last (t_shape feat) = Some 3%nat.
Proof.
  apply (forward_returns_last_dense (demo_net false) demo_x None None
           demo_state CPU 1 3 1 2 [3; 1]%nat []
           (mkLinear 2 3 (cpu_tensor 4 [3; 2]%nat) (cpu_tensor 5 [3]%nat))
           (mkLinear 3 1 (cpu_tensor 6 [1; 3]%nat) (cpu_tensor 7 [1]%nat))).
  - exact demo_input_ok.
  - exact (demo_net_ok false).
  - apply year_loc_ok_plain. reflexivity.
  - reflexivity.
Defined.

(** C9.  A network built without year/location augmentation never looks
    at [years] and [locations]: from the same state (same parameters, same
    generator) the call returns the same result and leaves the same state
    whatever is passed for them, in particular nothing at all. *)
Theorem forward_ignores_year_loc (self : RNNet) (x : tensor)
    (years locations years' locations' : option tensor)
    (return_last_dense : bool) (st : state) :
  add_year_loc self = false ->
  forward self x years locations return_last_dense st
  = forward self x years' locations' return_last_dense st
  /\ forward self x years locations return_last_dense st
     = forward self x None None return_last_dense st.
Proof.
  intros Hadd. unfold forward, forward_year_loc. rewrite Hadd. auto.
Qed.

Lemma forward_ignores_year_loc_witness :
  forward (demo_net false) demo_x (Some demo_years) (Some demo_locations)
          true demo_state
  = forward (demo_net false) demo_x None (Some demo_x) true demo_state
  /\ forward (demo_net false) demo_x (Some demo_years) (Some demo_locations)
             true demo_state
     = forward (demo_net false) demo_x None None true demo_state.
Proof.
  apply (forward_ignores_year_loc (demo_net false) demo_x
           (Some demo_years) (Some demo_locations) None (Some demo_x)
           true demo_state).
  reflexivity.
Defined.

(* ===================================================================== *)
(** * Initialisation of the weights *)
(* ===================================================================== *)

Lemma overwrite_covered (f : nat -> R) (pairs : list (nat * nat))
    (s : list R) (o : nat) (v : R) :
  o ∈ pairs.*2 ->
  foldr (fun '(k, o) (s : list R) => <[o := f k]> s) s pairs !! o = Some v ->
  exists k, v = f k.
Proof.
  induction pairs as [|[k0 o0] pairs IH]; simpl; intros Ho Hv.
  - by apply elem_of_nil in Ho.
  - apply list_lookup_insert_Some in Hv as [(_ & <- & _)|[Hne Hv]]; [eauto|].
    apply IH; [|exact Hv]. apply elem_of_cons in Ho as [->|Ho]; [done|exact Ho].
Qed.

Lemma elements_same_storage st st' t :
  storages st' !! t_loc t = storages st !! t_loc t ->
  elements st' t = elements st t.
Proof.
  intros Hs. unfold elements. apply list_fmap_ext. intros _ idx _.
  unfold tget, read. rewrite Hs. reflexivity.
Qed.

(** After [t] has been overwritten with values that satisfy [P], all its
    elements satisfy [P]. *)
Lemma filled_overwrite (P : R -> Prop) t f st st' :
  P 0%R -> (forall k, P (f k)) ->
  storages st' = alter (overwrite t f) (t_loc t) (storages st) ->
  filled P st' t.
Proof.
  intros H0 Hf Hst. unfold filled, elements. apply Forall_fmap, Forall_forall.
  intros idx Hidx. simpl. unfold tget, read.
  rewrite Hst, list_lookup_alter_eq.
  destruct (storages st !! t_loc t) as [s|]; simpl; [|exact H0].
  destruct (overwrite t f s !! offset_of t idx) as [v|] eqn:Hv; simpl; [|exact H0].
  unfold overwrite in Hv. apply overwrite_covered in Hv as [k ->]; [apply Hf|].
  rewrite snd_zip
    by (rewrite length_fmap, length_seq, length_indices; reflexivity).
  apply list_elem_of_fmap. eauto.
Qed.

Lemma same_except_refl locs st : same_except locs st st.
Proof. unfold same_except. auto. Qed.

Lemma same_except_trans l1 l2 st1 st2 st3 :
  same_except l1 st1 st2 -> same_except l2 st2 st3 ->
  same_except (l1 ++ l2) st1 st3.
Proof.
  intros (Hg1 & Hl1 & Hs1) (Hg2 & Hl2 & Hs2). split_and!; try congruence.
  intros loc Hloc. rewrite Hs2, Hs1; [reflexivity| |];
    intros Hin; apply Hloc, elem_of_app; auto.
Qed.

Lemma same_except_mono l1 l2 st st' :
  l1 ⊆ l2 -> same_except l1 st st' -> same_except l2 st st'.
Proof.
  intros Hsub (Hg & Hl & Hs). split_and!; try assumption.
  intros loc Hloc. apply Hs. intros Hin. apply Hloc, Hsub, Hin.
Qed.

Lemma filled_same_except P locs st st' t :
  t_loc t ∉ locs -> same_except locs st st' -> filled P st t -> filled P st' t.
Proof.
  intros Hloc (_ & _ & Hs) Hf. unfold filled.
  rewrite (elements_same_storage st st'); [exact Hf|]. apply Hs, Hloc.
Qed.

Lemma unit_draws_same_except locs st st' :
  same_except locs st st' -> unit_draws st -> unit_draws st'.
Proof. intros (Hg & _) Hu n. rewrite Hg. apply Hu. Qed.

Lemma same_except_fill st t f n :
  same_except [t_loc t]
    st (with_storages (with_drawn st n)
                      (alter (overwrite t f) (t_loc t) (storages st))).
Proof.
  split_and!; try reflexivity.
  intros loc Hloc. rewrite storages_with_storages.
  apply list_lookup_alter_ne. intros Heq. apply Hloc, list_elem_of_singleton.
  symmetry. exact Heq.
Qed.

(** ** Signs of the bounds *)

(** Rounding keeps the sign it is given. *)
Lemma binary_round_aux_sign prec emax s m e l :
  match SpecFloat.binary_round_aux prec emax s m e l with
  | SpecFloat.S754_finite s' _ _ => s' = s
  | _ => True
  end.
Proof.
  unfold SpecFloat.binary_round_aux.
  destruct (SpecFloat.shr_fexp prec emax m e l) as [mrs e'].
  destruct (SpecFloat.shr_fexp prec emax _ e' SpecFloat.loc_Exact)
    as [mrs' e''].
  destruct (SpecFloat.shr_m mrs'); [exact I| |exact I].
  destruct (e'' <=? emax - prec); [reflexivity|exact I].
Qed.

Lemma binary_round_sign prec emax s m e :
  match SpecFloat.binary_round prec emax s m e with
  | SpecFloat.S754_finite s' _ _ => s' = s
  | _ => True
  end.
Proof.
  unfold SpecFloat.binary_round.
  destruct (SpecFloat.shl_align _ _ _) as [mz ez].
  apply binary_round_aux_sign.
Qed.

Lemma not_negative_round_aux prec emax m e l :
  not_negative (SpecFloat.binary_round_aux prec emax false m e l).
Proof.
  pose proof (binary_round_aux_sign prec emax false m e l) as H.
  destruct (SpecFloat.binary_round_aux _ _ _ _ _ _) as [| | |s ? ?];
    try exact I.
  subst s. exact I.
Qed.

Lemma not_negative_round prec emax m e :
  not_negative (SpecFloat.binary_round prec emax false m e).
Proof.
  pose proof (binary_round_sign prec emax false m e) as H.
  destruct (SpecFloat.binary_round _ _ _ _ _) as [| | |s ? ?]; try exact I.
  subst s. exact I.
Qed.

Lemma not_negative_math_sqrt x : not_negative (math_sqrt x).
Proof.
  destruct x as [s|[|]| |[|] m e]; try exact I.
  unfold math_sqrt, SpecFloat.SFsqrt.
  destruct (SpecFloat.SFsqrt_core_binary _ _ _ _) as [[mz ez] lz].
  apply not_negative_round_aux.
Qed.

Lemma not_negative_float_div x y :
  not_negative x -> not_negative y -> not_negative (float_div x y).
Proof.
  destruct x as [sx|sx| |[|] mx ex], y as [sy|sy| |[|] my ey];
    try exact (fun _ _ => I); try (intros []; fail); try (intros _ []; fail).
  intros _ _. unfold float_div, SpecFloat.SFdiv.
  destruct (SpecFloat.SFdiv_core_binary _ _ _ _ _ _) as [[mz ez] lz].
  apply not_negative_round_aux.
Qed.

Lemma not_negative_float_mul x y :
  not_negative x -> not_negative y -> not_negative (float_mul x y).
Proof.
  destruct x as [sx|sx| |[|] mx ex], y as [sy|sy| |[|] my ey];
    try exact (fun _ _ => I); try (intros []; fail); try (intros _ []; fail).
  intros _ _. apply not_negative_round_aux.
Qed.

Lemma not_negative_float_of_int n : 0 <= n -> not_negative (float_of_int n).
Proof.
  intros Hn. destruct n as [|m|m]; [exact I| |lia].
  apply not_negative_round.
Qed.

Lemma not_negative_int_true_div h : 0 < h -> not_negative (int_true_div 1 h).
Proof.
  intros Hh. destruct h as [|m|m]; [lia| |lia].
  unfold int_true_div, int_exact, SpecFloat.SFdiv.
  destruct (SpecFloat.SFdiv_core_binary _ _ _ _ _ _) as [[mz ez] lz].
  apply not_negative_round_aux.
Qed.

(** [math.sqrt] accepts the quotient of a positive hidden size. *)
Lemma round_aux_accepted prec emax m e l :
  float_ltb (SpecFloat.binary_round_aux prec emax false m e l)
            (float_of_int 0) = false.
Proof.
  unfold SpecFloat.binary_round_aux.
  destruct (SpecFloat.shr_fexp prec emax m e l) as [mrs e'].
  destruct (SpecFloat.shr_fexp prec emax _ e' SpecFloat.loc_Exact)
    as [mrs' e''].
  destruct (SpecFloat.shr_m mrs'); [reflexivity| |reflexivity].
  destruct (e'' <=? emax - prec); reflexivity.
Qed.

Lemma quotient_accepted h :
  0 < h -> float_ltb (int_true_div 1 h) (float_of_int 0) = false.
Proof.
  intros Hh. destruct h as [|m|m]; [lia| |lia].
  unfold int_true_div, int_exact, SpecFloat.SFdiv.
  destruct (SpecFloat.SFdiv_core_binary _ _ _ _ _ _) as [[mz ez] lz].
  apply round_aux_accepted.
Qed.

Lemma not_negative_to_single x : not_negative x -> not_negative (to_single x).
Proof.
  destruct x as [s|s| |[|] m e]; try exact (fun _ => I); [intros []|].
  intros _. apply not_negative_round.
Qed.

Lemma float_R_nonneg x : not_negative x -> (0 <= float_R x)%R.
Proof.
  intros Hx. destruct x as [s|s| |[|] m e]; simpl in *; try lra;
    try contradiction.
  apply Rmult_le_pos.
  - apply IZR_le. lia.
  - apply powerRZ_le. lra.
Qed.

Lemma single_R_nonneg x : not_negative x -> (0 <= single_R x)%R.
Proof. intros Hx. apply float_R_nonneg, not_negative_to_single, Hx. Qed.

(** The conversion to single precision commutes with the change of
    sign. *)
Lemma single_R_opp x : single_R (float_opp x) = (- single_R x)%R.
Proof.
  unfold single_R.
  destruct x as [s|s| |s m e]; simpl; try lra.
  unfold SpecFloat.binary_round.
  destruct (SpecFloat.shl_align _ _ _) as [mz ez].
  unfold SpecFloat.binary_round_aux.
  destruct (SpecFloat.shr_fexp 24 128 _ ez _) as [mrs e'].
  destruct (SpecFloat.shr_fexp 24 128 _ e' _) as [mrs' e''].
  destruct (SpecFloat.shr_m mrs'); simpl; try lra.
  destruct (e'' <=? 128 - 24); simpl; [|lra].
  destruct s; simpl; rewrite ?opp_IZR; lra.
Qed.

(** Every number between the two bounds is the outcome of a draw. *)
Lemma uniform_covers lo hi (v : R) :
  (single_R lo <= v <= single_R hi)%R ->
  exists u, (0 <= u <= 1)%R
            /\ (single_R lo + (single_R hi - single_R lo) * u)%R = v.
Proof.
  intros Hv. destruct (Req_dec (single_R hi) (single_R lo)) as [He|Hne].
  - exists 0%R. split; [lra|]. rewrite He in *. lra.
  - exists ((v - single_R lo) / (single_R hi - single_R lo))%R. split.
    + split.
      * apply Rmult_le_pos; [lra|]. left. apply Rinv_0_lt_compat. lra.
      * apply Rmult_le_reg_r with (single_R hi - single_R lo)%R; [lra|].
        unfold Rdiv. rewrite Rmult_assoc, Rinv_l by lra. lra.
    + field. lra.
Qed.

Lemma wp_uniform_ t b st (Q : unit -> state -> Prop) :
  not_negative b -> unit_draws st ->
  (forall st',
      filled (within (single_R b)) st' t ->
      same_except [t_loc t] st st' -> Q tt st') ->
  wp (uniform_ t (float_opp b) b) st Q.
Proof.
  intros Hb Hu HQ. unfold uniform_.
  apply wp_bind, wp_get_state, wp_bind.
  eapply wp_run; [reflexivity|]. eapply wp_run; [reflexivity|].
  pose proof (single_R_nonneg b Hb) as Hk.
  apply HQ; [|exact (same_except_fill st t _ _)].
  eapply filled_overwrite; [unfold within; lra| |reflexivity].
  intros k. simpl. rewrite single_R_opp. unfold within.
  specialize (Hu (g_pos (gen st) + k)%nat). nra.
Qed.

Lemma wp_constant_0 t st (Q : unit -> state -> Prop) :
  (forall st',
      filled (fun v => v = 0%R) st' t ->
      same_except [t_loc t] st st' -> Q tt st') ->
  wp (constant_ t 0) st Q.
Proof.
  intros HQ. unfold constant_. eapply wp_run; [reflexivity|].
  apply HQ.
  - eapply filled_overwrite; [reflexivity| |reflexivity]. reflexivity.
  - pose proof (same_except_fill st t (fun _ => 0%R) 0) as H.
    destruct H as (Hg & Hl & Hs). split_and!; assumption.
Qed.

Lemma wp_kaiming_uniform_ t a st (Q : unit -> state -> Prop) :
  (exists o i, t_shape t = [o; i]) -> unit_draws st ->
  (forall st', same_except [t_loc t] st st' -> Q tt st') ->
  wp (kaiming_uniform_ t a) st Q.
Proof.
  intros (o & i & Hs) Hu HQ. unfold kaiming_uniform_. rewrite Hs.
  destruct (numel [o; i] =? 0)%nat.
  - apply wp_ret, HQ, same_except_refl.
  - apply wp_uniform_; [|exact Hu|intros st' _; apply HQ].
    apply not_negative_float_mul; [apply not_negative_math_sqrt|].
    apply not_negative_float_div; apply not_negative_math_sqrt.
Qed.

(** A loop that initialises separate tensors one after the other: [touch i]
    are the storages step [i] writes, [good i] what it establishes. *)
Lemma wp_fill_each {I} (items : list I) (touch : I -> list nat)
    (good : I -> state -> Prop) (body : I -> unit -> M unit) st
    (Q : unit -> state -> Prop) :
  NoDup (items ≫= touch) ->
  (forall i L st st',
      good i st -> same_except L st st' ->
      (forall loc, loc ∈ touch i -> loc ∉ L) -> good i st') ->
  (forall i st0 (Q0 : unit -> state -> Prop),
      i ∈ items -> unit_draws st0 ->
      (forall st', good i st' -> same_except (touch i) st0 st' -> Q0 tt st') ->
      wp (body i tt) st0 Q0) ->
  unit_draws st ->
  (forall st',
      Forall (fun i => good i st') items ->
      same_except (items ≫= touch) st st' -> unit_draws st' -> Q tt st') ->
  wp (for_each items body tt) st Q.
Proof.
  intros Hnd Hstable Hbody Hu HQ.
  apply (wp_for_each
    (fun done (_ : unit) st' =>
       unit_draws st' /\ Forall (fun i => good i st') done
       /\ same_except (done ≫= touch) st st')).
  - split_and!; [exact Hu|constructor|apply same_except_refl].
  - intros done i rest [] s Heq (Hus & Hgood & Hsame).
    apply Hbody; [rewrite Heq; apply elem_of_app; right; left|exact Hus|].
    intros s' Hgi Hsi. split_and!.
    + eapply unit_draws_same_except; eassumption.
    + apply Forall_app. split; [|repeat constructor; exact Hgi].
      apply Forall_forall. intros j Hj.
      eapply Hstable; [|exact Hsi|].
      * eapply Forall_forall in Hgood; eassumption.
      * intros loc Hloc Hin. rewrite Heq, bind_app, bind_cons in Hnd.
        apply NoDup_app in Hnd as (_ & Hdisj & _).
        apply (Hdisj loc).
        -- apply list_elem_of_bind. eauto.
        -- apply elem_of_app. left. exact Hin.
    + rewrite bind_app. simpl. rewrite app_nil_r.
      eapply same_except_trans; eassumption.
  - intros [] s (Hus & Hgood & Hsame). by apply HQ.
Qed.

Lemma dense_parameter_locs (layers : list Linear) :
  t_loc <$> (l ← layers; [weight l; bias l])
  = layers ≫= (fun l => [t_loc (weight l); t_loc (bias l)]).
Proof.
  induction layers as [|l layers IH]; [reflexivity|].
  rewrite !bind_cons, fmap_app, IH. reflexivity.
Qed.

Lemma for_each_singleton {I S} (i : I) (body : I -> S -> M S) (s : S) :
  for_each [i] body s = (s' ← body i s; mret s').
Proof. reflexivity. Qed.

Lemma wp_initialize_weights_accepted self st (Q : unit -> state -> Prop) :
  hidden_size self <> 0 ->
  float_ltb (int_true_div 1 (hidden_size self)) (float_of_int 0) = false ->
  wf_parameters self -> unit_draws st ->
  (forall st',
      Forall (filled (within (recurrent_bound (hidden_size self))) st')
             (concat (all_weights (rnn self))) ->
      Forall (fun l => filled (fun v => v = 0%R) st' (bias l))
             (dense_layers self) ->
      same_except (t_loc <$> parameters self) st st' ->
      unit_draws st' ->
      Q tt st') ->
  wp (initialize_weights self) st Q.
Proof.
  intros Hh Hq [Hnd Hmat] Hu HQ. unfold initialize_weights.
  assert (H0 : (hidden_size self =? 0) = false) by (apply Z.eqb_neq; lia).
  rewrite H0. cbv zeta. rewrite Hq. apply wp_bind, wp_ret.
  set (k := recurrent_bound (hidden_size self)).
  unfold parameters in Hnd. rewrite fmap_app, dense_parameter_locs in Hnd.
  apply NoDup_app in Hnd as (Hnd1 & Hdisj & Hnd2).
  apply wp_bind. unfold all_weights at 1. rewrite for_each_singleton.
  apply wp_bind.
  apply (wp_fill_each _ (fun t => [t_loc t]) (fun t st' => filled (within k) st' t)).
  - exact Hnd1.
  - intros t L s s' Hg Hs HL. eapply filled_same_except; [|exact Hs|exact Hg].
    apply HL. left.
  - intros t s Q0 _ Hus HQ0.
    apply wp_uniform_; [apply not_negative_math_sqrt|exact Hus|exact HQ0].
  - exact Hu.
  - intros s1 Hrnn Hs1 Hu1. apply wp_ret.
    apply (wp_fill_each _ (fun l => [t_loc (weight l); t_loc (bias l)])
             (fun l st' => filled (fun v => v = 0%R) st' (bias l))).
    + exact Hnd2.
    + intros l L s s' Hg Hs HL. eapply filled_same_except; [|exact Hs|exact Hg].
      apply HL. right. left.
    + intros l s Q0 Hl Hus HQ0. apply wp_bind.
      eapply Forall_forall in Hmat; [|exact Hl].
      apply wp_kaiming_uniform_; [exact Hmat|exact Hus|].
      intros s' Hs'. apply wp_constant_0. intros s'' Hg Hs''.
      apply HQ0; [exact Hg|].
      eapply same_except_mono; [|eapply same_except_trans; eassumption].
      intros loc Hloc. exact Hloc.
    + exact Hu1.
    + intros s2 Hdense Hs2 Hu2. apply HQ; try assumption.
      * apply Forall_forall. intros t Ht.
        eapply filled_same_except; [|exact Hs2|].
        -- apply Hdisj. apply list_elem_of_fmap. eauto.
        -- eapply Forall_forall in Hrnn; eassumption.
      * unfold parameters. rewrite fmap_app, dense_parameter_locs.
        eapply same_except_trans; [|exact Hs2].
        eapply same_except_mono; [|exact Hs1].
        intros loc Hloc. simpl in *. exact Hloc.
Qed.

Lemma wp_initialize_weights self st (Q : unit -> state -> Prop) :
  0 < hidden_size self -> wf_parameters self -> unit_draws st ->
  (forall st',
      Forall (filled (within (recurrent_bound (hidden_size self))) st')
             (concat (all_weights (rnn self))) ->
      Forall (fun l => filled (fun v => v = 0%R) st' (bias l))
             (dense_layers self) ->
      same_except (t_loc <$> parameters self) st st' ->
      unit_draws st' ->
      Q tt st') ->
  wp (initialize_weights self) st Q.
Proof.
  intros Hh. apply wp_initialize_weights_accepted; [lia|].
  apply quotient_accepted, Hh.
Qed.


Lemma demo_unit_draws : unit_draws demo_state.
Proof. intros n. simpl. lra. Defined.

Lemma demo_trained_unit_draws : unit_draws demo_trained_state.
Proof. intros n. simpl. destruct (Nat.even n); lra. Defined.

Lemma demo_wf_parameters : wf_parameters (model demo_model).
Proof.
  split.
  - apply (bool_decide_unpack _). vm_compute. exact I.
  - repeat constructor; eexists _, _; reflexivity.
Defined.


(** The bound for [hidden_size = 6] is above the square root of 1/6. *)
Lemma recurrent_bound_6 : recurrent_bound 6 = (13698540 / 33554432)%R.
Proof.
  unfold recurrent_bound, single_R.
  assert (E : to_single (math_sqrt (int_true_div 1 6))
              = SpecFloat.S754_finite false 13698540 (-25))
    by (vm_compute; reflexivity).
  rewrite E. simpl. lra.
Qed.




(* ===================================================================== *)
(** * Construction *)
(* ===================================================================== *)

#[global] Instance quiet_preorder : PreOrder quiet.
Proof.
  split.
  - intros st. split_and!; reflexivity.
  - intros a b c (? & ? & ?) (? & ? & ?). split_and!; try congruence. lia.
Qed.

Lemma owned_quiet st st' locs : quiet st st' -> owned st locs -> owned st' locs.
Proof.
  intros (_ & _ & Hlen) [Hnd Hlt]. split; [exact Hnd|].
  eapply Forall_impl; [exact Hlt|]. intros loc Hloc. simpl in *. lia.
Qed.

(** A storage allocated after [locs] is different from all of them. *)
Lemma owned_snoc st st' locs loc :
  owned st locs -> loc = length (storages st) -> quiet st st' ->
  (loc < length (storages st'))%nat ->
  owned st' (locs ++ [loc]).
Proof.
  intros [Hnd Hlt] -> Hq Hnew. split.
  - apply NoDup_app. split_and!; [exact Hnd| |apply NoDup_singleton].
    intros loc Hin Heq. apply list_elem_of_singleton in Heq. subst loc.
    eapply Forall_forall in Hlt; [|exact Hin]. simpl in Hlt. lia.
  - apply Forall_app. split; [|repeat constructor; exact Hnew].
    destruct Hq as (_ & _ & Hlen).
    eapply Forall_impl; [exact Hlt|]. intros l Hl. simpl in *. lia.
Qed.

Lemma wp_new_list l st (Q : nat -> state -> Prop) :
  Q (length (lists st)) (with_lists st (lists st ++ [l])) ->
  wp (new_list l) st Q.
Proof. apply wp_run. reflexivity. Qed.

Lemma wp_read_list r l st (Q : list Z -> state -> Prop) :
  lists st !! r = Some l -> Q l st -> wp (read_list r) st Q.
Proof. intros Hr. apply wp_run. unfold read_list. rewrite Hr. reflexivity. Qed.

Lemma wp_list_insert0 r v l st (Q : unit -> state -> Prop) :
  lists st !! r = Some l ->
  Q tt (with_lists st (<[r := v :: l]> (lists st))) ->
  wp (list_insert0 r v) st Q.
Proof.
  intros Hr HQ. unfold list_insert0. apply wp_bind.
  eapply wp_read_list; [exact Hr|]. eapply wp_run; [reflexivity|exact HQ].
Qed.

Lemma wp_list_iadd r i v l a st (Q : unit -> state -> Prop) :
  lists st !! r = Some l -> l !! i = Some a ->
  Q tt (with_lists st (<[r := <[i := a + v]> l]> (lists st))) ->
  wp (list_iadd r i v) st Q.
Proof.
  intros Hr Hi HQ. unfold list_iadd. apply wp_bind.
  eapply wp_read_list; [exact Hr|]. rewrite Hi.
  eapply wp_run; [reflexivity|exact HQ].
Qed.

Lemma wp_list_len r l st (Q : Z -> state -> Prop) :
  lists st !! r = Some l -> Q (Z.of_nat (length l)) st -> wp (list_len r) st Q.
Proof.
  intros Hr HQ. unfold list_len. apply wp_bind.
  eapply wp_read_list; [exact Hr|]. apply wp_ret, HQ.
Qed.

Lemma wp_list_get r i l a st (Q : Z -> state -> Prop) :
  lists st !! r = Some l -> l !! i = Some a -> Q a st -> wp (list_get r i) st Q.
Proof.
  intros Hr Hi HQ. unfold list_get. apply wp_bind.
  eapply wp_read_list; [exact Hr|]. rewrite Hi. apply wp_ret, HQ.
Qed.

Lemma wp_Dropout_init p st (Q : Dropout -> state -> Prop) :
  Qle_bool 0 p = true -> Qle_bool p 1 = true ->
  Q (mkDropout p) st -> wp (Dropout_init p) st Q.
Proof.
  intros H0 H1 HQ. unfold Dropout_init. rewrite H0, H1. apply wp_ret, HQ.
Qed.

Lemma wp_empty dims st (Q : tensor -> state -> Prop) :
  Forall (fun d => 0 <= d) dims ->
  (forall t st',
      t_shape t = Z.to_nat <$> dims -> t_dev t = CPU -> quiet st st' ->
      (forall locs, owned st locs -> owned st' (locs ++ [t_loc t])) ->
      Q t st') ->
  wp (empty dims) st Q.
Proof.
  intros Hd HQ. unfold empty. apply wp_zeros; [exact Hd|].
  cbv zeta. set (st' := with_storages st _).
  assert (Hlen : length (storages st') = S (length (storages st)))
    by (unfold st'; rewrite storages_with_storages, length_app; simpl; lia).
  assert (Hq : quiet st st') by (split_and!; try reflexivity; lia).
  apply HQ; try reflexivity; [exact Hq|].
  intros locs Hown. eapply owned_snoc; [exact Hown|reflexivity|exact Hq|].
  cbn [t_loc]. lia.
Qed.

Lemma quiet_fill st t f n :
  quiet st (with_storages (with_drawn st n)
                          (alter (overwrite t f) (t_loc t) (storages st))).
Proof.
  split_and!; try reflexivity.
  rewrite storages_with_storages, length_alter. reflexivity.
Qed.

Lemma wp_uniform_quiet t lo hi st (Q : unit -> state -> Prop) :
  (forall st', quiet st st' -> Q tt st') -> wp (uniform_ t lo hi) st Q.
Proof.
  intros HQ. unfold uniform_. apply wp_bind, wp_get_state, wp_bind.
  eapply wp_run; [reflexivity|]. eapply wp_run; [reflexivity|].
  apply HQ. exact (quiet_fill st t _ _).
Qed.

Lemma wp_kaiming_quiet t a o i st (Q : unit -> state -> Prop) :
  t_shape t = [o; i] ->
  (forall st', quiet st st' -> Q tt st') -> wp (kaiming_uniform_ t a) st Q.
Proof.
  intros Hs HQ. unfold kaiming_uniform_. rewrite Hs.
  destruct (numel [o; i] =? 0)%nat.
  - apply wp_ret, HQ. reflexivity.
  - apply wp_uniform_quiet, HQ.
Qed.

Lemma wp_constant_quiet t v st (Q : unit -> state -> Prop) :
  (forall st', quiet st st' -> Q tt st') -> wp (constant_ t v) st Q.
Proof.
  intros HQ. unfold constant_. eapply wp_run; [reflexivity|].
  apply HQ. pose proof (quiet_fill st t (fun _ => v) 0) as (Hg & Hl & Hlen).
  split_and!; assumption.
Qed.

(** A loop of initialisers leaves the lists and the generator's outcomes
    as they are. *)
Lemma wp_for_each_quiet {I} (items : list I) (body : I -> unit -> M unit) st
    (Q : unit -> state -> Prop) :
  (forall i st0 (Q0 : unit -> state -> Prop),
      i ∈ items -> (forall st', quiet st0 st' -> Q0 tt st') ->
      wp (body i tt) st0 Q0) ->
  (forall st', quiet st st' -> Q tt st') ->
  wp (for_each items body tt) st Q.
Proof.
  intros Hbody HQ.
  apply (wp_for_each (fun _ (_ : unit) st' => quiet st st')).
  - reflexivity.
  - intros done i rest [] s Heq Hq. apply Hbody.
    + rewrite Heq. apply elem_of_app. right. left.
    + intros s' Hq'. etrans; eassumption.
  - intros [] s Hq. apply HQ, Hq.
Qed.

Lemma wp_LSTM_init n_in hidden st (Q : LSTM -> state -> Prop) :
  0 <= n_in -> 0 <= hidden ->
  (forall rnn st',
      t_shape (weight_ih_l0 rnn) = [Z.to_nat (4 * hidden); Z.to_nat n_in] ->
      t_shape (weight_hh_l0 rnn) = [Z.to_nat (4 * hidden); Z.to_nat hidden] ->
      Forall (fun t => t_dev t = CPU) (concat (all_weights rnn)) ->
      quiet st st' ->
      (forall locs,
          owned st locs ->
          owned st' (locs ++ (t_loc <$> concat (all_weights rnn)))) ->
      Q rnn st') ->
  wp (LSTM_init n_in hidden) st Q.
Proof.
  intros Hin Hh HQ. unfold LSTM_init.
  apply wp_bind, wp_empty; [repeat constructor; lia|].
  intros w_ih s1 Hs1 Hd1 Hq1 Ho1.
  apply wp_bind, wp_empty; [repeat constructor; lia|].
  intros w_hh s2 Hs2 Hd2 Hq2 Ho2.
  apply wp_bind, wp_empty; [repeat constructor; lia|].
  intros b_ih s3 Hs3 Hd3 Hq3 Ho3.
  apply wp_bind, wp_empty; [repeat constructor; lia|].
  intros b_hh s4 Hs4 Hd4 Hq4 Ho4.
  cbv zeta. apply wp_bind, wp_for_each_quiet.
  - intros t s Q0 _ HQ0. apply wp_uniform_quiet, HQ0.
  - intros s5 Hq5. apply wp_ret, HQ; try assumption.
    + repeat constructor; assumption.
    + do 4 (etrans; [eassumption|]). assumption.
    + intros locs Hown. apply (owned_quiet s4 s5); [exact Hq5|].
      apply Ho1, Ho2, Ho3, Ho4 in Hown. rewrite <- !app_assoc in Hown.
      exact Hown.
Qed.

Lemma wp_Linear_init n_in n_out st (Q : Linear -> state -> Prop) :
  0 <= n_in -> 0 <= n_out ->
  (forall layer st',
      in_features layer = n_in -> out_features layer = n_out ->
      t_shape (weight layer) = [Z.to_nat n_out; Z.to_nat n_in] ->
      t_dev (weight layer) = CPU -> t_dev (bias layer) = CPU ->
      quiet st st' ->
      (forall locs,
          owned st locs ->
          owned st' (locs ++ [t_loc (weight layer); t_loc (bias layer)])) ->
      Q layer st') ->
  wp (Linear_init n_in n_out) st Q.
Proof.
  intros Hin Hout HQ. unfold Linear_init.
  apply wp_bind, wp_empty; [repeat constructor; lia|].
  intros w s1 Hs1 Hd1 Hq1 Ho1.
  apply wp_bind, wp_empty; [repeat constructor; lia|].
  intros b s2 Hs2 Hd2 Hq2 Ho2.
  apply wp_bind. eapply wp_kaiming_quiet; [exact Hs1|]. intros s3 Hq3.
  apply wp_bind, wp_uniform_quiet. intros s4 Hq4.
  apply wp_ret, HQ; try assumption; try reflexivity.
  - do 3 (etrans; [eassumption|]). assumption.
  - intros locs Hown. apply (owned_quiet s2 s4); [etrans; eassumption|].
    apply Ho1, Ho2 in Hown. rewrite <- app_assoc in Hown. exact Hown.
Qed.

Lemma wp_initialize_weights_quiet self st (Q : unit -> state -> Prop) :
  0 < hidden_size self ->
  Forall (fun l => exists o i, t_shape (weight l) = [o; i]) (dense_layers self) ->
  (forall st', quiet st st' -> Q tt st') ->
  wp (initialize_weights self) st Q.
Proof.
  intros Hh Hmat HQ. unfold initialize_weights.
  assert (H0 : (hidden_size self =? 0) = false) by (apply Z.eqb_neq; lia).
  rewrite H0. cbv zeta. rewrite (quotient_accepted _ Hh). apply wp_bind, wp_ret, wp_bind.
  apply wp_for_each_quiet.
  - intros ps s Q0 _ HQ0. apply wp_for_each_quiet; [|exact HQ0].
    intros t s' Q1 _ HQ1. apply wp_uniform_quiet, HQ1.
  - intros s1 Hq1. apply wp_for_each_quiet.
    + intros l s Q0 Hl HQ0. eapply Forall_forall in Hmat; [|exact Hl].
      destruct Hmat as (o & i & Hs). apply wp_bind.
      eapply wp_kaiming_quiet; [exact Hs|]. intros s' Hq'.
      apply wp_constant_quiet. intros s'' Hq''. apply HQ0. by etrans.
    + intros s2 Hq2. apply HQ. by etrans.
Qed.

Lemma wp_init_dense_features (hidden : Z) (df : option nat) (add : bool)
    (dense : list Z) (st : state) (Q : nat -> state -> Prop) :
  dense_features_are st df dense ->
  (forall st',
      lists st' !! default (length (lists st)) df
      = Some ((if add then hidden + 3 else hidden) :: dense) ->
      g_unif (gen st') = g_unif (gen st) ->
      Q (default (length (lists st)) df) st') ->
  wp (RNNet_init_dense_features hidden df add) st Q.
Proof.
  intros Hdf HQ. unfold RNNet_init_dense_features.
  assert (Hstart :
    wp (match df with
        | Some r => mret r
        | None => new_list [256; 1]
        end) st
       (fun r s0 => r = default (length (lists st)) df
                    /\ lists s0 !! r = Some dense
                    /\ g_unif (gen s0) = g_unif (gen st))).
  { destruct df as [r|]; simpl in *.
    - apply wp_ret. auto.
    - subst dense. apply wp_new_list. split_and!; try reflexivity.
      rewrite lists_with_lists. apply list_lookup_middle. reflexivity. }
  apply wp_bind. eapply wp_mono; [exact Hstart|].
  intros r0 s0 [-> [Hr Hg0]]. set (r := default (length (lists st)) df) in *.
  apply wp_bind. eapply wp_list_insert0; [exact Hr|].
  set (s1 := with_lists s0 _).
  assert (Hr1 : lists s1 !! r = Some (hidden :: dense)).
  { unfold s1. rewrite lists_with_lists. apply list_lookup_insert_eq.
    by eapply lookup_lt_Some. }
  destruct add.
  - apply wp_bind. eapply wp_list_iadd; [exact Hr1|reflexivity|].
    apply wp_ret, HQ; [|exact Hg0].
    rewrite lists_with_lists. apply list_lookup_insert_eq.
    by eapply lookup_lt_Some.
  - apply wp_bind, wp_ret, wp_ret, HQ; [exact Hr1|exact Hg0].
Qed.

Lemma lookup_cons_last {A} (v : A) (l : list A) k a :
  (v :: l) !! k = Some a -> default v (last (take k l)) = a.
Proof.
  revert v k. induction l as [|x l IH]; intros v [|k] Hk; simpl in *.
  - congruence.
  - discriminate.
  - congruence.
  - rewrite <- (IH x k Hk).
    destruct (take k l) as [|y ys] eqn:Ht; [reflexivity|].
    rewrite last_cons_cons.
    destruct (last (y :: ys)) eqn:Hl; [reflexivity|].
    apply last_None in Hl. discriminate.
Qed.

Lemma dense_ok_snoc d n_in layers widths l w :
  dense_ok d n_in layers widths ->
  in_features l = Z.of_nat (default n_in (last widths)) ->
  out_features l = Z.of_nat w ->
  t_shape (weight l) = [w; default n_in (last widths)] ->
  t_dev (weight l) = d -> t_dev (bias l) = d ->
  dense_ok d n_in (layers ++ [l]) (widths ++ [w]).
Proof.
  revert n_in widths.
  induction layers as [|l0 layers IH]; intros n_in [|w0 widths] Hok; simpl in *;
    try tauto.
  destruct Hok as (? & ? & ? & ? & ? & Hok). intros Hin Hout Hs Hd1 Hd2.
  split_and!; try assumption.
  assert (Hlast : default n_in (last (w0 :: widths)) = default w0 (last widths)).
  { destruct widths as [|w1 ws]; [reflexivity|]. rewrite last_cons_cons.
    destruct (last (w1 :: ws)) eqn:Hl; [reflexivity|].
    apply last_None in Hl. discriminate. }
  rewrite Hlast in Hin, Hs. by apply IH.
Qed.

(** [RNNet.__init__] on acceptable hyperparameters: it returns a network
    whose layers fit together, with one dense layer per entry of the list of
    dense feature sizes, and it leaves the hidden size (plus 3 with
    augmentation) prepended to that list. *)
Lemma wp_RNNet_init (in_channels num_bins hidden : Z) (p : Q)
    (df : option nat) (add : bool) (dense : list Z) (st : state)
    (Q : RNNet -> state -> Prop) :
  hyperparameters_ok in_channels num_bins hidden p dense ->
  dense_features_are st df dense ->
  (forall self st',
      lists st' !! default (length (lists st)) df
      = Some ((if add then hidden + 3 else hidden) :: dense) ->
      add_year_loc self = add -> hidden_size self = hidden ->
      net_ok self CPU (Z.to_nat (in_channels * num_bins)) (Z.to_nat hidden)
             (Z.to_nat <$> dense) ->
      length (dense_layers self) = length dense ->
      wf_parameters self ->
      Q self st') ->
  wp (RNNet_init in_channels num_bins hidden p df add) st Q.
Proof.
  intros (Hh & Hin & Hp0 & Hp1 & Hdense) Hdf HQ. unfold RNNet_init.
  set (v := if add then hidden + 3 else hidden).
  assert (Hv : 0 <= v) by (unfold v; destruct add; lia).
  apply wp_bind. eapply wp_init_dense_features; [exact Hdf|].
  intros s0. fold v. set (r := default (length (lists st)) df).
  intros Hr0 _.
  apply wp_bind, wp_Dropout_init; [exact Hp0|exact Hp1|].
  apply wp_bind, wp_LSTM_init; [exact Hin|lia|].
  intros rnn s1 Hih Hhh Hdevs (_ & Hl1 & _) Hown1.
  assert (Hr1 : lists s1 !! r = Some (v :: dense)) by (rewrite Hl1; exact Hr0).
  assert (Hown0 : owned s0 []) by (split; constructor).
  apply Hown1 in Hown0. simpl in Hown0.
  apply wp_bind. eapply wp_list_len; [exact Hr1|].
  replace (Z.to_nat (Z.of_nat (length (v :: dense))) - 1)%nat
    with (length dense) by (rewrite Nat2Z.id; simpl; lia).
  apply wp_bind.
  apply (wp_for_each
    (fun done layers s =>
       lists s = lists s1
       /\ length layers = length done
       /\ dense_ok CPU (Z.to_nat v) layers
                   (Z.to_nat <$> take (length done) dense)
       /\ Forall (fun l => exists o i, t_shape (weight l) = [o; i]) layers
       /\ owned s ((t_loc <$> concat (all_weights rnn))
                   ++ (layers ≫= fun l => [t_loc (weight l); t_loc (bias l)])))).
  - split_and!;
      first [reflexivity | exact I | apply Forall_nil_2 | simpl; apply Hown0].
  - intros done i rest layers s Heq (Hl & Hlen & Hok & Hmat & Hown).
    change (owned s ((t_loc <$> concat (all_weights rnn))
                     ++ (layers ≫= fun l => [t_loc (weight l); t_loc (bias l)])))
      in Hown.
    apply seq_middle in Heq as [-> Hlt].
    replace (1 + length done - 1)%nat with (length done) by lia.
    destruct (lookup_lt_is_Some_2 dense (length done) Hlt) as [n_out Hn_out].
    assert (Hn_in : exists n_in, (v :: dense) !! length done = Some n_in)
      by (apply lookup_lt_is_Some_2; simpl; lia).
    destruct Hn_in as [n_in Hn_in].
    assert (Hr : lists s !! r = Some (v :: dense)) by (rewrite Hl; exact Hr1).
    assert (Hnn_in : 0 <= n_in).
    { apply (Forall_lookup_1 (fun w => 0 <= w) (v :: dense) (length done));
        [constructor; assumption|exact Hn_in]. }
    assert (Hnn_out : 0 <= n_out)
      by (eapply (Forall_lookup_1 (fun w => 0 <= w)); eassumption).
    apply wp_bind. eapply wp_list_get; [exact Hr|exact Hn_in|].
    apply wp_bind. eapply wp_list_get; [exact Hr|exact Hn_out|].
    apply wp_bind, wp_Linear_init; [exact Hnn_in|exact Hnn_out|].
    intros layer s' Hfin Hfout Hs Hd1 Hd2 (_ & Hl' & _) Hown'.
    apply wp_ret. rewrite !length_app. simpl.
    replace (length done + 1)%nat with (S (length done)) by lia.
    assert (Hprev : default (Z.to_nat v)
                      (last (Z.to_nat <$> take (length done) dense))
                    = Z.to_nat n_in).
    { rewrite fmap_last. rewrite <- (lookup_cons_last _ _ _ _ Hn_in).
      destruct (last (take (length done) dense)); reflexivity. }
    assert (Hown2 :
      owned s' ((t_loc <$> concat (all_weights rnn))
                ++ ((layers ++ [layer])
                      ≫= fun l => [t_loc (weight l); t_loc (bias l)]))).
    { rewrite bind_app, app_assoc. exact (Hown' _ Hown). }
    split_and!; try apply Hown2.
    + congruence.
    + lia.
    + rewrite (take_S_r _ _ _ Hn_out), fmap_app. simpl.
      apply dense_ok_snoc; try assumption; rewrite ?Hprev.
      * rewrite Hfin, Z2Nat.id by assumption. reflexivity.
      * rewrite Hfout, Z2Nat.id by assumption. reflexivity.
      * exact Hs.
    + apply Forall_app. split; [exact Hmat|]. repeat constructor. eauto.
  - intros layers s2. rewrite !length_seq, firstn_all.
    intros (Hl2 & Hlen & Hok & Hmat & Hnd & _). cbv zeta.
    apply wp_bind, wp_initialize_weights_quiet; [exact Hh|exact Hmat|].
    intros s3 (_ & Hl3 & _). apply wp_ret, HQ.
    + fold r v. rewrite Hl3, Hl2. exact Hr1.
    + reflexivity.
    + reflexivity.
    + split.
      * split_and!; simpl.
        -- rewrite Z2Nat.id by lia. reflexivity.
        -- eexists. exact Hih.
        -- eexists. exact Hhh.
        -- exact Hdevs.
      * simpl. unfold dense_input_width. simpl.
        replace (if add then (Z.to_nat hidden + 3)%nat else Z.to_nat hidden)
          with (Z.to_nat v); [exact Hok|].
        unfold v. destruct add; [|reflexivity]. rewrite Z2Nat.inj_add by lia.
        reflexivity.
    + simpl. exact Hlen.
    + split; [|exact Hmat].
      change (NoDup (t_loc <$> (concat (all_weights rnn)
                                ++ (l ← layers; [weight l; bias l])))).
      rewrite fmap_app, dense_parameter_locs. exact Hnd.
Qed.

(* ===================================================================== *)
(** * The factory [RNNModel] *)
(* ===================================================================== *)

(** For a caller-provided list the factory counts the entries of the list
    after [RNNet.__init__] has prepended the hidden size to it: the index in
    the parameter names is the number of dense layers, not the index of the
    last one. *)
Lemma RNNModel_init_caller_list (in_channels num_bins hidden : Z) (p : Q)
    (r : nat) (add : bool) (dense : list Z) (st : state) :
  hyperparameters_ok in_channels num_bins hidden p dense ->
  lists st !! r = Some dense ->
  exists m st',
    RNNModel_init in_channels num_bins hidden p (Some r) add st = (inr m, st')
    /\ length (dense_layers (model m)) = length dense
    /\ model_weight m
       = ("dense_layers." ++ str_of_int (Z.of_nat (length dense)) ++ ".weight")%string
    /\ model_bias m
       = ("dense_layers." ++ str_of_int (Z.of_nat (length dense)) ++ ".bias")%string.
Proof.
  intros Hhyp Hr. unfold RNNModel_init.
  apply wp_bind. eapply wp_RNNet_init; [exact Hhyp|exact Hr|].
  intros self st' Hr' _ _ _ Hlen _. simpl in Hr'.
  apply wp_bind. eapply wp_list_len; [exact Hr'|].
  apply wp_ret. simpl.
  replace (Z.of_nat (S (length dense)) - 1) with (Z.of_nat (length dense)) by lia.
  auto.
Qed.

(** For the default list the factory uses the constant 2, which is the
    number of dense layers of the default network: the names are those of
    the last dense layer. *)
Lemma RNNModel_init_default_list (in_channels num_bins hidden : Z) (p : Q)
    (add : bool) (st : state) :
  hyperparameters_ok in_channels num_bins hidden p [256; 1] ->
  exists m st',
    RNNModel_init in_channels num_bins hidden p None add st = (inr m, st')
    /\ length (dense_layers (model m)) = 2%nat
    /\ model_weight m = "dense_layers.1.weight"%string
    /\ model_bias m = "dense_layers.1.bias"%string.
Proof.
  intros Hhyp. unfold RNNModel_init.
  apply wp_bind. eapply (wp_RNNet_init _ _ _ _ None); [exact Hhyp|reflexivity|].
  intros self st' _ _ _ _ Hlen _.
  apply wp_bind, wp_ret, wp_ret. simpl. auto.
Qed.

(** Every model the factory builds on acceptable hyperparameters has
    separate parameter tensors and a positive hidden size: what
    [reinitialize_model] is specified for below. *)
Lemma RNNModel_init_wf_parameters (in_channels num_bins hidden : Z) (p : Q)
    (df : option nat) (add : bool) (dense : list Z) (st : state) :
  hyperparameters_ok in_channels num_bins hidden p dense ->
  dense_features_are st df dense ->
  exists m st',
    RNNModel_init in_channels num_bins hidden p df add st = (inr m, st')
    /\ wf_parameters (model m) /\ hidden_size (model m) = hidden.
Proof.
  intros Hhyp Hdf. unfold RNNModel_init.
  apply wp_bind. eapply wp_RNNet_init; [exact Hhyp|exact Hdf|].
  intros self st' Hr' _ Hh _ _ Hwf. apply wp_bind.
  destruct df as [r|]; simpl in Hr'.
  - eapply wp_list_len; [exact Hr'|]. apply wp_ret. simpl. auto.
  - apply wp_ret, wp_ret. simpl. auto.
Qed.

(** C1 (as the code behaves).  Built with the caller's list [[256, 1]], the
    network has the dense layers 0 and 1, but the factory hands
    'dense_layers.2.weight' and 'dense_layers.2.bias' to the base class:
    names of no parameter of the network. *)
Theorem caller_list_names (g : generator) (cur : nat) :
  names_of (caller_list_model (initial_state g cur))
  = inr ("dense_layers.2.weight", "dense_layers.2.bias",
         ["dense_layers.0.weight"; "dense_layers.0.bias";
          "dense_layers.1.weight"; "dense_layers.1.bias"])%string.
Proof. vm_compute. reflexivity. Qed.

(** With [dense_features=None] the names are those of the last layer. *)
Lemma default_list_names (g : generator) (cur : nat) :
  names_of (default_list_model (initial_state g cur))
  = inr ("dense_layers.1.weight", "dense_layers.1.bias",
         ["dense_layers.0.weight"; "dense_layers.0.bias";
          "dense_layers.1.weight"; "dense_layers.1.bias"])%string.
Proof. vm_compute. reflexivity. Qed.

(* ===================================================================== *)
(** * The specification scenario, run *)
(* ===================================================================== *)

(** C2 (first half).  In the scenario channels=1, bins=1, hidden_size=2,
    dense_features=[1], batch=1, time=3, without augmentation, [forward]
    returns a single tensor of shape [1,1]. *)
Lemma scenario_output_shape (g : generator) (cur : nat) (a b c : R) :
  shapes_of (scenario [a; b; c] false (initial_state g cur))
  = inr [[1; 1]%nat].
Proof. vm_compute. reflexivity. Qed.

(** C2 (second half, as the code behaves).  In the same scenario with
    [return_last_dense=True] the network has a single dense layer, no layer
    has number [len(dense_layers) - 2 = -1], [output] is never assigned and
    [forward] raises UnboundLocalError instead of returning the pair of
    shapes [1,1] and [1,2]. *)
Theorem scenario_return_last_dense_raises (g : generator) (cur : nat)
    (a b c : R) :
  shapes_of (scenario [a; b; c] true (initial_state g cur))
  = inl UnboundLocalError.
Proof. vm_compute. reflexivity. Qed.

(** In general: with fewer than two dense layers, a call with
    [return_last_dense=True] on a valid input runs all layers and then raises
    UnboundLocalError. *)
Lemma forward_single_layer_raises self x years locations st d B T F H widths :
  input_ok st x d B T F ->
  net_ok self d F H widths ->
  year_loc_ok st self d B years locations ->
  (length (dense_layers self) < 2)%nat ->
  (forward self x years locations true st).1 = inl UnboundLocalError.
Proof.
  intros Hin Hnet Hyl Hlen.
  destruct (forward_run self x years locations true st d B T F H widths
              Hin Hnet Hyl)
    as (x' & h0 & c0 & hT & cT & ft & a & evs_r & evs_d & ys & Hacc).
  destruct Hacc. rewrite acc_result0. unfold forward_outcome, captured.
  replace (2 <=? length (dense_layers self))%nat with false
    by (symmetry; apply Nat.leb_gt; exact Hlen).
  reflexivity.
Qed.

(* ===================================================================== *)
(** * Year and location augmentation *)
(* ===================================================================== *)

(** C7.  With [add_year_loc=True]:
    - construction returns a network for which the list of dense feature
      sizes starts with [hidden_size + 3] and whose first dense layer takes
      [hidden_size + 3] input features;
    - in every forward call of a network with augmentation, on a valid batch
      with a year per example and a 2-component location per example, the
      features [feat] left by the recurrence (the last hidden state, after
      dropout, without its leading dimension) are extended to a tensor [a]
      of shape [batch, hidden_size + 3] whose row [b] is row [b] of [feat],
      then the year of example [b], then its location; the dense layers run
      on [a]. *)
Theorem year_loc_augmentation
    (in_channels num_bins hidden : Z) (p : Q) (df : option nat)
    (dense : list Z) (st0 : state)
    (self : RNNet) (x y l : tensor) (return_last_dense : bool) (st : state)
    (d : device) (B T F H : nat) (widths : list nat) :
  hyperparameters_ok in_channels num_bins hidden p dense ->
  dense_features_are st0 df dense ->
  net_ok self d F H widths ->
  add_year_loc self = true ->
  input_ok st x d B T F ->
  year_loc_ok st self d B (Some y) (Some l) ->
  (exists net st1,
      RNNet_init in_channels num_bins hidden p df true st0 = (inr net, st1)
      /\ add_year_loc net = true
      /\ lists st1 !! default (length (lists st0)) df
         = Some (hidden + 3 :: dense)
      /\ net_ok net CPU (Z.to_nat (in_channels * num_bins)) (Z.to_nat hidden)
                (Z.to_nat <$> dense)
      /\ forall first rest,
           dense_layers net = first :: rest ->
           in_features first = hidden + 3
           /\ exists n_out,
                t_shape (weight first) = [n_out; (Z.to_nat hidden + 3)%nat])
  /\ (let st' := (forward self x (Some y) (Some l) return_last_dense st).2 in
      exists x' h0 c0 hT cT feat a evs_r evs_d ys,
        unrolled x' 0 T h0 c0 evs_r hT cT
        /\ squeeze0 hT st' = (inr feat, st')
        /\ t_shape feat = [B; H]
        /\ t_shape a = [B; (H + 3)%nat]
        /\ (forall b, (b < B)%nat ->
              row st' a (H + 3) b
              = row st' feat H b ++ [tget st' y [b]] ++ row st' l 2 b)
        /\ dense_run (dense_layers self) a evs_d ys
        /\ trace st' = trace st ++ evs_r ++ evs_d).
Proof.
  intros Hhyp Hdf Hnet Hadd Hin Hyl. split.
  - eapply wp_RNNet_init; [exact Hhyp|exact Hdf|].
    intros net st1 Hl Ha Hh Hok Hlen _. split_and!; try assumption.
    intros first rest Hfirst. destruct Hok as [_ Hdense].
    rewrite Hfirst in Hdense. unfold dense_input_width in Hdense.
    rewrite Ha in Hdense.
    destruct (Z.to_nat <$> dense) as [|w ws]; [destruct Hdense|].
    destruct Hdense as (Hfin & _ & Hs & _).
    split; [|eauto]. rewrite Hfin.
    destruct Hhyp as (Hpos & _). lia.
  - intros st'.
    destruct (forward_run self x (Some y) (Some l) return_last_dense st
                d B T F H widths Hin Hnet Hyl)
      as (x' & h0 & c0 & hT & cT & feat & a & evs_r & evs_d & ys & Hacc).
    destruct Hacc. fold st' in acc_feat0, acc_rows0, acc_trace0.
    exists x', h0, c0, hT, cT, feat, a, evs_r, evs_d, ys.
    unfold dense_input_width in acc_input0. rewrite Hadd in acc_input0.
    split_and!; try assumption; try apply acc_feat0.
    intros b Hb. by eapply acc_rows0.
Qed.

Lemma demo_hyperparameters_ok : hyperparameters_ok 1 1 2 (3 # 4) [3; 1].
Proof.
  split; [lia|]. split; [lia|]. split; [reflexivity|]. split; [reflexivity|].
  repeat constructor; lia.
Defined.

Lemma demo_year_loc_ok :
  year_loc_ok demo_state (demo_net true) CPU 1
              (Some demo_years) (Some demo_locations).
Proof.
  intros _. exists demo_years, demo_locations.
  split; [reflexivity|]. split; [reflexivity|]. split; [reflexivity|].
  split; [reflexivity|]. split; [reflexivity|]. split; [reflexivity|].
  split; [reflexivity|]. split; unfold allocated; simpl; lia.
Defined.

Lemma year_loc_augmentation_witness :
  (exists net st1,
      RNNet_init 1 1 2 (3 # 4) (Some 0%nat) true demo_start = (inr net, st1)
      /\ add_year_loc net = true
      /\ lists st1 !! 0%nat = Some [5; 3; 1]
      /\ net_ok net CPU 1 2 [3; 1]%nat
      /\ forall first rest,
           dense_layers net = first :: rest ->
           in_features first = 5
           /\ exists n_out, t_shape (weight first) = [n_out; 5%nat])
  /\ (let st' := (forward (demo_net true) demo_x (Some demo_years)
                          (Some demo_locations) false demo_state).2 in
      exists x' h0 c0 hT cT feat a evs_r evs_d ys,
        unrolled x' 0 3 h0 c0 evs_r hT cT
        /\ squeeze0 hT st' = (inr feat, st')
        /\ t_shape feat = [1; 2]%nat
        /\ t_shape a = [1; 5]%nat
        /\ (forall b, (b < 1)%nat ->
              row st' a 5 b
              = row st' feat 2 b ++ [tget st' demo_years [b]]
                ++ row st' demo_locations 2 b)
        /\ dense_run (dense_layers (demo_net true)) a evs_d ys
        /\ trace st' = trace demo_state ++ evs_r ++ evs_d).
Proof.
  apply (year_loc_augmentation 1 1 2 (3 # 4) (Some 0%nat) [3; 1] demo_start
           (demo_net true) demo_x demo_years demo_locations false demo_state
           CPU 1 3 1 2 [3; 1]%nat).
  - exact demo_hyperparameters_ok.
  - reflexivity.
  - exact (demo_net_ok true).
  - reflexivity.
  - exact demo_input_ok.
  - exact demo_year_loc_ok.
Defined.

Lemma forward_unrolls_recurrence_witness :
  exists x' st1 h0 c0 st2 hT cT evs rest,
    forward_reshape demo_x demo_state = (inr x', st1)
    /\ forward_states (demo_net false) x' st1 = (inr (h0, c0), st2)
    /\ t_shape x' = [1; 3; 1]%nat
    /\ unrolled x' 0 3 h0 c0 evs hT cT
    /\ length evs = 6%nat
    /\ Forall dense_call rest
    /\ trace (forward (demo_net false) demo_x None None true demo_state).2
       = trace demo_state ++ evs ++ rest
    /\ ((1 <= 3)%nat ->
        exists pre slice h c out h1,
          evs = pre ++ [CallLSTM slice h c out h1 cT; CallDropout h1 hT]
          /\ timestep x' 2 slice).
Proof.
  apply (forward_unrolls_recurrence (demo_net false) demo_x None None true
           demo_state CPU 1 3 1 2).
  - exact demo_input_ok.
  - exact (demo_rnn_ok false).
Defined.

(* ===================================================================== *)
(** * Construction and initialisation, completely *)
(* ===================================================================== *)

Lemma keeps_run {A} (R : state -> state -> Prop) (m : M A) st r st' :
  keeps R m -> m st = (r, st') -> R st st'.
Proof. intros Hk Hm. specialize (Hk st). rewrite Hm in Hk. exact Hk. Qed.

#[global] Instance silent_preorder : PreOrder silent.
Proof.
  split.
  - intros st. unfold silent. auto.
  - intros a b c (?&?&?&?) (?&?&?&?). unfold silent. split_and!; congruence.
Qed.

Lemma silent_alloc dev shape data : keeps silent (alloc dev shape data).
Proof. intros st. unfold silent. simpl. auto. Qed.

Lemma silent_fill t f : keeps silent (fill_ t f).
Proof. intros st. unfold silent. simpl. auto. Qed.

Lemma silent_draw n : keeps silent (draw n).
Proof. intros st. unfold silent. simpl. auto. Qed.

Lemma silent_read_list r : keeps silent (read_list r).
Proof.
  intros st. unfold read_list. destruct (lists st !! r); simpl; reflexivity.
Qed.

Create HintDb init.
#[global] Hint Unfold Dropout_init LSTM_init Linear_init initialize_weights
  uniform_ constant_ kaiming_uniform_ list_len list_get sizes zeros empty
  reinitialize_model : init.

(** Decompose an initialisation built from binds, loops, matches and
    conditionals into its primitive steps. *)
Ltac keeps_init :=
  repeat first
    [ apply keeps_ret; apply _
    | apply keeps_raise; apply _
    | apply keeps_get_state; apply _
    | apply keeps_bind; [apply _| |intros]
    | apply keeps_for_each; [apply _|intros]
    | match goal with
      | |- keeps _ (match ?x with _ => _ end) => destruct x
      | |- keeps _ (let '(_, _) := ?x in _) => destruct x
      end
    | progress autounfold with init ].

Ltac silent_leaves :=
  first [apply silent_alloc | apply silent_fill | apply silent_draw
        | apply silent_read_list].

Lemma silent_Dropout_init p : keeps silent (Dropout_init p).
Proof. keeps_init; silent_leaves. Qed.

Lemma silent_LSTM_init n h : keeps silent (LSTM_init n h).
Proof. keeps_init; silent_leaves. Qed.

Lemma silent_Linear_init n_in n_out : keeps silent (Linear_init n_in n_out).
Proof. keeps_init; silent_leaves. Qed.

Lemma silent_initialize_weights self : keeps silent (initialize_weights self).
Proof. keeps_init; silent_leaves. Qed.

Lemma silent_list_len r : keeps silent (list_len r).
Proof. keeps_init; silent_leaves. Qed.

Lemma silent_list_get r i : keeps silent (list_get r i).
Proof. keeps_init; silent_leaves. Qed.

(** Lines 73-79, completely: the list [dense_features] refers to gets the
    hidden size prepended, widened by 3 under augmentation; nothing else
    changes. *)
Lemma wp_init_dense_features_lists (hidden : Z) (df : option nat) (add : bool)
    (dense : list Z) (st : state) (Q : nat -> state -> Prop) :
  dense_features_are st df dense ->
  (forall st',
      lists st' = lists_after st df (prepended hidden add dense) ->
      storages st' = storages st -> gen st' = gen st ->
      current_cuda st' = current_cuda st -> trace st' = trace st ->
      Q (default (length (lists st)) df) st') ->
  wp (RNNet_init_dense_features hidden df add) st Q.
Proof.
  intros Hdf HQ. unfold RNNet_init_dense_features, prepended in *.
  destruct df as [r|]; simpl in Hdf.
  - apply wp_bind, wp_ret, wp_bind. eapply wp_list_insert0; [exact Hdf|].
    pose proof (lookup_lt_Some _ _ _ Hdf) as Hlt.
    destruct add.
    + apply wp_bind. eapply wp_list_iadd.
      * rewrite lists_with_lists. apply list_lookup_insert_eq. exact Hlt.
      * reflexivity.
      * apply wp_ret, HQ; try reflexivity. simpl.
        rewrite list_insert_insert_eq. reflexivity.
    + apply wp_bind, wp_ret, wp_ret, HQ; reflexivity.
  - subst dense. apply wp_bind, wp_new_list, wp_bind.
    eapply wp_list_insert0.
    { rewrite lists_with_lists. apply list_lookup_middle. reflexivity. }
    assert (Hins : forall l : list Z,
               <[length (lists st) := l]> (lists st ++ [[256; 1]])
               = lists st ++ [l]).
    { intros l. rewrite insert_app_r_alt by lia.
      rewrite Nat.sub_diag. reflexivity. }
    destruct add.
    + apply wp_bind. eapply wp_list_iadd.
      * rewrite !lists_with_lists, Hins. apply list_lookup_middle. reflexivity.
      * reflexivity.
      * apply wp_ret, HQ; try reflexivity. simpl.
        rewrite Hins. rewrite insert_app_r_alt by lia.
        rewrite Nat.sub_diag. reflexivity.
    + apply wp_bind, wp_ret, wp_ret, HQ; try reflexivity. simpl.
      apply Hins.
Qed.

Lemma LSTM_init_fields n h st rnn st' :
  LSTM_init n h st = (inr rnn, st') ->
  input_size rnn = n /\ lstm_hidden_size rnn = h.
Proof.
  unfold LSTM_init. intros Hrun.
  do 5 (apply bind_inr_inv in Hrun as (? & ? & _ & Hrun)).
  injection Hrun as <- _. auto.
Qed.

Lemma Dropout_init_inv q st d st' :
  Dropout_init q st = (inr d, st') -> d = mkDropout q /\ st' = st.
Proof.
  unfold Dropout_init. destruct (_ && _); [|discriminate].
  intros [= <- <-]. auto.
Qed.

(** A successful run of [RNNet.__init__], taken apart. *)
Lemma RNNet_init_inv ic nb hidden q df add st self st' :
  RNNet_init ic nb hidden q df add st = (inr self, st') ->
  exists r s0 s1,
    RNNet_init_dense_features hidden df add st = (inr r, s0)
    /\ silent s0 s1
    /\ initialize_weights self s1 = (inr tt, st')
    /\ add_year_loc self = add /\ dropout self = mkDropout q
    /\ hidden_size self = hidden /\ training self = true
    /\ input_size (rnn self) = ic * nb /\ lstm_hidden_size (rnn self) = hidden.
Proof.
  unfold RNNet_init. intros Hrun.
  apply bind_inr_inv in Hrun as (r & s0 & Hdf & Hrun).
  apply bind_inr_inv in Hrun as (d & s0' & Hd & Hrun).
  apply Dropout_init_inv in Hd as [-> ->].
  apply bind_inr_inv in Hrun as (rnn & s1 & Hrnn & Hrun).
  apply bind_inr_inv in Hrun as (n & s2 & Hn & Hrun).
  apply bind_inr_inv in Hrun as (layers & s3 & Hlayers & Hrun).
  cbv zeta in Hrun.
  apply bind_inr_inv in Hrun as ([] & s4 & Hinit & Hrun).
  injection Hrun as <- <-.
  exists r, s0, s3. split; [exact Hdf|]. split.
  - etrans; [exact (keeps_run _ _ _ _ _ (silent_LSTM_init _ _) Hrnn)|].
    etrans; [exact (keeps_run _ _ _ _ _ (silent_list_len _) Hn)|].
    eapply keeps_run; [|exact Hlayers].
    apply keeps_for_each; [apply _|]. intros i s.
    apply keeps_bind; [apply _|apply silent_list_get|intros].
    apply keeps_bind; [apply _|apply silent_list_get|intros].
    apply keeps_bind; [apply _|apply silent_Linear_init|intros].
    apply keeps_ret. apply _.
  - split; [exact Hinit|]. simpl.
    destruct (LSTM_init_fields _ _ _ _ _ Hrnn) as [-> ->]. auto 10.
Qed.

(** ** The dense weights *)

(** The gain of [kaiming_uniform_] for its default slope 0. *)
Lemma kaiming_gain_default :
  math_sqrt (float_div (float_of_int 2)
               (float_add (float_of_int 1)
                          (float_mul (float_of_int 0) (float_of_int 0))))
  = math_sqrt (float_of_int 2).
Proof. vm_compute. reflexivity. Qed.

Lemma elements_empty st t : numel (t_shape t) = 0%nat -> elements st t = [].
Proof.
  intros Hn. apply length_zero_iff_nil. unfold elements.
  rewrite length_fmap, length_indices. exact Hn.
Qed.

Lemma wp_kaiming_uniform_0 t st (Q : unit -> state -> Prop) :
  (exists o i, t_shape t = [o; i]) -> unit_draws st ->
  (forall st',
      filled (within (kaiming_bound t)) st' t ->
      same_except [t_loc t] st st' -> Q tt st') ->
  wp (kaiming_uniform_ t (float_of_int 0)) st Q.
Proof.
  intros (o & i & Hs) Hu HQ. unfold kaiming_uniform_.
  destruct (numel (t_shape t) =? 0)%nat eqn:Hn.
  - apply Nat.eqb_eq in Hn. apply wp_ret, HQ; [|apply same_except_refl].
    unfold filled. rewrite (elements_empty _ _ Hn). constructor.
  - rewrite Hs. cbv zeta. rewrite kaiming_gain_default.
    apply wp_uniform_; [|exact Hu|].
    + apply not_negative_float_mul; [apply not_negative_math_sqrt|].
      apply not_negative_float_div; apply not_negative_math_sqrt.
    + intros st' Hf Hs'. apply HQ; [|exact Hs'].
      unfold kaiming_bound, fan_in. rewrite Hs. exact Hf.
Qed.

Lemma NoDup_bind_elem {A B} (f : A -> list B) (items : list A) (i : A) :
  NoDup (items ≫= f) -> i ∈ items -> NoDup (f i).
Proof.
  induction items as [|j items IH]; intros Hnd Hi.
  - by apply elem_of_nil in Hi.
  - rewrite bind_cons in Hnd. apply NoDup_app in Hnd as (Hj & _ & Hrest).
    apply elem_of_cons in Hi as [->|Hi]; [exact Hj|by apply IH].
Qed.

(** [initialize_weights], completely: the range of the recurrent
    parameters, the range of the dense weights, the dense biases. *)
Lemma wp_initialize_weights_ranges self st (Q : unit -> state -> Prop) :
  0 < hidden_size self -> wf_parameters self -> unit_draws st ->
  (forall st',
      Forall (filled (within (recurrent_bound (hidden_size self))) st')
             (concat (all_weights (rnn self))) ->
      Forall (fun l => filled (within (kaiming_bound (weight l))) st' (weight l)
                       /\ filled (fun v => v = 0%R) st' (bias l))
             (dense_layers self) ->
      same_except (t_loc <$> parameters self) st st' ->
      unit_draws st' ->
      Q tt st') ->
  wp (initialize_weights self) st Q.
Proof.
  intros Hh [Hnd Hmat] Hu HQ. unfold initialize_weights.
  assert (H0 : (hidden_size self =? 0) = false) by (apply Z.eqb_neq; lia).
  rewrite H0. cbv zeta. rewrite (quotient_accepted _ Hh). apply wp_bind, wp_ret.
  set (k := recurrent_bound (hidden_size self)).
  unfold parameters in Hnd. rewrite fmap_app, dense_parameter_locs in Hnd.
  apply NoDup_app in Hnd as (Hnd1 & Hdisj & Hnd2).
  apply wp_bind. unfold all_weights at 1. rewrite for_each_singleton.
  apply wp_bind.
  apply (wp_fill_each _ (fun t => [t_loc t]) (fun t st' => filled (within k) st' t)).
  - exact Hnd1.
  - intros t L s s' Hg Hs HL. eapply filled_same_except; [|exact Hs|exact Hg].
    apply HL. left.
  - intros t s Q0 _ Hus HQ0.
    apply wp_uniform_; [apply not_negative_math_sqrt|exact Hus|exact HQ0].
  - exact Hu.
  - intros s1 Hrnn Hs1 Hu1. apply wp_ret.
    apply (wp_fill_each _ (fun l => [t_loc (weight l); t_loc (bias l)])
             (fun l st' =>
                filled (within (kaiming_bound (weight l))) st' (weight l)
                /\ filled (fun v => v = 0%R) st' (bias l))).
    + exact Hnd2.
    + intros l L s s' [Hgw Hgb] Hs HL. split.
      * eapply filled_same_except; [|exact Hs|exact Hgw]. apply HL. left.
      * eapply filled_same_except; [|exact Hs|exact Hgb].
        apply HL. right. left.
    + intros l s Q0 Hl Hus HQ0. apply wp_bind.
      pose proof (NoDup_bind_elem _ _ _ Hnd2 Hl) as Hwb.
      apply NoDup_cons in Hwb as [Hwb _].
      eapply Forall_forall in Hmat; [|exact Hl].
      apply wp_kaiming_uniform_0; [exact Hmat|exact Hus|].
      intros s' Hw Hs'. apply wp_constant_0. intros s'' Hg Hs''.
      apply HQ0.
      * split; [|exact Hg].
        eapply filled_same_except; [|exact Hs''|exact Hw]. exact Hwb.
      * eapply same_except_mono; [|eapply same_except_trans; eassumption].
        intros loc Hloc. exact Hloc.
    + exact Hu1.
    + intros s2 Hdense Hs2 Hu2. apply HQ; try assumption.
      * apply Forall_forall. intros t Ht.
        eapply filled_same_except; [|exact Hs2|].
        -- apply Hdisj. apply list_elem_of_fmap. eauto.
        -- eapply Forall_forall in Hrnn; eassumption.
      * unfold parameters. rewrite fmap_app, dense_parameter_locs.
        eapply same_except_trans; [|exact Hs2].
        eapply same_except_mono; [|exact Hs1].
        intros loc Hloc. simpl in *. exact Hloc.
Qed.

(** ** What [initialize_weights] leaves alone *)

#[global] Instance rewrites_preorder locs : PreOrder (rewrites locs).
Proof.
  split.
  - intros st. split; [apply same_except_refl|auto].
  - intros a b c (Hs1 & ? & ? & ?) (Hs2 & ? & ? & ?).
    split; [|split_and!; congruence].
    eapply same_except_mono; [|eapply same_except_trans; eassumption].
    intros loc Hloc. apply elem_of_app in Hloc as [?|?]; assumption.
Qed.

Lemma keeps_for_each_in {I S} R `{!PreOrder R} (items : list I)
    (body : I -> S -> M S) (s : S) :
  (forall i s, i ∈ items -> keeps R (body i s)) ->
  keeps R (for_each items body s).
Proof.
  revert s. induction items as [|i rest IH]; intros s Hbody; simpl.
  - apply keeps_ret. apply _.
  - apply keeps_bind; [apply _|apply Hbody; left|].
    intros s'. apply IH. intros j s'' Hj. apply Hbody. by right.
Qed.

Lemma rewrites_fill locs t f : t_loc t ∈ locs -> keeps (rewrites locs) (fill_ t f).
Proof.
  intros Hin st. unfold fill_. cbn [snd].
  split; [|rewrite storages_with_storages, length_alter; auto].
  split_and!; try reflexivity.
  intros loc Hloc. rewrite storages_with_storages.
  apply list_lookup_alter_ne. intros Heq. apply Hloc. rewrite <- Heq. exact Hin.
Qed.

Lemma rewrites_draw locs n : keeps (rewrites locs) (draw n).
Proof. intros st. split; [split_and!; auto|auto]. Qed.

Lemma rewrites_uniform_ locs t lo hi :
  t_loc t ∈ locs -> keeps (rewrites locs) (uniform_ t lo hi).
Proof.
  intros Hin. unfold uniform_.
  apply keeps_bind; [apply _|apply keeps_get_state; apply _|intros].
  apply keeps_bind; [apply _|apply rewrites_draw|intros].
  by apply rewrites_fill.
Qed.

Lemma rewrites_kaiming_uniform_ locs t a2 :
  t_loc t ∈ locs -> keeps (rewrites locs) (kaiming_uniform_ t a2).
Proof.
  intros Hin. unfold kaiming_uniform_.
  destruct (numel (t_shape t) =? 0)%nat; [apply keeps_ret; apply _|].
  destruct (t_shape t) as [|? [|? ?]];
    first [apply keeps_raise; apply _ | by apply rewrites_uniform_].
Qed.

Lemma rewrites_initialize_weights self :
  keeps (rewrites (t_loc <$> parameters self)) (initialize_weights self).
Proof.
  unfold initialize_weights.
  apply keeps_bind; [apply _| |intros sqrt_k].
  { destruct (hidden_size self =? 0); [apply keeps_raise; apply _|].
    cbv zeta. destruct (float_ltb _ _);
      [apply keeps_raise; apply _|apply keeps_ret; apply _]. }
  apply keeps_bind; [apply _| |intros].
  - apply keeps_for_each_in; [apply _|]. intros ps [] Hps.
    apply keeps_for_each_in; [apply _|]. intros t [] Ht.
    apply rewrites_uniform_, list_elem_of_fmap. exists t. split; [reflexivity|].
    unfold parameters. apply elem_of_app. left.
    apply list_elem_of_bind. eauto.
  - apply keeps_for_each_in; [apply _|]. intros l [] Hl.
    assert (Hin : forall t, t ∈ [weight l; bias l] ->
                    t_loc t ∈ t_loc <$> parameters self).
    { intros t Ht. apply list_elem_of_fmap. exists t. split; [reflexivity|].
      unfold parameters. apply elem_of_app. right.
      apply list_elem_of_bind. eauto. }
    apply keeps_bind; [apply _| |intros].
    + apply rewrites_kaiming_uniform_, Hin. left.
    + unfold constant_. apply rewrites_fill, Hin. right. left.
Qed.

(** ** [RNNet.__init__] and [RNNModel.__init__], completely *)

Lemma RNNet_init_built ic nb hidden q df add dense st :
  hyperparameters_ok ic nb hidden q dense ->
  dense_features_are st df dense ->
  exists self st',
    RNNet_init ic nb hidden q df add st = (inr self, st')
    /\ built ic nb hidden q df add dense st self st'.
Proof.
  intros Hhyp Hdf.
  destruct (wp_RNNet_init ic nb hidden q df add dense st
              (fun self st' =>
                 net_ok self CPU (Z.to_nat (ic * nb)) (Z.to_nat hidden)
                        (Z.to_nat <$> dense)
                 /\ length (dense_layers self) = length dense
                 /\ wf_parameters self) Hhyp Hdf)
    as (self & st' & Hrun & Hnet & Hlen & Hwf).
  { intros. auto. }
  exists self, st'. split; [exact Hrun|].
  destruct (RNNet_init_inv _ _ _ _ _ _ _ _ _ Hrun)
    as (r & s0 & s1 & Hr & Hs01 & Hinit & Hadd & Hdrop & Hhid & Htr & Hin & Hlh).
  destruct (wp_init_dense_features_lists hidden df add dense st
              (fun _ s =>
                 lists s = lists_after st df (prepended hidden add dense)
                 /\ gen s = gen st /\ current_cuda s = current_cuda st
                 /\ trace s = trace st) Hdf)
    as (r' & s0' & Hr' & Hl0 & Hg0 & Hc0 & Ht0).
  { intros. auto. }
  rewrite Hr in Hr'. injection Hr' as <- <-.
  destruct Hs01 as (Hl1 & Hg1 & Hc1 & Ht1).
  pose proof (keeps_run _ _ _ _ _ (silent_initialize_weights self) Hinit)
    as (Hl2 & Hg2 & Hc2 & Ht2).
  split.
  - congruence.
  - split_and!; congruence.
  - auto 10.
  - exact Hnet.
  - exact Hlen.
  - exact Hwf.
  - intros Hu.
    assert (Hu1 : unit_draws s1).
    { intros n. rewrite Hg1, Hg0. apply Hu. }
    destruct (wp_initialize_weights_ranges self s1
                (fun _ s =>
                   Forall (filled (within (recurrent_bound (hidden_size self)))
                                  s)
                          (concat (all_weights (rnn self)))
                   /\ Forall (fun l =>
                                filled (within (kaiming_bound (weight l))) s
                                       (weight l)
                                /\ filled (fun v => v = 0%R) s (bias l))
                             (dense_layers self)))
      as ([] & s2 & Hinit' & Hrnn & Hdense); try assumption.
    { rewrite Hhid. apply Hhyp. }
    { intros. auto. }
    rewrite Hinit in Hinit'. injection Hinit' as <-.
    rewrite Hhid in Hrnn. auto.
Qed.

Lemma RNNModel_init_built ic nb hidden q df add dense st :
  hyperparameters_ok ic nb hidden q dense ->
  dense_features_are st df dense ->
  exists m st',
    RNNModel_init ic nb hidden q df add st = (inr m, st')
    /\ built ic nb hidden q df add dense st (model m) st'
    /\ model_type m = (if add then "rnn_year_loc" else "rnn")%string
    /\ let n := match df with
                | None => 2
                | Some _ => Z.of_nat (length dense) + 1
                end in
       model_weight m
       = ("dense_layers." ++ str_of_int (n - 1) ++ ".weight")%string
       /\ model_bias m
          = ("dense_layers." ++ str_of_int (n - 1) ++ ".bias")%string.
Proof.
  intros Hhyp Hdf.
  destruct (RNNet_init_built ic nb hidden q df add dense st Hhyp Hdf)
    as (self & st' & Hrun & Hb).
  unfold RNNModel_init. rewrite (bind_run _ _ _ _ _ Hrun).
  destruct df as [r|].
  - simpl in Hdf.
    assert (Hr : lists st' !! r = Some (prepended hidden add dense)).
    { rewrite (built_lists _ _ _ _ _ _ _ _ _ _ Hb). simpl.
      apply list_lookup_insert_eq. by eapply lookup_lt_Some. }
    erewrite (bind_run (list_len r));
      [|unfold list_len; erewrite (bind_run (read_list r));
        [reflexivity|unfold read_list; rewrite Hr; reflexivity]].
    eexists _, _. split; [reflexivity|]. cbn [model model_type model_weight model_bias].
    split; [exact Hb|]. split; [destruct add; reflexivity|].
    unfold prepended. cbn [length].
    replace (Z.of_nat (S (length dense))) with (Z.of_nat (length dense) + 1) by lia.
    split; reflexivity.
  - eexists _, _. split; [reflexivity|]. cbn [model model_type model_weight model_bias].
    split; [exact Hb|]. split; [destruct add; reflexivity|].
    split; reflexivity.
Qed.

Lemma bind_raise {A B} (m : M A) (f : A -> M B) st e st' :
  m st = (inl e, st') -> (m ≫= f) st = (inl e, st').
Proof. intros Hm. unfold mbind, M_bind. rewrite Hm. reflexivity. Qed.

Lemma dense_ok_entries d (v : Z) (dense : list Z) layers i l :
  0 <= v -> Forall (fun w => 0 <= w) dense ->
  dense_ok d (Z.to_nat v) layers (Z.to_nat <$> dense) ->
  layers !! i = Some l ->
  (v :: dense) !! i = Some (in_features l)
  /\ dense !! i = Some (out_features l)
  /\ t_shape (weight l) = [Z.to_nat (out_features l); Z.to_nat (in_features l)].
Proof.
  revert v dense i.
  induction layers as [|l0 layers IH]; intros v dense i Hv Hdense Hok Hl;
    [discriminate|].
  destruct dense as [|w ws]; [destruct Hok|].
  apply Forall_cons in Hdense as [Hw Hws].
  rewrite fmap_cons in Hok. destruct Hok as (Hin & Hout & Hs & _ & _ & Hok).
  rewrite Z2Nat.id in Hin, Hout by assumption.
  destruct i as [|i]; simpl in Hl.
  - injection Hl as <-. simpl. rewrite Hin, Hout. auto.
  - destruct (IH w ws i Hw Hws Hok Hl) as (H1 & H2 & H3). auto.
Qed.

Lemma prepended_nonneg hidden add dense :
  0 < hidden -> Forall (fun w => 0 <= w) dense ->
  Forall (fun w => 0 <= w) (prepended hidden add dense).
Proof. intros Hh Hd. constructor; [destruct add; lia|exact Hd]. Qed.

Lemma built_dense_ok ic nb hidden q df add dense st self st' :
  0 < hidden ->
  built ic nb hidden q df add dense st self st' ->
  dense_ok CPU (Z.to_nat (if add then hidden + 3 else hidden))
           (dense_layers self) (Z.to_nat <$> dense).
Proof.
  intros Hh Hb. destruct (built_net _ _ _ _ _ _ _ _ _ _ Hb) as [_ Hok].
  destruct (built_fields _ _ _ _ _ _ _ _ _ _ Hb) as (Hadd & _).
  unfold dense_input_width in Hok. rewrite Hadd in Hok.
  destruct add; [|exact Hok].
  rewrite Z2Nat.inj_add by lia. exact Hok.
Qed.

(** X1.  Construction changes exactly one Python list.  A list passed as
    [dense_features] is modified in place: when [RNNModel(...)] returns it
    holds the hidden size (plus 3 with [add_year_loc]) followed by its
    former entries.  With [dense_features=None] a new list
    [[hidden_size (+3), 256, 1]] is created and no existing list is touched. *)
Theorem construction_updates_list (in_channels num_bins hidden : Z) (q : Q)
    (dense_features : option nat) (add : bool) (dense : list Z) (st : state) :
  hyperparameters_ok in_channels num_bins hidden q dense ->
  dense_features_are st dense_features dense ->
  exists m st',
    RNNModel_init in_channels num_bins hidden q dense_features add st
    = (inr m, st')
    /\ lists st'
       = match dense_features with
         | Some r =>
             <[r := (if add then hidden + 3 else hidden) :: dense]> (lists st)
         | None => lists st ++ [(if add then hidden + 3 else hidden) :: dense]
         end.
Proof.
  intros Hhyp Hdf.
  destruct (RNNModel_init_built _ _ _ _ _ add _ _ Hhyp Hdf)
    as (m & st' & Hrun & Hb & _).
  exists m, st'. split; [exact Hrun|].
  exact (built_lists _ _ _ _ _ _ _ _ _ _ Hb).
Qed.

Lemma construction_updates_list_witness :
  exists m st',
    RNNModel_init 1 1 2 (3 # 4) (Some 0%nat) true demo_start = (inr m, st')
    /\ lists st' = <[0%nat := [5; 3; 1]]> (lists demo_start).
Proof.
  apply (construction_updates_list 1 1 2 (3 # 4) (Some 0%nat) true [3; 1]
           demo_start).
  - exact demo_hyperparameters_ok.
  - reflexivity.
Defined.

(** X2.  A list reused for a second construction has grown: the second
    network is built from the list the first construction left, so it has
    one dense layer more than the first, an extra first layer from
    [hidden_size (+3)] to [hidden_size (+3)] features, and the list ends up
    with the hidden size prepended twice. *)
Theorem shared_list_adds_a_layer (in_channels num_bins hidden : Z) (q : Q)
    (r : nat) (add : bool) (dense : list Z) (st : state) :
  hyperparameters_ok in_channels num_bins hidden q dense ->
  lists st !! r = Some dense ->
  let v := if add then hidden + 3 else hidden in
  exists m1 st1 m2 st2,
    RNNModel_init in_channels num_bins hidden q (Some r) add st = (inr m1, st1)
    /\ RNNModel_init in_channels num_bins hidden q (Some r) add st1
       = (inr m2, st2)
    /\ length (dense_layers (model m1)) = length dense
    /\ length (dense_layers (model m2)) = S (length dense)
    /\ lists st2 !! r = Some (v :: v :: dense)
    /\ exists first rest,
         dense_layers (model m2) = first :: rest
         /\ in_features first = v /\ out_features first = v.
Proof.
  intros Hhyp Hr v.
  destruct (RNNModel_init_built _ _ _ _ (Some r) add _ _ Hhyp Hr)
    as (m1 & st1 & Hrun1 & Hb1 & _).
  pose proof (lookup_lt_Some _ _ _ Hr) as Hlt.
  assert (Hr1 : lists st1 !! r = Some (prepended hidden add dense)).
  { rewrite (built_lists _ _ _ _ _ _ _ _ _ _ Hb1). simpl.
    by apply list_lookup_insert_eq. }
  destruct Hhyp as (Hh & Hin & Hq0 & Hq1 & Hdense).
  assert (Hhyp2 : hyperparameters_ok in_channels num_bins hidden q
                    (prepended hidden add dense)).
  { split_and!; try assumption. by apply prepended_nonneg. }
  destruct (RNNModel_init_built _ _ _ _ (Some r) add _ _ Hhyp2 Hr1)
    as (m2 & st2 & Hrun2 & Hb2 & _).
  exists m1, st1, m2, st2. split_and!; try assumption.
  - exact (built_layers _ _ _ _ _ _ _ _ _ _ Hb1).
  - exact (built_layers _ _ _ _ _ _ _ _ _ _ Hb2).
  - rewrite (built_lists _ _ _ _ _ _ _ _ _ _ Hb2). simpl.
    apply list_lookup_insert_eq. by eapply lookup_lt_Some.
  - pose proof (built_dense_ok _ _ _ _ _ _ _ _ _ _ Hh Hb2) as Hok.
    fold v in Hok.
    pose proof (built_layers _ _ _ _ _ _ _ _ _ _ Hb2) as Hlen.
    destruct (dense_layers (model m2)) as [|first rest] eqn:Hl2;
      [discriminate|].
    exists first, rest. split; [reflexivity|].
    destruct (dense_ok_entries CPU v (prepended hidden add dense)
                (first :: rest) 0 first) as (H1 & H2 & _);
      try assumption; try reflexivity.
    + unfold v. destruct add; lia.
    + by apply prepended_nonneg.
    + simpl in H1, H2. unfold prepended in H2. fold v in H2. split; congruence.
Qed.

Lemma shared_list_adds_a_layer_witness :
  exists m1 st1 m2 st2,
    RNNModel_init 1 1 2 (3 # 4) (Some 0%nat) false demo_start = (inr m1, st1)
    /\ RNNModel_init 1 1 2 (3 # 4) (Some 0%nat) false st1 = (inr m2, st2)
    /\ length (dense_layers (model m1)) = 2%nat
    /\ length (dense_layers (model m2)) = 3%nat
    /\ lists st2 !! 0%nat = Some [2; 2; 3; 1]
    /\ exists first rest,
         dense_layers (model m2) = first :: rest
         /\ in_features first = 2 /\ out_features first = 2.
Proof.
  apply (shared_list_adds_a_layer 1 1 2 (3 # 4) 0 false [3; 1] demo_start).
  - exact demo_hyperparameters_ok.
  - reflexivity.
Defined.

(** X3.  A dropout probability outside [[0, 1]] makes the construction
    raise ValueError (from [nn.Dropout]), but only after the caller's list
    has been modified: the list keeps the prepended hidden size (plus 3 with
    [add_year_loc]) although no model was built; no tensor is allocated. *)
Theorem invalid_dropout_after_list_update (in_channels num_bins hidden : Z)
    (q : Q) (r : nat) (add : bool) (dense : list Z) (st : state) :
  Qle_bool 0 q && Qle_bool q 1 = false ->
  lists st !! r = Some dense ->
  exists st',
    RNNModel_init in_channels num_bins hidden q (Some r) add st
    = (inl ValueError, st')
    /\ lists st'
       = <[r := (if add then hidden + 3 else hidden) :: dense]> (lists st)
    /\ storages st' = storages st.
Proof.
  intros Hq Hr.
  destruct (wp_init_dense_features_lists hidden (Some r) add dense st
              (fun _ s =>
                 lists s = lists_after st (Some r) (prepended hidden add dense)
                 /\ storages s = storages st) Hr)
    as (r' & s0 & Hrun & Hl & Hs).
  { intros. auto. }
  exists s0. split; [|split; assumption].
  assert (Hnet : RNNet_init in_channels num_bins hidden q (Some r) add st
                 = (inl ValueError, s0)).
  { unfold RNNet_init. rewrite (bind_run _ _ _ _ _ Hrun).
    unfold Dropout_init. rewrite Hq. reflexivity. }
  unfold RNNModel_init. apply bind_raise, Hnet.
Qed.

Lemma invalid_dropout_after_list_update_witness :
  exists st',
    RNNModel_init 1 1 2 (3 # 2) (Some 0%nat) false demo_start
    = (inl ValueError, st')
    /\ lists st' = <[0%nat := [2; 3; 1]]> (lists demo_start)
    /\ storages st' = storages demo_start.
Proof.
  apply (invalid_dropout_after_list_update 1 1 2 (3 # 2) 0 false [3; 1]
           demo_start); reflexivity.
Defined.

(** X4.  The constructor builds what the hyperparameters say: an LSTM of
    [in_channels * num_bins] input features and [hidden_size] hidden units,
    dropout with the given probability, and one dense layer per entry of the
    list of dense feature sizes, layer [i] mapping the entry before it (for
    the first layer the hidden size, plus 3 with [add_year_loc]) to entry
    [i]; the model type is 'rnn', or 'rnn_year_loc' with [add_year_loc]. *)
Theorem constructed_architecture (in_channels num_bins hidden : Z) (q : Q)
    (dense_features : option nat) (add : bool) (dense : list Z) (st : state) :
  hyperparameters_ok in_channels num_bins hidden q dense ->
  dense_features_are st dense_features dense ->
  exists m st',
    RNNModel_init in_channels num_bins hidden q dense_features add st
    = (inr m, st')
    /\ model_type m = (if add then "rnn_year_loc" else "rnn")%string
    /\ add_year_loc (model m) = add
    /\ hidden_size (model m) = hidden
    /\ dropout (model m) = mkDropout q
    /\ input_size (rnn (model m)) = in_channels * num_bins
    /\ lstm_hidden_size (rnn (model m)) = hidden
    /\ length (dense_layers (model m)) = length dense
    /\ forall i l,
         dense_layers (model m) !! i = Some l ->
         ((if add then hidden + 3 else hidden) :: dense) !! i
         = Some (in_features l)
         /\ dense !! i = Some (out_features l)
         /\ t_shape (weight l)
            = [Z.to_nat (out_features l); Z.to_nat (in_features l)].
Proof.
  intros Hhyp Hdf.
  destruct (RNNModel_init_built _ _ _ _ _ add _ _ Hhyp Hdf)
    as (m & st' & Hrun & Hb & Hty & _).
  destruct (built_fields _ _ _ _ _ _ _ _ _ _ Hb) as (? & ? & ? & ? & ? & ?).
  destruct Hhyp as (Hh & _ & _ & _ & Hdense).
  exists m, st'. split_and!; try assumption.
  - exact (built_layers _ _ _ _ _ _ _ _ _ _ Hb).
  - intros i l Hl.
    apply (dense_ok_entries CPU _ dense (dense_layers (model m)) i l);
      try assumption.
    + destruct add; lia.
    + by eapply built_dense_ok.
Qed.

Lemma constructed_architecture_witness :
  exists m st',
    RNNModel_init 1 1 2 (3 # 4) (Some 0%nat) true demo_start = (inr m, st')
    /\ model_type m = "rnn_year_loc"%string
    /\ add_year_loc (model m) = true
    /\ hidden_size (model m) = 2
    /\ dropout (model m) = mkDropout (3 # 4)
    /\ input_size (rnn (model m)) = 1
    /\ lstm_hidden_size (rnn (model m)) = 2
    /\ length (dense_layers (model m)) = 2%nat
    /\ forall i l,
         dense_layers (model m) !! i = Some l ->
         [5; 3; 1] !! i = Some (in_features l)
         /\ [3; 1] !! i = Some (out_features l)
         /\ t_shape (weight l)
            = [Z.to_nat (out_features l); Z.to_nat (in_features l)].
Proof.
  apply (constructed_architecture 1 1 2 (3 # 4) (Some 0%nat) true [3; 1]
           demo_start).
  - exact demo_hyperparameters_ok.
  - reflexivity.
Defined.

(** X5.  A model is initialised when its constructor returns (line 94
    calls [initialize_weights]): whatever the generator draws, every
    recurrent weight and bias lies within the bound
    [math.sqrt(1 / hidden_size)] as converted to single precision, every
    dense weight within the Kaiming bound of its layer,
    [math.sqrt(3.0) * (math.sqrt(2.0) / math.sqrt(fan_in))] as converted to
    single precision, and every dense bias is 0. *)
Theorem constructed_model_is_initialized (in_channels num_bins hidden : Z)
    (q : Q) (dense_features : option nat) (add : bool) (dense : list Z)
    (st : state) :
  hyperparameters_ok in_channels num_bins hidden q dense ->
  dense_features_are st dense_features dense ->
  unit_draws st ->
  exists m st',
    RNNModel_init in_channels num_bins hidden q dense_features add st
    = (inr m, st')
    /\ Forall (fun t => Forall (within (recurrent_bound hidden)) (elements st' t))
              (concat (all_weights (rnn (model m))))
    /\ Forall (fun l =>
                 Forall (within (kaiming_bound (weight l)))
                        (elements st' (weight l))
                 /\ Forall (fun v => v = 0%R) (elements st' (bias l)))
              (dense_layers (model m)).
Proof.
  intros Hhyp Hdf Hu.
  destruct (RNNModel_init_built _ _ _ _ _ add _ _ Hhyp Hdf)
    as (m & st' & Hrun & Hb & _).
  exists m, st'. split; [exact Hrun|].
  exact (built_ranges _ _ _ _ _ _ _ _ _ _ Hb Hu).
Qed.

Lemma constructed_model_is_initialized_witness :
  exists m st',
    RNNModel_init 1 1 2 (3 # 4) None false demo_drawing_start = (inr m, st')
    /\ Forall (fun t => Forall (within (recurrent_bound 2)) (elements st' t))
              (concat (all_weights (rnn (model m))))
    /\ Forall (fun l =>
                 Forall (within (kaiming_bound (weight l)))
                        (elements st' (weight l))
                 /\ Forall (fun v => v = 0%R) (elements st' (bias l)))
              (dense_layers (model m)).
Proof.
  apply (constructed_model_is_initialized 1 1 2 (3 # 4) None false [256; 1]
           demo_drawing_start).
  - split; [lia|]. split; [lia|]. split; [reflexivity|]. split; [reflexivity|].
    repeat constructor; lia.
  - reflexivity.
  - intros n. simpl. destruct (Nat.even n); lra.
Defined.

(** X6.  After [reinitialize_model] every element of every dense weight
    matrix lies within the Kaiming-uniform bound of the default arguments
    for its fan-in, the number of its columns:
    [math.sqrt(3.0) * (math.sqrt(2.0) / math.sqrt(fan_in))] as converted to
    single precision. *)
Theorem reinitialize_model_dense_weights (self : RNNModel) (time : option Z)
    (st : state) :
  0 < hidden_size (model self) ->
  wf_parameters (model self) ->
  unit_draws st ->
  exists st',
    reinitialize_model self time st = (inr tt, st')
    /\ forall l,
         l ∈ dense_layers (model self) ->
         Forall (fun v => - kaiming_bound (weight l) <= v
                          <= kaiming_bound (weight l))%R
                (elements st' (weight l)).
Proof.
  intros Hh Hwf Hu. unfold reinitialize_model.
  destruct (wp_initialize_weights_ranges (model self) st
              (fun _ st' =>
                 Forall (fun l =>
                           filled (within (kaiming_bound (weight l))) st'
                                  (weight l)
                           /\ filled (fun v => v = 0%R) st' (bias l))
                        (dense_layers (model self)))
              Hh Hwf Hu) as ([] & st' & Hrun & Hdense).
  { auto. }
  exists st'. split; [exact Hrun|]. intros l Hl.
  eapply Forall_forall in Hdense as [Hw _]; [|exact Hl]. exact Hw.
Qed.

Lemma reinitialize_model_dense_weights_witness :
  exists st',
    reinitialize_model demo_model None demo_trained_state = (inr tt, st')
    /\ forall l,
         l ∈ dense_layers (model demo_model) ->
         Forall (fun v => - kaiming_bound (weight l) <= v
                          <= kaiming_bound (weight l))%R
                (elements st' (weight l)).
Proof.
  apply (reinitialize_model_dense_weights demo_model None demo_trained_state).
  - simpl. lia.
  - exact demo_wf_parameters.
  - exact demo_trained_unit_draws.
Defined.

(** X7.  [reinitialize_model] works in place on the parameters only:
    whatever happens, also when it raises, it allocates nothing, calls no
    sub-module, changes no Python list, and every tensor whose storage is
    not that of a parameter has the same elements as before. *)
Theorem reinitialize_model_frame (self : RNNModel) (time : option Z)
    (st : state) :
  let st' := (reinitialize_model self time st).2 in
  length (storages st') = length (storages st)
  /\ lists st' = lists st /\ trace st' = trace st
  /\ current_cuda st' = current_cuda st
  /\ forall t,
       t_loc t ∉ t_loc <$> parameters (model self) ->
       elements st' t = elements st t.
Proof.
  intros st'.
  pose proof (rewrites_initialize_weights (model self) st)
    as ((_ & Hl & Hs) & Hlen & Hc & Ht).
  fold (reinitialize_model self time) in *. fold st' in Hl, Hs, Hlen, Hc, Ht.
  split_and!; try assumption.
  intros t Hloc. apply elements_same_storage, Hs, Hloc.
Qed.

(* ===================================================================== *)
(** * Edge cases of [forward] *)
(* ===================================================================== *)

(** ** [forward] up to the end of the timestep loop *)

Lemma forward_recurrence self x st d B T F H :
  input_ok st x d B T F -> rnn_ok self d F H ->
  exists x' st1 h0 c0 st2 hT cT evs st3 feat,
    recurrence_account self x st d B T F H x' st1 h0 c0 st2 hT cT evs st3 feat.
Proof.
  intros ((C & W & Hx & HF) & Hdx & Hdev) Hrnn.
  destruct (wp_forward_reshape x B C T W st
              (fun x' st' =>
                 t_shape x' = [B; T; F] /\
                 t_stride x' = contiguous_strides [B; T; F] /\
                 t_dev x' = t_dev x /\ only_allocates st st') Hx)
    as (x' & st1 & Hre & Hx' & Hstr' & Hdx' & Hst1).
  { intros ? ? ? ? ? ?. rewrite <- HF. auto. }
  destruct (wp_forward_states self x' B [T; F] H st1
              (fun hc st' =>
                 t_shape hc.1 = [1%nat; B; H] /\ t_shape hc.2 = [1%nat; B; H]
                 /\ t_dev hc.1 = state_device st1 x'
                 /\ t_dev hc.2 = state_device st1 x'
                 /\ allocated st' hc.1 /\ allocated st' hc.2
                 /\ elements st' hc.1 = replicate (numel [1%nat; B; H]) 0%R
                 /\ elements st' hc.2 = replicate (numel [1%nat; B; H]) 0%R
                 /\ only_allocates st1 st')
              Hx' (proj1 Hrnn))
    as ([h0 c0] & st2 & Hstates & Hh0 & Hc0 & Hdh & Hdc & Hah0 & Hac0
        & Hzh & Hzc & Hst2).
  { intros. cbn [fst snd]. auto 10. }
  cbn [fst snd] in *.
  assert (Hsd : state_device st1 x' = d).
  { unfold state_device, is_cuda. rewrite Hdx', Hdx.
    destruct Hst1 as (_ & _ & Hcur & _). rewrite Hcur.
    destruct Hdev as [->| ->]; reflexivity. }
  rewrite Hsd in Hdh, Hdc.
  destruct (wp_forward_loop self x' h0 c0 B T F H d st2
              (fun hc st' =>
                 t_shape hc.1 = [1%nat; B; H] /\ t_dev hc.1 = d
                 /\ allocated st' hc.1
                 /\ lists st' = lists st2
                 /\ current_cuda st' = current_cuda st2
                 /\ storages_kept st2 st'
                 /\ exists evs, unrolled x' 0 T h0 c0 evs hc.1 hc.2
                                /\ trace st' = trace st2 ++ evs))
    as ([hT cT] & st3 & Hloop & HhT & HdT & HaT & Hl3 & Hc3 & Hk3
        & evs & Hun & Htr3);
    try assumption; [congruence| |].
  { intros hT cT evs st3 ? ? ? ? ? ? ? ?. cbn [fst snd]. split_and!; eauto. }
  cbn [fst snd] in *.
  exists x', st1, h0, c0, st2, hT, cT, evs, st3,
    (Tensor (t_loc hT) (t_off hT) [B; H] (tail (t_stride hT)) (t_dev hT)).
  split; try assumption.
  - unfold squeeze0. rewrite HhT. reflexivity.
  - split_and!; congruence.
  - auto 10.
  - auto.
  - split_and!; [reflexivity|exact HdT|exact HaT].
  - rewrite Htr3. destruct Hst2 as (_ & _ & _ & -> & _).
    destruct Hst1 as (_ & _ & _ & -> & _). reflexivity.
  - destruct Hst2 as (Hl2 & _ & Hc2 & _). destruct Hst1 as (Hl1 & _ & Hc1 & _).
    split; congruence.
  - auto.
Qed.

(** [forward] continues from the features with the augmentation and the
    dense layers. *)
Lemma forward_after_recurrence self x years locations rld st d B T F H
    x' st1 h0 c0 st2 hT cT evs st3 feat :
  recurrence_account self x st d B T F H x' st1 h0 c0 st2 hT cT evs st3 feat ->
  forward self x years locations rld st
  = (x0 ← forward_year_loc self feat years locations;
     forward_output self x0 rld) st3.
Proof.
  intros [Hre Hstates Hloop Hsq [Hx' _] _ _ _ _ _ _ _]. unfold forward.
  rewrite (bind_run _ _ _ _ _ Hre).
  erewrite (bind_run (shape_at x' 1));
    [|unfold shape_at; rewrite Hx'; reflexivity].
  rewrite (bind_run _ _ _ _ _ Hstates). cbv beta iota.
  rewrite (bind_run _ _ _ _ _ Hloop). cbv beta iota.
  rewrite (bind_run _ _ _ _ _ Hsq). reflexivity.
Qed.

Lemma storages_kept_after_recurrence self feat years locations rld :
  keeps storages_kept
    (x0 ← forward_year_loc self feat years locations;
     forward_output self x0 rld).
Proof.
  keeps_split;
    first [apply storages_kept_alloc | apply storages_kept_log
          | apply storages_kept_draw].
Qed.

Lemma elements_squeeze0 st t rest :
  t_shape t = 1%nat :: rest ->
  elements st (Tensor (t_loc t) (t_off t) rest (tail (t_stride t)) (t_dev t))
  = elements st t.
Proof.
  intros Hs. unfold elements. rewrite Hs. cbn [t_shape indices].
  change (seq 0 1) with [0%nat]. rewrite bind_cons. cbn [mbind list_bind]. rewrite app_nil_r.
  rewrite <- list_fmap_compose. apply list_fmap_ext. intros _ idx _.
  unfold compose, tget, offset_of. cbn [t_loc t_off t_stride].
  destruct (t_stride t) as [|s0 ss]; simpl; [destruct idx|]; reflexivity.
Qed.

(** X8.  A network without dense layers (built from an empty list of dense
    feature sizes) returns the features themselves: after the [T] steps of
    the recurrence no layer is called, and the result has the width of the
    hidden state (plus 3 with augmentation); without augmentation it is the
    final hidden state, as dropout left it, without its leading
    dimension. *)
Theorem forward_without_dense_layers (self : RNNet) (x : tensor)
    (years locations : option tensor) (st : state)
    (d : device) (B T F H : nat) :
  input_ok st x d B T F ->
  rnn_ok self d F H ->
  dense_layers self = [] ->
  year_loc_ok st self d B years locations ->
  exists x' h0 c0 hT cT evs a st',
    forward self x years locations false st = (inr (Output a), st')
    /\ t_shape a = [B; dense_input_width self H]
    /\ unrolled x' 0 T h0 c0 evs hT cT
    /\ trace st' = trace st ++ evs
    /\ (add_year_loc self = false -> squeeze0 hT st' = (inr a, st')).
Proof.
  intros Hin Hrnn Hnil Hyl.
  assert (Hnet : net_ok self d F H []) by (split; [exact Hrnn|rewrite Hnil; exact I]).
  destruct (forward_run self x years locations false st d B T F H []
              Hin Hnet Hyl)
    as (x' & h0 & c0 & hT & cT & feat & a & evs_r & evs_d & ys & Hacc).
  destruct (forward self x years locations false st) as [r st'] eqn:Hrun.
  destruct Hacc as [_ _ _ Hun Hfeat Hinput Hplain _ Hdense _ Htrace _ Hresult].
  cbn [fst snd] in *. subst r.
  rewrite Hnil in Hdense. inversion Hdense; subst.
  exists x', h0, c0, hT, cT, evs_r, a, st'. split_and!; try assumption.
  - reflexivity.
  - rewrite Htrace, app_nil_r. reflexivity.
  - intros Hadd. rewrite (Hplain Hadd). apply Hfeat.
Qed.

Lemma demo_bare_rnn_ok : rnn_ok demo_bare_net CPU 1 2.
Proof.
  split; [reflexivity|]. split; [eexists; reflexivity|].
  split; [eexists; reflexivity|]. repeat constructor.
Defined.

Lemma forward_without_dense_layers_witness :
  exists x' h0 c0 hT cT evs a st',
    forward demo_bare_net demo_x None None false demo_state
    = (inr (Output a), st')
    /\ t_shape a = [1; 2]%nat
    /\ unrolled x' 0 3 h0 c0 evs hT cT
    /\ trace st' = trace demo_state ++ evs
    /\ (add_year_loc demo_bare_net = false -> squeeze0 hT st' = (inr a, st')).
Proof.
  apply (forward_without_dense_layers demo_bare_net demo_x None None
           demo_state CPU 1 3 1 2).
  - exact demo_input_ok.
  - exact demo_bare_rnn_ok.
  - reflexivity.
  - apply year_loc_ok_plain. reflexivity.
Defined.

(** X10.  A network with year/location augmentation called without
    [years] raises AttributeError ([None] has no [unsqueeze]); called with
    [years] but without [locations] it raises TypeError ([torch.cat] of a
    tensor and [None]).  Either way the fault comes after the whole
    recurrence has run, and before any dense layer is called. *)
Theorem forward_without_year_loc_raises (self : RNNet) (x : tensor)
    (years locations : option tensor) (return_last_dense : bool) (st : state)
    (d : device) (B T F H : nat) :
  input_ok st x d B T F ->
  rnn_ok self d F H ->
  add_year_loc self = true ->
  match years with
  | None => True
  | Some y => locations = None /\ (1 <= length (t_shape y))%nat
  end ->
  let r := forward self x years locations return_last_dense st in
  r.1 = inl (match years with Some _ => TypeError | None => AttributeError end)
  /\ exists x' h0 c0 hT cT evs,
       unrolled x' 0 T h0 c0 evs hT cT /\ trace r.2 = trace st ++ evs.
Proof.
  intros Hin Hrnn Hadd Hyl r.
  destruct (forward_recurrence self x st d B T F H Hin Hrnn)
    as (x' & st1 & h0 & c0 & st2 & hT & cT & evs & st3 & feat & Hrec).
  pose proof (forward_after_recurrence self x years locations
                return_last_dense _ _ _ _ _ _ _ _ _ _ _ _ _ _ _ _ Hrec) as Hfwd.
  destruct Hrec as [_ _ _ _ _ _ _ _ Hun Htr _ _].
  assert (Hr : r = (inl (match years with Some _ => TypeError | None => AttributeError end), st3)).
  { unfold r. rewrite Hfwd. unfold forward_year_loc. rewrite Hadd.
    destruct years as [y|]; [|reflexivity].
    destruct Hyl as [-> Hy]. unfold unsqueeze.
    apply Nat.leb_le in Hy. rewrite Hy. reflexivity. }
  rewrite Hr. split; [reflexivity|].
  exists x', h0, c0, hT, cT, evs. auto.
Qed.

Lemma forward_without_year_loc_raises_witness :
  let r := forward (demo_net true) demo_x None None false demo_state in
  r.1 = inl AttributeError
  /\ exists x' h0 c0 hT cT evs,
       unrolled x' 0 3 h0 c0 evs hT cT
       /\ trace r.2 = trace demo_state ++ evs.
Proof.
  apply (forward_without_year_loc_raises (demo_net true) demo_x None None
           false demo_state CPU 1 3 1 2).
  - exact demo_input_ok.
  - exact (demo_rnn_ok true).
  - reflexivity.
  - exact I.
Defined.

(** X11.  The reshape of lines 115-116 accepts exactly the tensors of
    rank 4; [forward] on a tensor of another rank raises RuntimeError (from
    [permute]) at once, leaving the state as it was. *)
Theorem forward_needs_rank_4 (self : RNNet) (x : tensor)
    (years locations : option tensor) (return_last_dense : bool) (st : state) :
  (length (t_shape x) = 4%nat
   <-> exists x' st1, forward_reshape x st = (inr x', st1))
  /\ (length (t_shape x) <> 4%nat ->
      forward self x years locations return_last_dense st
      = (inl RuntimeError, st)).
Proof.
  assert (Hbad : length (t_shape x) <> 4%nat ->
                 forward_reshape x st = (inl RuntimeError, st)).
  { intros Hne. unfold forward_reshape, permute.
    rewrite bool_decide_eq_false_2; [reflexivity|].
    intros (Hlen & _). simpl in Hlen. congruence. }
  split; [split|].
  - intros Hlen.
    destruct (t_shape x) as [|B [|C [|T [|W [|]]]]] eqn:Hs; try discriminate.
    destruct (wp_forward_reshape x B C T W st (fun _ _ => True) Hs)
      as (x' & st1 & Hrun & _); [auto|eauto].
  - intros (x' & st1 & Hrun).
    destruct (decide (length (t_shape x) = 4%nat)) as [|Hne]; [assumption|].
    rewrite (Hbad Hne) in Hrun. discriminate.
  - intros Hne. unfold forward. apply bind_raise, Hbad, Hne.
Qed.

(** X12.  An input whose [channels * bins] is not the number of input
    features of the recurrent cell is rejected at the first timestep: on a
    series of at least one timestep [forward] raises RuntimeError before any
    sub-module has been called. *)
Theorem forward_rejects_feature_mismatch (self : RNNet) (x : tensor)
    (years locations : option tensor) (return_last_dense : bool) (st : state)
    (B C T W H n F : nat) :
  t_shape x = [B; C; T; W] ->
  (1 <= T)%nat ->
  hidden_size self = Z.of_nat H ->
  t_shape (weight_ih_l0 (rnn self)) = [n; F] ->
  (C * W)%nat <> F ->
  let r := forward self x years locations return_last_dense st in
  r.1 = inl RuntimeError /\ trace r.2 = trace st.
Proof.
  intros Hx HT Hh Hih Hne r.
  destruct (wp_forward_reshape x B C T W st
              (fun x' st' =>
                 t_shape x' = [B; T; (C * W)%nat] /\
                 t_stride x' = contiguous_strides [B; T; (C * W)%nat] /\
                 only_allocates st st') Hx)
    as (x' & st1 & Hre & Hx' & Hstr' & Hst1).
  { intros. auto. }
  destruct (wp_forward_states self x' B [T; (C * W)%nat] H st1
              (fun hc st' => only_allocates st1 st') Hx' Hh)
    as ([h0 c0] & st2 & Hstates & Hst2).
  { intros. assumption. }
  assert (Hr : r = (inl RuntimeError, st2)).
  { unfold r, forward. rewrite (bind_run _ _ _ _ _ Hre).
    erewrite (bind_run (shape_at x' 1));
      [|unfold shape_at; rewrite Hx'; reflexivity].
    rewrite (bind_run _ _ _ _ _ Hstates). cbv beta iota.
    apply bind_raise. destruct T as [|T]; [lia|].
    unfold range. cbn [seq for_each]. apply bind_raise.
    unfold forward_step.
    erewrite (bind_run (select1 x' 0));
      [|unfold select1; rewrite Hx', Hstr'; reflexivity].
    erewrite (bind_run (unsqueeze _ 1)); [|reflexivity].
    apply bind_raise. unfold LSTM_call.
    cbn [t_shape take drop app]. rewrite Hih.
    destruct (t_shape (weight_hh_l0 (rnn self))) as [|? [|? [|]]];
      try reflexivity.
    rewrite bool_decide_eq_false_2; [reflexivity|].
    intros (HF & _). exact (Hne HF). }
  rewrite Hr. split; [reflexivity|]. cbn [snd].
  destruct Hst2 as (_ & _ & _ & -> & _). destruct Hst1 as (_ & _ & _ & -> & _).
  reflexivity.
Qed.

Lemma forward_rejects_feature_mismatch_witness :
  let r := forward (demo_net false) (cpu_tensor 8 [1; 3; 1; 1]%nat) None None
                   false demo_state in
  r.1 = inl RuntimeError /\ trace r.2 = trace demo_state.
Proof.
  apply (forward_rejects_feature_mismatch (demo_net false)
           (cpu_tensor 8 [1; 3; 1; 1]%nat) None None false demo_state
           1 3 1 1 2 8 1).
  - reflexivity.
  - lia.
  - reflexivity.
  - reflexivity.
  - lia.
Defined.

(** ** Dropout in evaluation mode *)

#[global] Instance dropout_idle_preorder : PreOrder dropout_idle.
Proof.
  split.
  - intros st. split; [reflexivity|]. exists []. rewrite app_nil_r. auto.
  - intros a b c (Hg1 & evs1 & Ht1 & He1) (Hg2 & evs2 & Ht2 & He2).
    split; [congruence|]. exists (evs1 ++ evs2). split.
    + rewrite Ht2, Ht1, app_assoc. reflexivity.
    + apply Forall_app. auto.
Qed.

Lemma dropout_idle_alloc dev shape data : keeps dropout_idle (alloc dev shape data).
Proof.
  intros st. split; [reflexivity|]. exists []. simpl. rewrite app_nil_r. auto.
Qed.

Lemma dropout_idle_log e :
  match e with CallDropout input output => output = input | _ => True end ->
  keeps dropout_idle (log e).
Proof.
  intros He st. split; [reflexivity|]. exists [e]. simpl. auto.
Qed.

Lemma dropout_idle_Dropout_call d training x :
  training = false \/ Qeq_bool (p d) 0 = true ->
  keeps dropout_idle (Dropout_call d training x).
Proof.
  intros Hidle st. unfold Dropout_call.
  assert (Hc : negb training || Qeq_bool (p d) 0 = true)
    by (destruct Hidle as [->| ->]; [reflexivity|apply orb_true_r]).
  rewrite Hc. cbn [orb]. apply (dropout_idle_log (CallDropout x x)).
  reflexivity.
Qed.

Create HintDb torch_eval.
#[global] Hint Unfold sizes zeros empty shape_at permute contiguous view
  select1 unsqueeze squeeze0 cuda cat1 Linear_call LSTM_call
  forward_reshape forward_states forward_step forward_year_loc forward_dense
  forward_output forward : torch_eval.

(** X13.  In evaluation mode, or with a dropout probability of 0, a call
    of [forward] does not use the random number generator, and every call of
    dropout returns the hidden state it was given: whatever the input, also
    when the call raises. *)
Theorem forward_eval_dropout_idle (self : RNNet) (x : tensor)
    (years locations : option tensor) (return_last_dense : bool) (st : state) :
  training self = false \/ Qeq_bool (p (dropout self)) 0 = true ->
  let st' := (forward self x years locations return_last_dense st).2 in
  gen st' = gen st
  /\ exists evs,
       trace st' = trace st ++ evs
       /\ Forall (fun e => match e with
                           | CallDropout input output => output = input
                           | _ => True
                           end) evs.
Proof.
  intros Hidle.
  assert (Hk : keeps dropout_idle
                 (forward self x years locations return_last_dense)).
  { repeat first
      [ apply dropout_idle_Dropout_call; exact Hidle
      | apply keeps_ret; apply _
      | apply keeps_raise; apply _
      | apply keeps_get_state; apply _
      | apply keeps_bind; [apply _| |intros]
      | apply keeps_for_each; [apply _|intros]
      | match goal with
        | |- keeps _ (match ?x with _ => _ end) => destruct x
        | |- keeps _ (let '(_, _) := ?x in _) => destruct x
        end
      | progress autounfold with torch_eval ];
      first [apply dropout_idle_alloc | apply dropout_idle_log; exact I]. }
  exact (Hk st).
Qed.

Lemma forward_eval_dropout_idle_witness :
  let st' := (forward demo_eval_net demo_x None None true demo_state).2 in
  gen st' = gen demo_state
  /\ exists evs,
       trace st' = trace demo_state ++ evs
       /\ Forall (fun e => match e with
                           | CallDropout input output => output = input
                           | _ => True
                           end) evs.
Proof.
  apply (forward_eval_dropout_idle demo_eval_net demo_x None None true
           demo_state).
  left. reflexivity.
Defined.

(** ** What [return_last_dense] changes *)

Lemma only_adds_features_bind {A} (m : M A) (f1 f0 : A -> M forward_result) st :
  (forall a st', only_adds_features (f1 a st') (f0 a st')) ->
  only_adds_features ((m ≫= f1) st) ((m ≫= f0) st).
Proof.
  intros Hf. unfold mbind, M_bind.
  destruct (m st) as [[e|a] st']; [|apply Hf].
  split; reflexivity.
Qed.

Lemma forward_dense_run self rld k l x output st :
  forward_dense self rld (k, l) (x, output) st
  = match Linear_call l x st with
    | (inl e, st') => (inl e, st')
    | (inr y, st') =>
        (inr (y, if rld && (Z.of_nat k =? Z.of_nat (length (dense_layers self)) - 2)
                 then Some y else output), st')
    end.
Proof.
  unfold forward_dense, mbind, M_bind.
  destruct (Linear_call l x st) as [[e|y] st']; [reflexivity|].
  destruct (rld && _); reflexivity.
Qed.

(** The loop over the dense layers computes the same [x] and leaves the
    same state with and without [return_last_dense]. *)
Lemma forward_dense_loop_same self items x output st :
  match for_each items (forward_dense self false) (x, None) st with
  | (inl e, st') =>
      for_each items (forward_dense self true) (x, output) st = (inl e, st')
  | (inr (y, o), st') =>
      o = None
      /\ exists output',
           for_each items (forward_dense self true) (x, output) st
           = (inr (y, output'), st')
  end.
Proof.
  revert x output st.
  induction items as [|[k l] items IH]; intros x output st; cbn [for_each].
  - split; [reflexivity|eauto].
  - pose proof (forward_dense_run self false k l x None st) as H0.
    pose proof (forward_dense_run self true k l x output st) as H1.
    destruct (Linear_call l x st) as [[e|y] st1].
    + rewrite (bind_raise _ _ _ _ _ H0), (bind_raise _ _ _ _ _ H1).
      reflexivity.
    + rewrite (bind_run _ _ _ _ _ H0), (bind_run _ _ _ _ _ H1). apply IH.
Qed.

(** X14.  Requesting the features changes nothing else: with
    [return_last_dense=True] a call of [forward] leaves the same state as
    without, raises what the plain call raises, and when the plain call
    returns [x], it returns the same [x] together with the features, or
    raises UnboundLocalError. *)
Theorem return_last_dense_only_adds_features (self : RNNet) (x : tensor)
    (years locations : option tensor) (st : state) :
  let r1 := forward self x years locations true st in
  let r0 := forward self x years locations false st in
  r1.2 = r0.2
  /\ match r0.1 with
     | inl e => r1.1 = inl e
     | inr (Output y) =>
         r1.1 = inl UnboundLocalError
         \/ exists output, r1.1 = inr (OutputAndFeatures y output)
     | inr (OutputAndFeatures _ _) => False
     end.
Proof.
  change (only_adds_features (forward self x years locations true st)
                             (forward self x years locations false st)).
  unfold forward.
  apply only_adds_features_bind. intros x' s1.
  apply only_adds_features_bind. intros n s2.
  apply only_adds_features_bind. intros [h0 c0] s3.
  apply only_adds_features_bind. intros [hT cT] s4.
  apply only_adds_features_bind. intros feat s5.
  apply only_adds_features_bind. intros a s6.
  unfold forward_output, only_adds_features.
  pose proof (forward_dense_loop_same self (imap pair (dense_layers self))
                a None s6) as Hloop.
  destruct (for_each _ (forward_dense self false) _ _) as [[e|[y o]] s] eqn:H0.
  - rewrite (bind_raise _ _ _ _ _ Hloop), (bind_raise _ _ _ _ _ H0).
    split; reflexivity.
  - destruct Hloop as (-> & output' & H1).
    rewrite (bind_run _ _ _ _ _ H1), (bind_run _ _ _ _ _ H0).
    destruct output'; cbn; eauto.
Qed.

(** X15.  A model as the constructor returns it accepts every CPU batch
    [batch, channels, time, bins] with [channels * bins = in_channels *
    num_bins]: without augmentation, [forward] returns a tensor of shape
    [batch, w], [w] being the last entry of the list of dense feature sizes
    (the hidden size when the list is empty). *)
Theorem constructed_model_runs (in_channels num_bins hidden : Z) (q : Q)
    (dense_features : option nat) (dense : list Z) (st : state)
    (x : tensor) (B C T W : nat) :
  hyperparameters_ok in_channels num_bins hidden q dense ->
  dense_features_are st dense_features dense ->
  t_shape x = [B; C; T; W] ->
  t_dev x = CPU ->
  Z.of_nat (C * W) = in_channels * num_bins ->
  exists m st1 y st2,
    RNNModel_init in_channels num_bins hidden q dense_features false st
    = (inr m, st1)
    /\ forward (model m) x None None false st1 = (inr (Output y), st2)
    /\ t_shape y = [B; Z.to_nat (default hidden (last dense))].
Proof.
  intros Hhyp Hdf Hx Hdev HF.
  destruct (RNNModel_init_built _ _ _ _ _ false _ _ Hhyp Hdf)
    as (m & st1 & Hrun & Hb & _).
  pose proof (built_net _ _ _ _ _ _ _ _ _ _ Hb) as Hnet.
  destruct (built_fields _ _ _ _ _ _ _ _ _ _ Hb) as (Hadd & _).
  assert (Hin : input_ok st1 x CPU B T (Z.to_nat (in_channels * num_bins))).
  { split; [|auto]. exists C, W. split; [exact Hx|]. lia. }
  destruct (forward_run (model m) x None None false st1 CPU B T _ _ _
              Hin Hnet (year_loc_ok_plain _ _ _ _ _ _ Hadd))
    as (x' & h0 & c0 & hT & cT & feat & a & evs_r & evs_d & ys & Hacc).
  destruct (forward (model m) x None None false st1) as [r st2] eqn:Hfwd.
  destruct Hacc as [_ _ _ _ _ Hinput _ _ _ Hwidths _ _ Hresult].
  cbn [fst snd] in *. subst r.
  exists m, st1, (default a (last ys)), st2.
  split; [exact Hrun|]. split; [exact Hfwd|].
  unfold dense_input_width in Hinput. rewrite Hadd in Hinput.
  rewrite (last_output_shape a ys _ B _ CPU Hinput Hwidths).
  rewrite fmap_last. destruct (last dense); reflexivity.
Qed.

Lemma constructed_model_runs_witness :
  exists m st1 y st2,
    RNNModel_init 1 1 2 (3 # 4) (Some 0%nat) false demo_start = (inr m, st1)
    /\ forward (model m) demo_x None None false st1 = (inr (Output y), st2)
    /\ t_shape y = [1%nat; Z.to_nat 1].
Proof.
  apply (constructed_model_runs 1 1 2 (3 # 4) (Some 0%nat) [3; 1] demo_start
           demo_x 1 1 3 1).
  - exact demo_hyperparameters_ok.
  - reflexivity.
  - reflexivity.
  - reflexivity.
  - reflexivity.
Defined.

(* ===================================================================== *)
(** * What [forward] computes *)
(* ===================================================================== *)

(** The reshape copies elements, which is exact.  The kernels of the
    recurrent cell and of the dense layers are written over the reals, row
    by row; the lemmas about them below serve to compare two calls of
    [forward] with each other. *)

(** ** Row-major order *)

Lemma flat_index_lt shape idx :
  Forall2 lt idx shape -> (flat_index shape idx < numel shape)%nat.
Proof.
  intros Hlt. unfold flat_index.
  induction Hlt as [|i n idx shape Hi _ IH]; simpl; [lia|].
  fold (numel shape) in *. nia.
Qed.

Lemma indices_lookup shape idx :
  Forall2 lt idx shape -> indices shape !! flat_index shape idx = Some idx.
Proof.
  intros Hlt. induction Hlt as [|i n idx shape Hi Hlt IH]; [reflexivity|].
  unfold flat_index. cbn [indices contiguous_strides zip_with foldr].
  fold (flat_index shape idx).
  rewrite (lookup_bind_rows _ (numel shape)).
  - rewrite list_lookup_fmap, IH. reflexivity.
  - intros k. rewrite length_fmap. apply length_indices.
  - exact Hi.
  - by apply flat_index_lt.
Qed.

(** Reading a tensor that was just allocated, through its own strides. *)
Lemma tget_alloc st data shape dev idx :
  tget (with_storages st (storages st ++ [data]))
       (Tensor (length (storages st)) 0 shape (contiguous_strides shape) dev)
       idx
  = default 0%R (data !! flat_index shape idx).
Proof. unfold tget. cbn [t_loc]. rewrite read_push_new. reflexivity. Qed.

(** A contiguous copy has the elements of the original, index by index. *)
Lemma tget_copy st t dev idx :
  Forall2 lt idx (t_shape t) ->
  tget (with_storages st (storages st ++ [elements st t]))
       (Tensor (length (storages st)) 0 (t_shape t)
               (contiguous_strides (t_shape t)) dev) idx
  = tget st t idx.
Proof.
  intros Hidx. rewrite tget_alloc. unfold elements.
  rewrite list_lookup_fmap, (indices_lookup _ _ Hidx). reflexivity.
Qed.

(** In a contiguous tensor of rank 4 the strides are those of the
    row-major order, wherever an index can move. *)
Lemma contiguous_offset4 p B T C W s0 s1 s2 s3 b t c w :
  t_shape p = [B; T; C; W] -> t_stride p = [s0; s1; s2; s3] ->
  is_contiguous p = true ->
  (b < B)%nat -> (t < T)%nat -> (c < C)%nat -> (w < W)%nat ->
  offset_of p [b; t; c; w]
  = (t_off p + flat_index [B; T; C; W] [b; t; c; w])%nat.
Proof.
  intros Hs Hst Hc Hb Ht Hcc Hw.
  unfold is_contiguous in Hc. rewrite Hs, Hst in Hc.
  apply orb_true_iff in Hc as [Hc|Hc].
  { apply Nat.eqb_eq in Hc. cbn [numel foldr] in Hc.
    repeat (apply Nat.eq_mul_0 in Hc as [Hc|Hc]; [lia|]). lia. }
  unfold offset_of, flat_index. rewrite Hst. f_equal.
  cbn [zip zip_with reverse rev_append contiguous_from] in Hc.
  cbn [contiguous_strides zip_with foldr numel].
  change (reverse [(B, s0); (T, s1); (C, s2); (W, s3)])
    with [(W, s3); (C, s2); (T, s1); (B, s0)] in Hc.
  cbn [contiguous_from] in Hc.
  destruct (W =? 1)%nat eqn:HW; destruct (C =? 1)%nat eqn:HC;
    destruct (T =? 1)%nat eqn:HT; destruct (B =? 1)%nat eqn:HB;
    repeat match goal with
           | H : (_ =? _)%nat = true |- _ => apply Nat.eqb_eq in H
           | H : (_ =? _)%nat = false |- _ => clear H
           | H : _ && _ = true |- _ => apply andb_true_iff in H as [? ?]
           end; subst;
    repeat match goal with
           | H : (_ < 1)%nat |- _ =>
               apply Nat.lt_1_r in H; subst
           end; lia.
Qed.

(** ** The reshape of lines 115-116, element by element *)

Lemma wp_forward_reshape_elements x B C T W st (Q : tensor -> state -> Prop) :
  t_shape x = [B; C; T; W] -> length (t_stride x) = 4%nat ->
  (forall x' st',
      t_shape x' = [B; T; (C * W)%nat] ->
      t_stride x' = contiguous_strides [B; T; (C * W)%nat] ->
      t_dev x' = t_dev x ->
      only_allocates st st' ->
      (allocated st x -> allocated st' x') ->
      (forall b t c w,
          (b < B)%nat -> (t < T)%nat -> (c < C)%nat -> (w < W)%nat ->
          tget st' x' [b; t; (c * W + w)%nat] = tget st x [b; c; t; w]) ->
      Q x' st') ->
  wp (forward_reshape x) st Q.
Proof.
  intros Hx Hlen HQ. unfold forward_reshape.
  destruct (t_stride x) as [|s0 [|s1 [|s2 [|s3 [|]]]]] eqn:Hst; try discriminate.
  apply wp_bind. eapply wp_permute_0213; [exact Hx|].
  rewrite Hst. cbn [fmap list_fmap lookup_total list_lookup_total].
  set (p := Tensor (t_loc x) (t_off x) [B; T; C; W] [s0; s2; s1; s3] (t_dev x)).
  assert (Hp : forall s b t c w, tget s p [b; t; c; w] = tget s x [b; c; t; w]).
  { intros s b t c w. unfold tget, offset_of, p. rewrite Hst. simpl.
    f_equal. lia. }
  assert (Hflat : forall b t c w,
             flat_index [B; T; (C * W)%nat] [b; t; (c * W + w)%nat]
             = flat_index [B; T; C; W] [b; t; c; w]).
  { intros. unfold flat_index. simpl. lia. }
  apply wp_bind, wp_contiguous; intros Hc;
    (apply wp_bind; eapply wp_shape_at; [reflexivity|]);
    (apply wp_bind; eapply wp_shape_at; [reflexivity|]);
    (apply wp_bind; eapply wp_shape_at; [reflexivity|]);
    (apply wp_bind; eapply wp_shape_at; [reflexivity|]);
    (apply wp_view;
     [first [exact Hc | apply is_contiguous_strides]
     | simpl; lia
     | apply HQ; try reflexivity]).
  - intros Ha. exact Ha.
  - intros b t c w Hb Ht Hcc Hw. rewrite <- Hp.
    unfold tget at 1. cbn [t_loc]. unfold offset_of at 1.
    cbn [t_off t_stride]. fold (flat_index [B; T; (C * W)%nat] [b; t; (c * W + w)%nat]).
    rewrite Hflat.
    unfold tget. cbn [t_loc].
    rewrite (contiguous_offset4 p B T C W s0 s2 s1 s3 b t c w);
      try reflexivity; assumption.
  - apply only_allocates_push.
  - intros _. apply allocated_push. reflexivity.
  - intros b t c w Hb Ht Hcc Hw. rewrite <- Hp.
    etrans; [|apply (tget_copy st p (t_dev x) [b; t; c; w])].
    + rewrite !tget_alloc. cbn [t_shape]. rewrite Hflat. reflexivity.
    + repeat constructor; assumption.
Qed.

(** X16.  The reshape of lines 115-116 puts the channels and the bins of a
    timestep side by side, channel-major: it returns a tensor of shape
    [batch, time, channels * bins] whose element [b, t, c * bins + w] is
    element [b, c, t, w] of the input. *)
Theorem forward_reshape_elements (x : tensor) (B C T W : nat) (st : state) :
  t_shape x = [B; C; T; W] ->
  length (t_stride x) = 4%nat ->
  exists x' st1,
    forward_reshape x st = (inr x', st1)
    /\ t_shape x' = [B; T; (C * W)%nat]
    /\ forall b t c w,
         (b < B)%nat -> (t < T)%nat -> (c < C)%nat -> (w < W)%nat ->
         tget st1 x' [b; t; (c * W + w)%nat] = tget st x [b; c; t; w].
Proof.
  intros Hx Hlen.
  apply (wp_forward_reshape_elements x B C T W st); [exact Hx|exact Hlen|].
  intros x' st1 Hs _ _ _ _ Hel. auto.
Qed.

Lemma forward_reshape_elements_witness :
  exists x' st1,
    forward_reshape demo_x demo_state = (inr x', st1)
    /\ t_shape x' = [1; 3; (1 * 1)%nat]%nat
    /\ forall b t c w,
         (b < 1)%nat -> (t < 3)%nat -> (c < 1)%nat -> (w < 1)%nat ->
         tget st1 x' [b; t; (c * 1 + w)%nat] = tget demo_state demo_x [b; c; t; w].
Proof.
  apply (forward_reshape_elements demo_x 1 1 3 1 demo_state); reflexivity.
Defined.

(** ** The recurrent cell, row by row *)

Lemma LSTM_run_gate st rnn input h c L F H b :
  LSTM_run st rnn input h c L F H b
  = lstm_seq (lstm_cell (lstm_gate st rnn F H) H)
      ((fun t => (fun m => tget st input [b; t; m]) <$> seq 0 F) <$> seq 0 L)
      (state_row st h H b) (state_row st c H b).
Proof. reflexivity. Qed.

Lemma lstm_cell_ext g g' H x h c :
  (forall k, g k x h = g' k x h) ->
  lstm_cell g H x h c = lstm_cell g' H x h c.
Proof.
  intros Hg. unfold lstm_cell.
  assert (Hc : (fun j => sigmoid (g (H + j)%nat x h) * (c !!! j)
                         + sigmoid (g j x h) * tanh (g (2 * H + j)%nat x h))%R
               <$> seq 0 H
               = (fun j => sigmoid (g' (H + j)%nat x h) * (c !!! j)
                           + sigmoid (g' j x h) * tanh (g' (2 * H + j)%nat x h))%R
                 <$> seq 0 H).
  { apply list_fmap_ext. intros _ j _. rewrite !Hg. reflexivity. }
  rewrite Hc. f_equal.
  apply list_fmap_ext. intros _ j _. rewrite !Hg. reflexivity.
Qed.

Lemma lstm_cell_length g H x h c :
  length (lstm_cell g H x h c).1 = H /\ length (lstm_cell g H x h c).2 = H.
Proof. unfold lstm_cell. simpl. rewrite !length_fmap, !length_seq. auto. Qed.

Lemma lstm_seq_snoc cell xs x h c :
  (lstm_seq cell (xs ++ [x]) h c).2
  = cell x (lstm_seq cell xs h c).2.1 (lstm_seq cell xs h c).2.2.
Proof.
  revert h c. induction xs as [|x0 xs IH]; intros h c; simpl.
  - destruct (cell x h c). reflexivity.
  - destruct (cell x0 h c) as [h1 c1]. specialize (IH h1 c1).
    destruct (lstm_seq cell (xs ++ [x]) h1 c1) as [outs last].
    destruct (lstm_seq cell xs h1 c1) as [outs' last']. exact IH.
Qed.

Lemma lstm_seq_length g H xs h c :
  length h = H -> length c = H ->
  length (lstm_seq (lstm_cell g H) xs h c).2.1 = H
  /\ length (lstm_seq (lstm_cell g H) xs h c).2.2 = H.
Proof.
  revert h c. induction xs as [|x xs IH]; intros h c Hh Hc; cbn [lstm_seq];
    [auto|].
  destruct (lstm_cell_length g H x h c) as [H1 H2].
  destruct (lstm_cell g H x h c) as [h1 c1]. simpl in H1, H2.
  specialize (IH h1 c1 H1 H2).
  destruct (lstm_seq (lstm_cell g H) xs h1 c1) as [outs last]. exact IH.
Qed.

Lemma length_state_row st h H b : length (state_row st h H b) = H.
Proof. unfold state_row. rewrite length_fmap, length_seq. reflexivity. Qed.

Lemma state_row_kept st st' h H b :
  storages_kept st st' -> allocated st h ->
  state_row st' h H b = state_row st h H b.
Proof.
  intros Hk Ha. unfold state_row. apply list_fmap_ext. intros _ j _.
  by apply storages_kept_tget.
Qed.

Lemma lstm_gate_kept st st' rnn F H k x h :
  storages_kept st st' ->
  Forall (allocated st) (concat (all_weights rnn)) ->
  lstm_gate st' rnn F H k x h = lstm_gate st rnn F H k x h.
Proof.
  intros Hk Ha. unfold all_weights in Ha. simpl in Ha.
  apply Forall_cons in Ha as [A1 Ha]. apply Forall_cons in Ha as [A2 Ha].
  apply Forall_cons in Ha as [A3 Ha]. apply Forall_cons in Ha as [A4 _].
  unfold lstm_gate.
  rewrite (storages_kept_tget st st' (bias_ih_l0 rnn)),
    (storages_kept_tget st st' (bias_hh_l0 rnn)) by assumption.
  rewrite (list_fmap_ext (fun m => tget st' (weight_ih_l0 rnn) [k; m])
             (fun m => tget st (weight_ih_l0 rnn) [k; m]))
    by (intros _ m _; by apply storages_kept_tget).
  rewrite (list_fmap_ext (fun m => tget st' (weight_hh_l0 rnn) [k; m])
             (fun m => tget st (weight_hh_l0 rnn) [k; m]))
    by (intros _ m _; by apply storages_kept_tget).
  reflexivity.
Qed.

(** One more timestep of the recurrence on example [b]. *)
Lemma LSTM_run_S st rnn input h c L F H b :
  (LSTM_run st rnn input h c (S L) F H b).2
  = lstm_cell (lstm_gate st rnn F H) H
      ((fun m => tget st input [b; L; m]) <$> seq 0 F)
      (LSTM_run st rnn input h c L F H b).2.1
      (LSTM_run st rnn input h c L F H b).2.2.
Proof.
  rewrite !LSTM_run_gate, seq_S, fmap_app. simpl.
  apply lstm_seq_snoc.
Qed.

Lemma LSTM_run_lengths st rnn input h c L F H b :
  length (LSTM_run st rnn input h c L F H b).2.1 = H
  /\ length (LSTM_run st rnn input h c L F H b).2.2 = H.
Proof.
  rewrite LSTM_run_gate. apply lstm_seq_length; apply length_state_row.
Qed.

(** The rows of a state tensor that was just allocated from its rows. *)
Lemma state_row_alloc st loc (f : nat -> list R) B H dev b :
  storages st !! loc = Some (seq 0 B ≫= f) ->
  (forall b, length (f b) = H) -> (b < B)%nat ->
  state_row st (Tensor loc 0 [1%nat; B; H]
                       (contiguous_strides [1%nat; B; H]) dev) H b
  = f b.
Proof.
  intros Hs Hlen Hb.
  etrans; [|apply (fmap_lookup_seq 0%R)]. rewrite Hlen.
  unfold state_row. apply list_fmap_ext. intros i j Hj.
  apply lookup_seq in Hj as [Hij Hj]. simpl in Hij. subst i.
  unfold tget, read. cbn [t_loc]. rewrite Hs. cbn [mbind option_bind default].
  unfold offset_of. cbn [t_off t_stride contiguous_strides zip_with foldr numel].
  replace (0 + (0 * (B * (H * 1)) + (b * (H * 1) + (j * 1 + 0))))%nat
    with (b * H + j)%nat by lia.
  rewrite (lookup_bind_rows f H 0 B b j Hlen Hb Hj). reflexivity.
Qed.

Lemma wp_Dropout_call_idle d training x st (Q : tensor -> state -> Prop) :
  training = false \/ Qeq_bool (p d) 0 = true ->
  Q x (with_event st (CallDropout x x)) ->
  wp (Dropout_call d training x) st Q.
Proof.
  intros Hidle HQ. unfold Dropout_call.
  assert (Hc : negb training || Qeq_bool (p d) 0 = true)
    by (destruct Hidle as [->| ->]; [reflexivity|apply orb_true_r]).
  rewrite Hc. cbn [orb]. apply wp_bind, wp_ret, wp_bind, wp_log, wp_ret, HQ.
Qed.

(** The states a call of the cell returns, row by row. *)
Lemma wp_LSTM_call_rows rnn x h c B L F H n4 n4' st
    (Q : tensor * (tensor * tensor) -> state -> Prop) :
  t_shape x = [B; L; F] ->
  t_shape (weight_ih_l0 rnn) = [n4; F] ->
  t_shape (weight_hh_l0 rnn) = [n4'; H] ->
  t_shape h = [1%nat; B; H] -> t_shape c = [1%nat; B; H] ->
  Forall (fun t => t_dev t = t_dev x) (h :: c :: concat (all_weights rnn)) ->
  (forall out h' c' st',
      t_shape h' = [1%nat; B; H] -> t_shape c' = [1%nat; B; H] ->
      t_dev h' = t_dev x -> t_dev c' = t_dev x ->
      allocated st' h' -> allocated st' c' -> storages_kept st st' ->
      lists st' = lists st -> gen st' = gen st ->
      trace st' = trace st ++ [CallLSTM x h c out h' c'] ->
      (forall b, (b < B)%nat ->
         state_row st' h' H b = (LSTM_run st rnn x h c L F H b).2.1
         /\ state_row st' c' H b = (LSTM_run st rnn x h c L F H b).2.2) ->
      Q (out, (h', c')) st') ->
  wp (LSTM_call rnn x h c) st Q.
Proof.
  intros Hx Hih Hhh Hh Hc Hd HQ.
  eapply wp_LSTM_call; try eassumption. cbv zeta.
  set (s' := with_event _ _).
  assert (Hs' : storages s'
                = storages st
                  ++ [b ← seq 0 B; concat (LSTM_run st rnn x h c L F H b).1;
                      b ← seq 0 B; (LSTM_run st rnn x h c L F H b).2.1;
                      b ← seq 0 B; (LSTM_run st rnn x h c L F H b).2.2])
    by reflexivity.
  apply HQ; try reflexivity.
  - unfold allocated. cbn [t_loc]. rewrite Hs', length_app. simpl. lia.
  - unfold allocated. cbn [t_loc]. rewrite Hs', length_app. simpl. lia.
  - unfold storages_kept. rewrite Hs'. by apply prefix_app_r.
  - intros b Hb. split.
    + apply (state_row_alloc s' _
               (fun b => (LSTM_run st rnn x h c L F H b).2.1));
        [|intros; apply LSTM_run_lengths|exact Hb].
      rewrite Hs'. rewrite lookup_app_r by lia.
      replace (length (storages st) + 1 - length (storages st))%nat
        with 1%nat by lia. reflexivity.
    + apply (state_row_alloc s' _
               (fun b => (LSTM_run st rnn x h c L F H b).2.2));
        [|intros; apply LSTM_run_lengths|exact Hb].
      rewrite Hs'. rewrite lookup_app_r by lia.
      replace (length (storages st) + 2 - length (storages st))%nat
        with 2%nat by lia. reflexivity.
Qed.

(** One timestep of [forward], with dropout idle, on the rows. *)
Lemma LSTM_run_slice st s rnn x slice h c i F H b hr cr :
  storages_kept st s ->
  Forall (allocated st) (concat (all_weights rnn)) -> allocated st x ->
  timestep x i slice ->
  state_row s h H b = hr -> state_row s c H b = cr ->
  (LSTM_run s rnn slice h c 1 F H b).2
  = lstm_cell (lstm_gate st rnn F H) H
      ((fun m => tget st x [b; i; m]) <$> seq 0 F) hr cr.
Proof.
  intros Hk Hpar Hax (Hloc & _ & _ & _ & _ & _ & _ & _ & Hoff) Hh Hc.
  rewrite LSTM_run_gate. change (seq 0 1) with [0%nat].
  cbn [fmap list_fmap lstm_seq]. rewrite Hh, Hc.
  assert (Hrow : (fun m => tget s slice [b; 0%nat; m]) <$> seq 0 F
                 = (fun m => tget st x [b; i; m]) <$> seq 0 F).
  { apply list_fmap_ext. intros _ m _.
    rewrite <- (storages_kept_tget st s x) by assumption.
    unfold tget. rewrite Hloc, Hoff. reflexivity. }
  rewrite Hrow.
  rewrite (lstm_cell_ext (lstm_gate s rnn F H) (lstm_gate st rnn F H))
    by (intros k; by apply lstm_gate_kept).
  destruct (lstm_cell _ _ _ _ _). reflexivity.
Qed.

Lemma wp_forward_loop_rows self x h0 c0 B T F H d st
    (Q : tensor * tensor -> state -> Prop) :
  rnn_ok self d F H ->
  training self = false \/ Qeq_bool (p (dropout self)) 0 = true ->
  t_shape x = [B; T; F] -> t_stride x = contiguous_strides [B; T; F] ->
  t_dev x = d -> allocated st x ->
  Forall (allocated st) (concat (all_weights (rnn self))) ->
  t_shape h0 = [1%nat; B; H] -> t_shape c0 = [1%nat; B; H] ->
  t_dev h0 = d -> t_dev c0 = d -> allocated st h0 -> allocated st c0 ->
  (forall hT cT st',
      t_shape hT = [1%nat; B; H] -> t_shape cT = [1%nat; B; H] ->
      allocated st' hT -> allocated st' cT -> storages_kept st st' ->
      (forall b, (b < B)%nat ->
         state_row st' hT H b = (LSTM_run st (rnn self) x h0 c0 T F H b).2.1
         /\ state_row st' cT H b
            = (LSTM_run st (rnn self) x h0 c0 T F H b).2.2) ->
      Q (hT, cT) st') ->
  wp (for_each (range T) (forward_step self x) (h0, c0)) st Q.
Proof.
  intros (Hhid & [n4 Hih] & [n4' Hhh] & Hdevs) Hidle Hx Hstr Hdx Hax Hpar
    Hh0 Hc0 Hdh Hdc Hah0 Hac0 HQ.
  apply (wp_for_each
    (fun done hc st' =>
       t_shape hc.1 = [1%nat; B; H] /\ t_shape hc.2 = [1%nat; B; H]
       /\ t_dev hc.1 = d /\ t_dev hc.2 = d
       /\ allocated st' hc.1 /\ allocated st' hc.2
       /\ storages_kept st st'
       /\ forall b, (b < B)%nat ->
            state_row st' hc.1 H b
            = (LSTM_run st (rnn self) x h0 c0 (length done) F H b).2.1
            /\ state_row st' hc.2 H b
               = (LSTM_run st (rnn self) x h0 c0 (length done) F H b).2.2)).
  - cbn [fst snd length]. split_and!; try assumption; try reflexivity.
    intros b Hb. rewrite LSTM_run_gate. split; reflexivity.
  - intros done i rest [h c] s Hsplit
      (Hsh & Hsc & Hhd & Hcd & Hha & Hca & Hkept & Hrows).
    cbn [fst snd] in *.
    apply seq_middle in Hsplit as [Hi Hlt]. simpl in Hi. subst i.
    unfold forward_step.
    apply wp_bind.
    eapply wp_select1; [exact Hx|rewrite Hstr; reflexivity|exact Hlt|].
    apply wp_bind, wp_unsqueeze; [simpl; lia|].
    cbn [t_shape t_stride t_loc t_off t_dev take drop app lookup list_lookup].
    set (slice := Tensor (t_loc x) _ [B; 1%nat; F] _ (t_dev x)).
    assert (Hslice : timestep x (length done) slice).
    { split; [reflexivity|]. split; [reflexivity|].
      exists B, T, F. repeat split; try assumption; try reflexivity.
      intros b m. unfold offset_of, slice. rewrite Hstr. simpl. lia. }
    apply wp_bind.
    eapply (wp_LSTM_call_rows _ slice h c B 1 F H);
      [reflexivity|exact Hih|exact Hhh|exact Hsh|exact Hsc| |].
    { unfold slice. cbn [t_dev]. rewrite Hdx.
      constructor; [exact Hhd|]. constructor; [exact Hcd|]. exact Hdevs. }
    intros out h1 c1 s1 Hsh1 Hsc1 Hdh1 Hdc1 Hah1 Hac1 Hk1 _ _ _ Hrows1.
    apply wp_bind, wp_Dropout_call_idle; [exact Hidle|].
    apply wp_ret. cbn [fst snd].
    rewrite length_app. cbn [length].
    replace (length done + 1)%nat with (S (length done)) by lia.
    split_and!; try assumption.
    + rewrite Hdh1. exact Hdx.
    + rewrite Hdc1. exact Hdx.
    + etrans; [exact Hkept|exact Hk1].
    + intros b Hb. destruct (Hrows b Hb) as [Hrh Hrc].
      destruct (Hrows1 b Hb) as [Hr1 Hr2].
      pose proof (LSTM_run_slice st s (rnn self) x slice h c (length done)
                    F H b _ _ Hkept Hpar Hax Hslice Hrh Hrc) as Hstep.
      rewrite <- LSTM_run_S in Hstep.
      change (state_row (with_event s1 (CallDropout h1 h1)) h1 H b)
        with (state_row s1 h1 H b).
      change (state_row (with_event s1 (CallDropout h1 h1)) c1 H b)
        with (state_row s1 c1 H b).
      rewrite Hr1, Hr2, Hstep. auto.
  - intros [hT cT] s (Hsh & Hsc & _ & _ & Hha & Hca & Hkept & Hrows).
    unfold range in Hrows. rewrite length_seq in Hrows.
    cbn [fst snd] in *. by apply HQ.
Qed.

Lemma demo_eval_rnn_ok : rnn_ok demo_eval_net CPU 1 2.
Proof.
  split; [reflexivity|]. split; [eexists; reflexivity|].
  split; [eexists; reflexivity|]. repeat constructor.
Defined.

Lemma demo_eval_allocated :
  Forall (allocated demo_state) (demo_x :: parameters demo_eval_net).
Proof. repeat constructor; unfold allocated; simpl; lia. Defined.

(** ** The dense layers, row by row *)

Lemma row_alloc st loc (f : nat -> list R) B w dev b :
  storages st !! loc = Some (seq 0 B ≫= f) ->
  (forall b, length (f b) = w) -> (b < B)%nat ->
  row st (Tensor loc 0 [B; w] (contiguous_strides [B; w]) dev) w b = f b.
Proof.
  intros Hs Hlen Hb.
  etrans; [|apply (fmap_lookup_seq 0%R)]. rewrite Hlen.
  unfold row. apply list_fmap_ext. intros i j Hj.
  apply lookup_seq in Hj as [Hij Hj]. simpl in Hij. subst i.
  unfold tget, read. cbn [t_loc]. rewrite Hs. cbn [mbind option_bind default].
  unfold offset_of. cbn [t_off t_stride contiguous_strides zip_with foldr numel].
  replace (0 + (b * (w * 1) + (j * 1 + 0)))%nat with (b * w + j)%nat by lia.
  rewrite (lookup_bind_rows f w 0 B b j Hlen Hb Hj). reflexivity.
Qed.

Lemma Linear_data_rows st layer x B n_in n_out :
  t_shape (weight layer) = [n_out; n_in] ->
  Linear_data st layer x [B] n_in n_out
  = seq 0 B ≫= (fun b => Linear_row st layer (row st x n_in b)).
Proof.
  intros Hw. unfold Linear_data. rewrite indices_vector, list_fmap_bind.
  apply list_bind_ext; [|reflexivity]. intros b.
  unfold Linear_row. rewrite Hw. reflexivity.
Qed.

Lemma length_Linear_row st layer xrow n_out n_in :
  t_shape (weight layer) = [n_out; n_in] ->
  length (Linear_row st layer xrow) = n_out.
Proof.
  intros Hw. unfold Linear_row. rewrite Hw, length_fmap, length_seq.
  reflexivity.
Qed.

Lemma Linear_row_kept st st' layer xrow :
  storages_kept st st' ->
  allocated st (weight layer) -> allocated st (bias layer) ->
  Linear_row st' layer xrow = Linear_row st layer xrow.
Proof.
  intros Hk Hw Hb. unfold Linear_row.
  destruct (t_shape (weight layer)) as [|n_out [|n_in [|]]]; try reflexivity.
  apply list_fmap_ext. intros _ o _.
  rewrite (row_kept st st'), (storages_kept_tget st st') by assumption.
  reflexivity.
Qed.

Lemma dense_rows_kept st st' layers xrow :
  storages_kept st st' ->
  Forall (fun l => allocated st (weight l) /\ allocated st (bias l)) layers ->
  dense_rows st' layers xrow = dense_rows st layers xrow.
Proof.
  intros Hk Ha. revert xrow. unfold dense_rows.
  induction Ha as [|l layers [Hw Hb] _ IH]; intros xrow; [reflexivity|].
  simpl. rewrite (Linear_row_kept st st') by assumption. apply IH.
Qed.

(** The result of a dense layer, row by row. *)
Lemma wp_Linear_call_rows layer x n_out n_in B st
    (Q : tensor -> state -> Prop) :
  t_shape (weight layer) = [n_out; n_in] ->
  t_shape x = [B; n_in] ->
  t_dev x = t_dev (weight layer) -> t_dev x = t_dev (bias layer) ->
  (forall y st',
      t_shape y = [B; n_out] -> t_dev y = t_dev x -> allocated st' y ->
      storages_kept st st' ->
      (forall b, (b < B)%nat ->
         row st' y n_out b = Linear_row st layer (row st x n_in b)) ->
      Q y st') ->
  wp (Linear_call layer x) st Q.
Proof.
  intros Hw Hx Hd1 Hd2 HQ.
  eapply (wp_Linear_call layer x n_out n_in [B]); try eassumption.
  cbv zeta. set (s' := with_event _ _).
  assert (Hs' : storages s'
                = storages st ++ [Linear_data st layer x [B] n_in n_out])
    by reflexivity.
  apply HQ; try reflexivity.
  - unfold allocated. cbn [t_loc]. rewrite Hs', length_app. simpl. lia.
  - unfold storages_kept. rewrite Hs'. by apply prefix_app_r.
  - intros b Hb.
    apply (row_alloc s' _ (fun b => Linear_row st layer (row st x n_in b)));
      [|intros; by eapply length_Linear_row|exact Hb].
    rewrite Hs', (Linear_data_rows _ _ _ _ _ _ Hw).
    apply list_lookup_middle. reflexivity.
Qed.

(** The loop over the dense layers without [return_last_dense], row by
    row. *)
Lemma wp_dense_loop_rows self x0 B n_in widths d st
    (Q : tensor * option tensor -> state -> Prop) :
  dense_ok d n_in (dense_layers self) widths ->
  Forall (fun l => allocated st (weight l) /\ allocated st (bias l))
         (dense_layers self) ->
  t_shape x0 = [B; n_in] -> t_dev x0 = d -> allocated st x0 ->
  (forall y st',
      t_shape y = [B; default n_in (last widths)] ->
      storages_kept st st' -> allocated st' y ->
      (forall b, (b < B)%nat ->
         row st' y (default n_in (last widths)) b
         = dense_rows st (dense_layers self) (row st x0 n_in b)) ->
      Q (y, None) st') ->
  wp (for_each (imap pair (dense_layers self)) (forward_dense self false)
               (x0, None)) st Q.
Proof.
  intros Hok Hpar Hx Hd Hax HQ.
  set (layers := dense_layers self) in *.
  apply (wp_for_each
    (fun done xo st' =>
       let w := default n_in (last (take (length done) widths)) in
       xo.2 = None
       /\ t_shape xo.1 = [B; w] /\ t_dev xo.1 = d
       /\ storages_kept st st' /\ allocated st' xo.1
       /\ forall b, (b < B)%nat ->
            row st' xo.1 w b
            = dense_rows st (take (length done) layers) (row st x0 n_in b))).
  - cbn [fst snd length take last default]. split_and!; try assumption;
      reflexivity.
  - intros done [k l] rest [x o] s Hsplit (Ho & Hsh & Hdev & Hk & Ha & Hrows).
    cbn [fst snd] in *. subst o.
    assert (Hkl : imap pair layers !! length done = Some (k, l))
      by (rewrite Hsplit; apply list_lookup_middle; reflexivity).
    rewrite list_lookup_imap in Hkl.
    destruct (layers !! length done) as [l'|] eqn:Hl'; [|discriminate].
    injection Hkl as <- <-.
    destruct (dense_ok_lookup _ _ _ _ _ _ Hok Hl') as (w & Hw & Hws & _ & Hd1 & Hd2).
    eapply Forall_lookup_1 in Hpar as [Hpw Hpb]; [|exact Hl'].
    destruct (wp_Linear_call_rows l' x w _ B s
                (fun y st' =>
                   t_shape y = [B; w] /\ t_dev y = d /\ allocated st' y
                   /\ storages_kept s st'
                   /\ forall b, (b < B)%nat ->
                        row st' y w b
                        = Linear_row s l'
                            (row s x (default n_in
                                        (last (take (length done) widths))) b))
                Hws Hsh)
      as (y & s1 & Hcall & Hy & Hyd & Hya & Hk1 & Hyrows);
      [congruence|congruence| |].
    { intros y s1 ? Hyd ? ? ?. split_and!; try assumption. congruence. }
    eapply wp_run; [rewrite forward_dense_run, Hcall; reflexivity|].
    cbn [fst snd andb]. rewrite length_app. cbn [length].
    replace (length done + 1)%nat with (S (length done)) by lia.
    rewrite (take_S_r _ _ _ Hl'), (take_S_r _ _ _ Hw), last_snoc.
    change (default n_in (Some w)) with w.
    split_and!; try assumption; try reflexivity.
    + etrans; eassumption.
    + intros b Hb. unfold dense_rows. rewrite foldl_snoc.
      fold (dense_rows st (take (length done) layers) (row st x0 n_in b)).
      rewrite <- (Hrows b Hb), (Hyrows b Hb).
      by apply Linear_row_kept.
  - intros [y o] s (Ho & Hsh & _ & Hk & Ha & Hrows).
    cbn [fst snd] in *. subst o.
    unfold layers in *. rewrite length_imap in *.
    rewrite firstn_all in Hrows.
    rewrite <- (dense_ok_length _ _ _ _ Hok), firstn_all in Hsh, Hrows.
    by apply HQ.
Qed.

(** ** The whole computation, row by row *)

Lemma lstm_seq_ext g g' H xs h c :
  (forall k x h, g k x h = g' k x h) ->
  lstm_seq (lstm_cell g H) xs h c = lstm_seq (lstm_cell g' H) xs h c.
Proof.
  intros Hg. revert h c. induction xs as [|x xs IH]; intros h c;
    cbn [lstm_seq]; [reflexivity|].
  rewrite (lstm_cell_ext g g') by (intros; apply Hg).
  destruct (lstm_cell g' H x h c) as [h1 c1]. rewrite IH. reflexivity.
Qed.

Lemma fmap_seq_mul {A} (f : nat -> A) C W :
  f <$> seq 0 (C * W) = c ← seq 0 C; (fun w => f (c * W + w)%nat) <$> seq 0 W.
Proof.
  induction C as [|C IH]; [reflexivity|].
  replace (S C * W)%nat with (C * W + W)%nat by lia.
  rewrite seq_app, fmap_app, IH, seq_S, bind_app. f_equal.
  cbn [mbind list_bind]. rewrite app_nil_r.
  replace (seq (0 + C * W) W) with (Nat.add (C * W) <$> seq 0 W)
    by (rewrite fmap_add_seq; f_equal; lia).
  rewrite <- list_fmap_compose.
  apply list_fmap_ext. intros _ w _. simpl. reflexivity.
Qed.

Lemma row_squeeze0 st t B H b :
  t_shape t = [1%nat; B; H] ->
  row st (Tensor (t_loc t) (t_off t) [B; H] (tail (t_stride t)) (t_dev t)) H b
  = state_row st t H b.
Proof.
  intros Hs. unfold row, state_row. apply list_fmap_ext. intros _ j _.
  unfold tget, offset_of. cbn [t_loc t_off t_stride].
  destruct (t_stride t) as [|s0 ss]; reflexivity.
Qed.

(** The rows of a zero-filled state are zero. *)
Lemma state_row_zero st t B H b :
  t_shape t = [1%nat; B; H] ->
  elements st t = replicate (numel [1%nat; B; H]) 0%R ->
  (b < B)%nat ->
  state_row st t H b = replicate H 0%R.
Proof.
  intros Hs Hz Hb. unfold state_row.
  rewrite <- (length_seq H 0) at 2. apply const_fmap. intros i j Hj.
  apply lookup_seq in Hj as [Hij Hj]. simpl in Hij. subst i.
  assert (Hidx : Forall2 lt [0%nat; b; j] (t_shape t))
    by (rewrite Hs; repeat constructor; lia).
  pose proof (indices_lookup _ _ Hidx) as Hl.
  assert (He : elements st t !! flat_index (t_shape t) [0%nat; b; j]
               = Some (tget st t [0%nat; b; j]))
    by (unfold elements; rewrite list_lookup_fmap, Hl; reflexivity).
  rewrite Hz in He. apply lookup_replicate_1 in He as [He _]. exact He.
Qed.

Lemma parameters_allocated st self :
  Forall (allocated st) (parameters self) ->
  Forall (allocated st) (concat (all_weights (rnn self)))
  /\ Forall (fun l => allocated st (weight l) /\ allocated st (bias l))
            (dense_layers self).
Proof.
  unfold parameters. intros Ha. apply Forall_app in Ha as [Hr Hd].
  split; [exact Hr|].
  induction (dense_layers self) as [|l layers IH]; [constructor|].
  rewrite bind_cons in Hd. apply Forall_app in Hd as [Hl Hd].
  apply Forall_cons in Hl as [Hw Hl]. apply Forall_cons in Hl as [Hb _].
  constructor; [auto|apply IH, Hd].
Qed.

(** With dropout idle, [forward] up to the features: row [b] of the
    features is the last hidden row of the LSTM on example [b]. *)
Lemma forward_features self x years locations rld st d B C T W H :
  t_shape x = [B; C; T; W] -> length (t_stride x) = 4%nat ->
  t_dev x = d -> d = CPU \/ d = CUDA (current_cuda st) ->
  rnn_ok self d (C * W) H ->
  Forall (allocated st) (x :: concat (all_weights (rnn self))) ->
  training self = false \/ Qeq_bool (p (dropout self)) 0 = true ->
  exists feat st3,
    forward self x years locations rld st
    = (x0 ← forward_year_loc self feat years locations;
       forward_output self x0 rld) st3
    /\ t_shape feat = [B; H] /\ t_dev feat = d /\ allocated st3 feat
    /\ storages_kept st st3
    /\ forall b, (b < B)%nat ->
         row st3 feat H b = hidden_row st self x C T W H b.
Proof.
  intros Hx Hlen Hdx Hdev Hrnn Hall Hidle.
  apply Forall_cons in Hall as [Hax Hpr].
  assert (Hin : input_ok st x d B T (C * W)).
  { split; [|auto]. exists C, W. auto. }
  destruct (forward_recurrence self x st d B T (C * W) H Hin Hrnn)
    as (x' & st1 & h0 & c0 & st2 & hT & cT & evs & st3 & feat & Hrec).
  pose proof (forward_after_recurrence self x years locations rld
                _ _ _ _ _ _ _ _ _ _ _ _ _ _ _ _ Hrec) as Hfwd.
  destruct Hrec as [Hre Hstates Hloop Hsq (Hx' & Hstr' & Hdx')
                    (Hh0 & Hc0 & Hdh & Hdc & Hah0 & Hac0 & Hzh & Hzc)
                    (HhT & HdT & HaT) (Hfs & Hfd & Hfa) _ _ _
                    (Hst1 & Hst2 & Hk23)].
  (* the reshaped input, element by element *)
  destruct (wp_forward_reshape_elements x B C T W st
              (fun x' st' =>
                 (allocated st x -> allocated st' x')
                 /\ forall b t c w,
                      (b < B)%nat -> (t < T)%nat -> (c < C)%nat -> (w < W)%nat ->
                      tget st' x' [b; t; (c * W + w)%nat]
                      = tget st x [b; c; t; w]) Hx Hlen)
    as (x2 & s1 & Hre2 & Hax' & Hel).
  { intros. auto. }
  rewrite Hre in Hre2. injection Hre2 as <- <-.
  specialize (Hax' Hax).
  pose proof (only_allocates_kept _ _ Hst1) as Hk01.
  pose proof (only_allocates_kept _ _ Hst2) as Hk12.
  assert (Hk02 : storages_kept st st2) by (etrans; eassumption).
  assert (Hk03 : storages_kept st st3) by (etrans; eassumption).
  (* the loop, row by row *)
  destruct (wp_forward_loop_rows self x' h0 c0 B T (C * W) H d st2
              (fun hc st' =>
                 forall b, (b < B)%nat ->
                   state_row st' hc.1 H b
                   = (LSTM_run st2 (rnn self) x' h0 c0 T (C * W) H b).2.1))
    as ([hT' cT'] & s3 & Hloop2 & Hrows); try assumption.
  { exact (allocated_kept st1 st2 x' Hk12 Hax'). }
  { eapply Forall_impl; [exact Hpr|]. intros t Ht.
    exact (allocated_kept st st2 t Hk02 Ht). }
  { intros ? ? ? _ _ _ _ _ Hr b Hb. apply Hr, Hb. }
  rewrite Hloop in Hloop2. injection Hloop2 as <- <- <-. cbn [fst] in Hrows.
  assert (Hfeat : feat = Tensor (t_loc hT) (t_off hT) [B; H]
                                (tail (t_stride hT)) (t_dev hT)).
  { unfold squeeze0 in Hsq. rewrite HhT in Hsq. by injection Hsq as <-. }
  exists feat, st3. split_and!; try assumption.
  intros b Hb.
  rewrite Hfeat, (row_squeeze0 st3 hT B H b HhT), (Hrows b Hb).
  unfold hidden_row. rewrite LSTM_run_gate.
  rewrite (state_row_zero st2 h0 B H b Hh0 Hzh Hb),
    (state_row_zero st2 c0 B H b Hc0 Hzc Hb).
  rewrite (lstm_seq_ext (lstm_gate st2 (rnn self) (C * W) H)
             (lstm_gate st (rnn self) (C * W) H))
    by (intros; by apply lstm_gate_kept).
  do 2 f_equal. f_equal.
  apply list_fmap_ext. intros i t Ht.
  apply lookup_seq in Ht as [Hit Ht]. simpl in Hit. subst i.
  rewrite fmap_seq_mul. unfold input_row.
  apply Forall_bind_ext, Forall_forall. intros c Hc.
  apply elem_of_seq in Hc.
  apply list_fmap_ext. intros i w Hw.
  apply lookup_seq in Hw as [Hiw Hw]. simpl in Hiw. subst i.
  rewrite (storages_kept_tget st1 st2) by assumption.
  apply Hel; lia.
Qed.

(** With dropout idle and without augmentation, [forward] computes
    [prediction]. *)
Lemma forward_prediction self x years locations st d B C T W H widths :
  t_shape x = [B; C; T; W] -> length (t_stride x) = 4%nat ->
  t_dev x = d -> d = CPU \/ d = CUDA (current_cuda st) ->
  net_ok self d (C * W) H widths ->
  add_year_loc self = false ->
  Forall (allocated st) (x :: parameters self) ->
  training self = false \/ Qeq_bool (p (dropout self)) 0 = true ->
  exists y st',
    forward self x years locations false st = (inr (Output y), st')
    /\ t_shape y = [B; default H (last widths)]
    /\ storages_kept st st' /\ allocated st' y
    /\ forall b, (b < B)%nat ->
         row st' y (default H (last widths)) b
         = prediction st self x C T W H b.
Proof.
  intros Hx Hlen Hdx Hdev [Hrnn Hdense] Hadd Hall Hidle.
  apply Forall_cons in Hall as [Hax Hpar].
  apply parameters_allocated in Hpar as [Hpr Hpd].
  destruct (forward_features self x years locations false st d B C T W H)
    as (feat & st3 & Hfwd & Hfs & Hfd & Hfa & Hk03 & Hrows); try assumption.
  { by constructor. }
  assert (Hrun : forward_year_loc self feat years locations st3
                 = (inr feat, st3)).
  { unfold forward_year_loc. rewrite Hadd. reflexivity. }
  rewrite (bind_run _ _ _ _ _ Hrun) in Hfwd. unfold forward_output in Hfwd.
  unfold dense_input_width in Hdense. rewrite Hadd in Hdense.
  destruct (wp_dense_loop_rows self feat B H widths d st3
              (fun yo st' =>
                 yo.2 = None
                 /\ t_shape yo.1 = [B; default H (last widths)]
                 /\ storages_kept st3 st' /\ allocated st' yo.1
                 /\ forall b, (b < B)%nat ->
                      row st' yo.1 (default H (last widths)) b
                      = dense_rows st3 (dense_layers self) (row st3 feat H b))
              Hdense)
    as ([y o] & st5 & Hdl & Ho & Hy & Hk35 & Hay & Hyrows);
    try assumption; try reflexivity.
  { eapply Forall_impl; [exact Hpd|]. intros l [? ?].
    split; eapply (allocated_kept st st3); assumption. }
  { intros. cbn [fst snd]. auto. }
  cbn [fst snd] in *. subst o.
  rewrite (bind_run _ _ _ _ _ Hdl) in Hfwd.
  exists y, st5. split; [exact Hfwd|]. split; [exact Hy|].
  split; [by etrans|]. split; [exact Hay|].
  intros b Hb. rewrite (Hyrows b Hb).
  rewrite (dense_rows_kept st st3) by assumption.
  unfold prediction. rewrite (Hrows b Hb). reflexivity.
Qed.

(** ** Calling [forward] again *)

#[global] Instance device_kept_preorder : PreOrder device_kept.
Proof.
  split; [intros st; reflexivity|].
  intros a b c Hab Hbc. unfold device_kept in *. congruence.
Qed.

Lemma device_kept_forward self x years locations rld :
  keeps device_kept (forward self x years locations rld).
Proof. keeps_split; intros st; reflexivity. Qed.

Lemma input_row_kept st st' x C W b t :
  storages_kept st st' -> allocated st x ->
  input_row st' x C W b t = input_row st x C W b t.
Proof.
  intros Hk Ha. unfold input_row. apply list_bind_ext; [|reflexivity].
  intros c. apply list_fmap_ext. intros _ w _. by apply storages_kept_tget.
Qed.

Lemma prediction_kept st st' self x C T W H b :
  storages_kept st st' ->
  Forall (allocated st) (x :: parameters self) ->
  prediction st' self x C T W H b = prediction st self x C T W H b.
Proof.
  intros Hk Hall. apply Forall_cons in Hall as [Hax Hpar].
  apply parameters_allocated in Hpar as [Hpr Hpd].
  unfold prediction, hidden_row.
  rewrite (dense_rows_kept st st') by assumption.
  rewrite (lstm_seq_ext (lstm_gate st' (rnn self) (C * W) H)
             (lstm_gate st (rnn self) (C * W) H))
    by (intros; by apply lstm_gate_kept).
  rewrite (list_fmap_ext (input_row st' x C W b) (input_row st x C W b))
    by (intros _ t _; by apply input_row_kept).
  reflexivity.
Qed.

(** X19.  No state survives a call: with dropout idle, a second call of
    [forward] on the same input returns the same rows as the first, and the
    result of the first call is still what it was. *)
Theorem forward_is_repeatable (self : RNNet) (x : tensor)
    (years locations : option tensor) (st : state)
    (d : device) (B C T W H : nat) (widths : list nat) :
  t_shape x = [B; C; T; W] ->
  length (t_stride x) = 4%nat ->
  t_dev x = d ->
  d = CPU \/ d = CUDA (current_cuda st) ->
  net_ok self d (C * W) H widths ->
  add_year_loc self = false ->
  Forall (allocated st) (x :: parameters self) ->
  training self = false \/ Qeq_bool (p (dropout self)) 0 = true ->
  exists y1 st1 y2 st2,
    forward self x years locations false st = (inr (Output y1), st1)
    /\ forward self x years locations false st1 = (inr (Output y2), st2)
    /\ forall b, (b < B)%nat ->
         row st2 y2 (default H (last widths)) b
         = row st1 y1 (default H (last widths)) b
         /\ row st2 y1 (default H (last widths)) b
            = row st1 y1 (default H (last widths)) b.
Proof.
  intros Hx Hlen Hdx Hdev Hnet Hadd Hall Hidle.
  destruct (forward_prediction self x years locations st d B C T W H widths)
    as (y1 & st1 & Hrun1 & _ & Hk1 & Hay1 & Hrows1); try assumption.
  assert (Hcur : current_cuda st1 = current_cuda st).
  { exact (keeps_run _ _ _ _ _
             (device_kept_forward self x years locations false) Hrun1). }
  assert (Hall1 : Forall (allocated st1) (x :: parameters self)).
  { eapply Forall_impl; [exact Hall|]. intros t Ht.
    exact (allocated_kept st st1 t Hk1 Ht). }
  destruct (forward_prediction self x years locations st1 d B C T W H widths)
    as (y2 & st2 & Hrun2 & _ & Hk2 & _ & Hrows2); try assumption.
  { rewrite Hcur. exact Hdev. }
  exists y1, st1, y2, st2. split; [exact Hrun1|]. split; [exact Hrun2|].
  intros b Hb. split.
  - rewrite (Hrows2 b Hb), (Hrows1 b Hb). by apply prediction_kept.
  - by apply row_kept.
Qed.

Lemma forward_is_repeatable_witness :
  exists y1 st1 y2 st2,
    forward demo_eval_net demo_x None None false demo_state
    = (inr (Output y1), st1)
    /\ forward demo_eval_net demo_x None None false st1
       = (inr (Output y2), st2)
    /\ forall b, (b < 1)%nat ->
         row st2 y2 1 b = row st1 y1 1 b /\ row st2 y1 1 b = row st1 y1 1 b.
Proof.
  apply (forward_is_repeatable demo_eval_net demo_x None None demo_state
           CPU 1 1 3 1 2 [3; 1]%nat).
  - reflexivity.
  - reflexivity.
  - reflexivity.
  - left. reflexivity.
  - split; [exact demo_eval_rnn_ok|]. simpl. repeat split.
  - reflexivity.
  - exact demo_eval_allocated.
  - left. reflexivity.
Defined.

(* ===================================================================== *)
(** * Which constructions and calls fail *)
(* ===================================================================== *)

(** X22.  [reinitialize_model] needs a positive hidden size, and nothing
    else of a network with separate parameter tensors: for every
    [hidden_size > 0] it returns normally.  For [hidden_size = 0] it raises
    ZeroDivisionError, and for a negative hidden size ValueError (from
    [math.sqrt]) as long as the double [1 / hidden_size] is negative, in
    both cases before any parameter has been touched; a negative hidden
    size so large that the quotient underflows to [-0.0] is accepted. *)
Theorem reinitialize_model_needs_hidden_size (self : RNNModel)
    (time : option Z) (st : state) :
  wf_parameters (model self) ->
  unit_draws st ->
  (0 < hidden_size (model self) ->
   exists st', reinitialize_model self time st = (inr tt, st'))
  /\ (hidden_size (model self) = 0 ->
      reinitialize_model self time st = (inl ZeroDivisionError, st))
  /\ (hidden_size (model self) < 0 ->
      if float_ltb (int_true_div 1 (hidden_size (model self))) (float_of_int 0)
      then reinitialize_model self time st = (inl ValueError, st)
      else exists st', reinitialize_model self time st = (inr tt, st')).
Proof.
  intros Hwf Hu. split_and!.
  - intros Hh.
    destruct (wp_initialize_weights (model self) st (fun _ _ => True) Hh Hwf Hu)
      as ([] & st' & Hrun & _); [auto|]. eauto.
  - intros Hh. unfold reinitialize_model, initialize_weights.
    rewrite Hh. reflexivity.
  - intros Hh.
    destruct (float_ltb _ _) eqn:Hq.
    + unfold reinitialize_model, initialize_weights.
      replace (hidden_size (model self) =? 0) with false
        by (symmetry; apply Z.eqb_neq; lia).
      cbv zeta. rewrite Hq. reflexivity.
    + destruct (wp_initialize_weights_accepted (model self) st
                  (fun _ _ => True)) as ([] & st' & Hrun & _);
        [lia|exact Hq|exact Hwf|exact Hu|auto|]. eauto.
Qed.

Lemma reinitialize_model_needs_hidden_size_witness :
  (0 < hidden_size (model demo_model) ->
   exists st', reinitialize_model demo_model None demo_state = (inr tt, st'))
  /\ (hidden_size (model demo_model) = 0 ->
      reinitialize_model demo_model None demo_state
      = (inl ZeroDivisionError, demo_state))
  /\ (hidden_size (model demo_model) < 0 ->
      if float_ltb (int_true_div 1 (hidden_size (model demo_model)))
                   (float_of_int 0)
      then reinitialize_model demo_model None demo_state
           = (inl ValueError, demo_state)
      else exists st',
             reinitialize_model demo_model None demo_state = (inr tt, st')).
Proof.
  apply (reinitialize_model_needs_hidden_size demo_model None demo_state).
  - exact demo_wf_parameters.
  - exact demo_unit_draws.
Defined.

(** The two cases of a negative hidden size: the quotient of -1 is
    negative, that of -2^1075 is [-0.0]. *)
Lemma quotient_of_negative_sizes :
  float_ltb (int_true_div 1 (-1)) (float_of_int 0) = true
  /\ float_ltb (int_true_div 1 (- 2 ^ 1075)) (float_of_int 0) = false
  /\ int_true_div 1 (- 2 ^ 1075) = SpecFloat.S754_zero true
  /\ float_ltb (int_true_div 1 (- 2 ^ 1075 + 1)) (float_of_int 0) = true.
Proof. repeat split; vm_compute; reflexivity. Qed.

(** X23.  A CUDA batch is rejected by a network whose recurrent cell is
    on the CPU: the states are moved to the GPU, and at the first timestep
    [forward] raises RuntimeError before any sub-module call has
    completed. *)
Theorem forward_rejects_device_mismatch (self : RNNet) (x : tensor)
    (years locations : option tensor) (return_last_dense : bool) (st : state)
    (B C T W H : nat) :
  t_shape x = [B; C; T; W] ->
  (1 <= T)%nat ->
  hidden_size self = Z.of_nat H ->
  is_cuda x = true ->
  t_dev (weight_ih_l0 (rnn self)) = CPU ->
  let r := forward self x years locations return_last_dense st in
  r.1 = inl RuntimeError /\ trace r.2 = trace st.
Proof.
  intros Hx HT Hh Hcuda Hcpu r.
  destruct (wp_forward_reshape x B C T W st
              (fun x' st' =>
                 t_shape x' = [B; T; (C * W)%nat] /\
                 t_stride x' = contiguous_strides [B; T; (C * W)%nat] /\
                 t_dev x' = t_dev x /\ only_allocates st st') Hx)
    as (x' & st1 & Hre & Hx' & Hstr' & Hdx' & Hst1).
  { intros. auto. }
  destruct (wp_forward_states self x' B [T; (C * W)%nat] H st1
              (fun hc st' => only_allocates st1 st') Hx' Hh)
    as ([h0 c0] & st2 & Hstates & Hst2).
  { intros. assumption. }
  assert (Hr : r = (inl RuntimeError, st2)).
  { unfold r, forward. rewrite (bind_run _ _ _ _ _ Hre).
    erewrite (bind_run (shape_at x' 1));
      [|unfold shape_at; rewrite Hx'; reflexivity].
    rewrite (bind_run _ _ _ _ _ Hstates). cbv beta iota.
    apply bind_raise. destruct T as [|T]; [lia|].
    unfold range. cbn [seq for_each]. apply bind_raise.
    unfold forward_step.
    erewrite (bind_run (select1 x' 0));
      [|unfold select1; rewrite Hx', Hstr'; reflexivity].
    erewrite (bind_run (unsqueeze _ 1)); [|reflexivity].
    apply bind_raise. unfold LSTM_call.
    cbn [t_shape take drop app].
    destruct (t_shape (weight_ih_l0 (rnn self))) as [|? [|? [|]]];
      try reflexivity.
    destruct (t_shape (weight_hh_l0 (rnn self))) as [|? [|? [|]]];
      try reflexivity.
    rewrite bool_decide_eq_false_2; [reflexivity|].
    intros (_ & _ & _ & Hdevs).
    apply Forall_cons in Hdevs as [_ Hdevs].
    apply Forall_cons in Hdevs as [_ Hdevs].
    apply Forall_cons in Hdevs as [Hih _].
    cbn [t_dev] in Hih. rewrite Hdx', Hcpu in Hih.
    unfold is_cuda in Hcuda. rewrite <- Hih in Hcuda. discriminate. }
  rewrite Hr. split; [reflexivity|]. cbn [snd].
  destruct Hst2 as (_ & _ & _ & -> & _). destruct Hst1 as (_ & _ & _ & -> & _).
  reflexivity.
Qed.

Lemma forward_rejects_device_mismatch_witness :
  let r := forward (demo_net false) demo_x_cuda0 None None false demo_state in
  r.1 = inl RuntimeError /\ trace r.2 = trace demo_state.
Proof.
  apply (forward_rejects_device_mismatch (demo_net false) demo_x_cuda0 None
           None false demo_state 1 1 3 1 2).
  - reflexivity.
  - lia.
  - reflexivity.
  - reflexivity.
  - reflexivity.
Defined.

(** ** When the constructor raises *)

Lemma raises_bind_l {A B} (m : M A) (f : A -> M B) st :
  raises (m st) -> raises ((m ≫= f) st).
Proof.
  intros [e He]. unfold mbind, M_bind.
  destruct (m st) as [[e'|a] st']; [|discriminate]. exists e'. reflexivity.
Qed.

Lemma raises_bind_r {A B} (m : M A) (f : A -> M B) st :
  wp m st (fun a st' => raises (f a st')) -> raises ((m ≫= f) st).
Proof.
  intros (a & st' & Hm & Hf). unfold mbind, M_bind. rewrite Hm. exact Hf.
Qed.

(** A loop raises as soon as a step raises; otherwise the invariant of
    its steps holds at the end. *)
Lemma for_each_raises {I S} (Inv : list I -> S -> state -> Prop)
    (items : list I) (body : I -> S -> M S) (s : S) (st : state) :
  Inv [] s st ->
  (forall done i rest s st,
      items = done ++ i :: rest -> Inv done s st ->
      raises (body i s st)
      \/ wp (body i s) st (fun s' st' => Inv (done ++ [i]) s' st')) ->
  raises (for_each items body s st)
  \/ wp (for_each items body s) st (fun s' st' => Inv items s' st').
Proof.
  intros Hinit Hstep.
  enough (forall rest done s st,
             items = done ++ rest -> Inv done s st ->
             raises (for_each rest body s st)
             \/ wp (for_each rest body s) st
                   (fun s' st' => Inv items s' st')) as H
    by (apply (H items [] s st); [reflexivity|exact Hinit]).
  induction rest as [|i rest IH]; intros done s0 st0 Heq HI; cbn [for_each].
  - right. apply wp_ret. rewrite Heq, app_nil_r. exact HI.
  - destruct (Hstep done i rest s0 st0 Heq HI) as [Hr|(s1 & st1 & Hb & HI1)].
    + left. by apply raises_bind_l.
    + destruct (IH (done ++ [i]) s1 st1) as [Hr|Hw]; [|exact HI1| |].
      * rewrite Heq, <- app_assoc. reflexivity.
      * left. apply raises_bind_r. exists s1, st1. auto.
      * right. apply wp_bind. exists s1, st1. auto.
Qed.

Lemma sizes_raises dims st :
  ~ Forall (fun d => 0 <= d) dims -> sizes dims st = (inl RuntimeError, st).
Proof.
  intros Hno. unfold sizes.
  destruct (forallb (fun d => 0 <=? d) dims) eqn:Hf; [|reflexivity].
  destruct Hno. apply Forall_forall. intros d Hd.
  rewrite forallb_forall in Hf. apply Z.leb_le, Hf.
  by apply list_elem_of_In.
Qed.

Lemma empty_raises dims st :
  ~ Forall (fun d => 0 <= d) dims -> raises (empty dims st).
Proof.
  intros Hno. unfold empty, zeros. apply raises_bind_l.
  rewrite (sizes_raises _ _ Hno). exists RuntimeError. reflexivity.
Qed.

Lemma LSTM_init_raises n h st :
  n < 0 \/ h < 0 -> raises (LSTM_init n h st).
Proof.
  intros Hneg. unfold LSTM_init. apply raises_bind_l, empty_raises.
  intros Hall. apply Forall_cons in Hall as [Hh Hall].
  apply Forall_cons in Hall as [Hn _]. lia.
Qed.

Lemma Linear_init_raises n_in n_out st :
  n_in < 0 \/ n_out < 0 -> raises (Linear_init n_in n_out st).
Proof.
  intros Hneg. unfold Linear_init. apply raises_bind_l, empty_raises.
  intros Hall. apply Forall_cons in Hall as [Ho Hall].
  apply Forall_cons in Hall as [Hi _]. lia.
Qed.

Lemma RNNet_init_raises ic nb hidden q df add dense st :
  dense_features_are st df dense ->
  ~ hyperparameters_ok ic nb hidden q dense ->
  raises (RNNet_init ic nb hidden q df add st).
Proof.
  intros Hdf Hno. unfold RNNet_init.
  set (v := if add then hidden + 3 else hidden).
  apply raises_bind_r. eapply wp_init_dense_features; [exact Hdf|].
  intros s0. fold v. set (r := default (length (lists st)) df). intros Hr0 _.
  destruct (Qle_bool 0 q && Qle_bool q 1) eqn:Hq.
  2:{ apply raises_bind_l. unfold Dropout_init. rewrite Hq.
      exists ValueError. reflexivity. }
  apply andb_true_iff in Hq as [Hq0 Hq1].
  apply raises_bind_r, wp_Dropout_init; [exact Hq0|exact Hq1|].
  destruct (decide (0 <= ic * nb /\ 0 <= hidden)) as [[Hin Hh]|Hneg].
  2:{ apply raises_bind_l, LSTM_init_raises.
      destruct (Z.lt_ge_cases (ic * nb) 0) as [?|Hge1]; [by left|]. right.
      destruct (Z.lt_ge_cases hidden 0) as [?|Hge2]; [assumption|].
      destruct Hneg. split; lia. }
  assert (Hv : 0 <= v) by (unfold v; destruct add; lia).
  apply raises_bind_r, wp_LSTM_init; [exact Hin|exact Hh|].
  intros rnn s1 _ _ _ (_ & Hl1 & _) _.
  assert (Hr1 : lists s1 !! r = Some (v :: dense)) by (rewrite Hl1; exact Hr0).
  apply raises_bind_r. eapply wp_list_len; [exact Hr1|].
  replace (Z.to_nat (Z.of_nat (length (v :: dense))) - 1)%nat
    with (length dense) by (rewrite Nat2Z.id; simpl; lia).
  destruct (for_each_raises
              (fun done (layers : list Linear) s =>
                 lists s = lists s1
                 /\ Forall (fun w => 0 <= w) (take (length done) dense))
              (seq 1 (length dense))
              (fun i layers =>
                 n_in ← list_get r (i - 1);
                 n_out ← list_get r i;
                 layer ← Linear_init n_in n_out;
                 mret (layers ++ [layer])) [] s1) as [Hr|Hw].
  - split; [reflexivity|constructor].
  - intros done i rest layers s Heq (Hl & Hnn).
    apply seq_middle in Heq as [-> Hlt].
    replace (1 + length done - 1)%nat with (length done) by lia.
    destruct (lookup_lt_is_Some_2 dense (length done) Hlt) as [n_out Hn_out].
    assert (Hn_in : exists n_in, (v :: dense) !! length done = Some n_in
                                 /\ 0 <= n_in).
    { destruct (length done) as [|k] eqn:Hk; [exists v; auto|].
      assert (Hk' : (k < length dense)%nat) by lia.
      destruct (lookup_lt_is_Some_2 dense k Hk') as [n Hn].
      exists n. split; [exact Hn|].
      apply (Forall_lookup_1 (fun w => 0 <= w) _ k n Hnn).
      rewrite lookup_take_lt by lia. exact Hn. }
    destruct Hn_in as (n_in & Hn_in & Hnn_in).
    assert (Hr : lists s !! r = Some (v :: dense)) by (rewrite Hl; exact Hr1).
    destruct (decide (0 <= n_out)) as [Hnn_out|Hneg_out].
    + right.
      apply wp_bind. eapply wp_list_get; [exact Hr|exact Hn_in|].
      apply wp_bind. eapply wp_list_get; [exact Hr|exact Hn_out|].
      apply wp_bind, wp_Linear_init; [exact Hnn_in|exact Hnn_out|].
      intros layer s' _ _ _ _ _ (_ & Hl' & _) _. apply wp_ret.
      split; [congruence|]. rewrite length_app. cbn [length].
      replace (length done + 1)%nat with (S (length done)) by lia.
      rewrite (take_S_r _ _ _ Hn_out). apply Forall_app. split; [exact Hnn|].
      repeat constructor. exact Hnn_out.
    + left.
      apply raises_bind_r. eapply wp_list_get; [exact Hr|exact Hn_in|].
      apply raises_bind_r. eapply wp_list_get; [exact Hr|exact Hn_out|].
      apply raises_bind_l, Linear_init_raises. lia.
  - by apply raises_bind_l.
  - apply raises_bind_r. eapply wp_mono; [exact Hw|].
    intros layers s2 (_ & Hnn). cbv beta in Hnn.
    rewrite length_seq, firstn_all in Hnn. cbv zeta.
    assert (Hzero : hidden = 0).
    { destruct (decide (0 < hidden)) as [Hpos|]; [|lia].
      destruct Hno. split_and!; assumption. }
    apply raises_bind_l. unfold initialize_weights. cbn [hidden_size].
    rewrite Hzero. exists ZeroDivisionError. reflexivity.
Qed.

(** X25.  The constructor rejects invalid hyperparameters: with
    [hidden_size <= 0], a negative [in_channels * num_bins], a dropout
    probability outside [[0, 1]] or a negative dense feature size,
    [RNNModel.__init__] raises and returns no model. *)
Theorem construction_rejects_invalid (in_channels num_bins hidden : Z) (q : Q)
    (dense_features : option nat) (add : bool) (dense : list Z) (st : state) :
  dense_features_are st dense_features dense ->
  hidden <= 0 \/ in_channels * num_bins < 0
  \/ Qle_bool 0 q && Qle_bool q 1 = false
  \/ Exists (fun w => w < 0) dense ->
  exists e st',
    RNNModel_init in_channels num_bins hidden q dense_features add st
    = (inl e, st').
Proof.
  intros Hdf Hbad.
  assert (Hno : ~ hyperparameters_ok in_channels num_bins hidden q dense).
  { intros (Hh & Hin & Hq0 & Hq1 & Hall).
    destruct Hbad as [Hb|[Hb|[Hb|Hb]]]; [lia|lia| |].
    - rewrite Hq0, Hq1 in Hb. discriminate.
    - apply Exists_exists in Hb as (w & Hw & Hneg).
      eapply Forall_forall in Hall; [|exact Hw]. simpl in Hall. lia. }
  assert (Hr : raises (RNNModel_init in_channels num_bins hidden q
                                     dense_features add st)).
  { unfold RNNModel_init. apply raises_bind_l.
    exact (RNNet_init_raises in_channels num_bins hidden q
             dense_features add dense st Hdf Hno). }
  destruct Hr as [e He].
  destruct (RNNModel_init in_channels num_bins hidden q dense_features add st)
    as [r st'].
  simpl in He. subst r. exists e, st'. reflexivity.
Qed.

Lemma construction_rejects_invalid_witness :
  exists e st',
    RNNModel_init 1 1 0 (3 # 4) (Some 0%nat) false demo_start = (inl e, st').
Proof.
  apply (construction_rejects_invalid 1 1 0 (3 # 4) (Some 0%nat) false [3; 1]
           demo_start).
  - reflexivity.
  - left. lia.
Defined.

(* ===================================================================== *)
(** * Series without timesteps *)
(* ===================================================================== *)

Lemma demo_empty_input_ok : input_ok demo_state demo_x_empty CPU 1 0 1.
Proof.
  split; [exists 1%nat, 1%nat; split; reflexivity|].
  split; [reflexivity|]. left. reflexivity.
Defined.

(** X9.  On a batch of series without timesteps the recurrent cell and
    dropout are not called at all.  The dense layers run on the zero-filled
    initial hidden state, with the year and the location of each example
    appended under augmentation, and [forward] returns what they give (the
    zero-filled state itself when there is no dense layer and no
    augmentation): the trace of the call is the trace of the dense layers
    alone. *)
Theorem forward_on_empty_series (self : RNNet) (x : tensor)
    (years locations : option tensor) (return_last_dense : bool) (st : state)
    (d : device) (B F H : nat) (widths : list nat) :
  input_ok st x d B 0 F ->
  net_ok self d F H widths ->
  year_loc_ok st self d B years locations ->
  let r := forward self x years locations return_last_dense st in
  exists a evs ys,
    t_shape a = [B; dense_input_width self H]
    /\ (add_year_loc self = false ->
        elements r.2 a = replicate (B * H) 0%R)
    /\ (forall y l b,
          add_year_loc self = true ->
          years = Some y -> locations = Some l -> (b < B)%nat ->
          row r.2 a (H + 3) b
          = replicate H 0%R ++ [tget r.2 y [b]] ++ row r.2 l 2 b)
    /\ dense_run (dense_layers self) a evs ys
    /\ trace r.2 = trace st ++ evs
    /\ r.1 = forward_outcome return_last_dense (default a (last ys))
                (captured return_last_dense
                          (length (dense_layers self))
                          (length (dense_layers self)) ys).
Proof.
  intros Hin Hnet Hyl r.
  destruct (forward_run self x years locations return_last_dense st d B 0 F H
              widths Hin Hnet Hyl)
    as (x' & h0 & c0 & hT & cT & feat & a & evs_r & evs_d & ys & Hacc).
  fold r in Hacc.
  destruct Hacc as [(s1 & Hre & s2 & Hstates) _ _ Hun Hfeat Hshape Hplain Hrows
                    Hdense _ Htrace _ Hres].
  inversion Hun; subst.
  destruct (forward_recurrence self x st d B 0 F H Hin (proj1 Hnet))
    as (x2 & st1 & h0 & c0 & st2 & hT' & cT' & evs & st3 & feat' & Hrec).
  pose proof (forward_after_recurrence self x years locations
                return_last_dense _ _ _ _ _ _ _ _ _ _ _ _ _ _ _ _ Hrec) as Hfwd.
  destruct Hrec as [Hre' Hstates' Hloop Hsq _ (Hsh & _ & _ & _ & Hah & _ & Hz & _)
                    _ _ _ _ _ (_ & _ & Hk23)].
  rewrite Hre in Hre'. injection Hre' as <- <-.
  rewrite Hstates in Hstates'. injection Hstates' as <- <- <-.
  simpl in Hloop. injection Hloop as <- <- <-.
  assert (Hk : storages_kept s2 r.2).
  { unfold r. rewrite Hfwd. apply storages_kept_after_recurrence. }
  assert (Hzero : elements r.2 hT = replicate (numel [1%nat; B; H]) 0%R).
  { rewrite (storages_kept_elements s2 r.2) by assumption. exact Hz. }
  destruct Hfeat as [Hsq' Hfs].
  unfold squeeze0 in Hsq'. rewrite Hsh in Hsq'. injection Hsq' as <-.
  exists a, evs_d, ys. split_and!.
  - exact Hshape.
  - intros Hadd. rewrite (Hplain Hadd).
    rewrite (elements_squeeze0 _ _ _ Hsh), Hzero. f_equal. simpl. lia.
  - intros y l b Hadd Hy Hl Hb.
    rewrite (Hrows y l b Hadd Hy Hl Hb), (row_squeeze0 _ _ _ _ _ Hsh).
    by rewrite (state_row_zero _ _ _ _ _ Hsh Hzero Hb).
  - exact Hdense.
  - exact Htrace.
  - exact Hres.
Qed.

Lemma forward_on_empty_series_witness :
  let r := forward (demo_net false) demo_x_empty None None false demo_state in
  exists a evs ys,
    t_shape a = [1%nat; dense_input_width (demo_net false) 2]
    /\ (add_year_loc (demo_net false) = false ->
        elements r.2 a = replicate (1 * 2) 0%R)
    /\ (forall y l b,
          add_year_loc (demo_net false) = true ->
          None = Some y -> None = Some l -> (b < 1)%nat ->
          row r.2 a (2 + 3) b
          = replicate 2 0%R ++ [tget r.2 y [b]] ++ row r.2 l 2 b)
    /\ dense_run (dense_layers (demo_net false)) a evs ys
    /\ trace r.2 = trace demo_state ++ evs
    /\ r.1 = forward_outcome false (default a (last ys))
                (captured false
                          (length (dense_layers (demo_net false)))
                          (length (dense_layers (demo_net false))) ys).
Proof.
  apply (forward_on_empty_series (demo_net false) demo_x_empty None None false
           demo_state CPU 1 1 2 [3; 1]%nat).
  - exact demo_empty_input_ok.
  - exact (demo_net_ok false).
  - apply year_loc_ok_plain. reflexivity.
Defined.
